(** * OAuth-Server: a shallow embedding of the authorization protocol engine

    The development follows the Go sources of the server:
    - [internal/application/usecases] (the authorization-code registry, the
      PKCE check, the account use case),
    - [internal/infrastructure/crypto] (the JWE token service, the bcrypt
      password hasher),
    - [internal/infrastructure/storage] (the in-memory account repository),
    - [internal/interfaces/http/handlers] (the authorize and signup handlers),
    - [internal/config] (the configuration loader).

    Part I holds the definitions, Part II the theorems. *)

From Stdlib Require Import ZArith Ascii String List Lia Bool Permutation Sorted.
From stdpp Require Import base option gmap strings list fin_maps.

Local Open Scope string_scope.
Local Open Scope Z_scope.

(* ===================================================================== *)
(** * Part I: definitions                                                 *)
(* ===================================================================== *)

(** ** Go values

    A Go [string] is a sequence of bytes: Rocq's [string] of 8-bit [ascii].
    A Go [error] is modelled by its [Error()] text, which is what the
    handlers inspect ([strings.Contains(err.Error(), ...)]).  [fmt.Errorf]
    with a [%w] or [%s] verb is string concatenation. *)

Definition error := string.

Inductive result (A : Type) : Type :=
| Ok (a : A)
| Err (e : error).
Arguments Ok {A} a.
Arguments Err {A} e.

(** A call that may end in a run-time panic instead of returning. *)
Inductive outcome (A : Type) : Type :=
| Returned (a : A)
| Panicked (msg : string).
Arguments Returned {A} a.
Arguments Panicked {A} msg.

Definition is_Ok {A} (r : result A) : bool :=
  match r with Ok _ => true | Err _ => false end.

(** [time.Time] as nanoseconds since the Unix epoch; [time.Duration] as
    nanoseconds. *)
Definition Time := Z.
Definition Second : Z := 1000000000.
Definition Minute : Z := 60 * Second.
Definition Hour : Z := 60 * Minute.

(** [t.After(u)], [t.Before(u)], [t.Add(d)], [t.Unix()], [time.Unix(s, 0)]. *)
Definition After (t u : Time) : bool := u <? t.
Definition Before (t u : Time) : bool := t <? u.
Definition Add (t : Time) (d : Z) : Time := t + d.
Definition Unix (t : Time) : Z := t / Second.
Definition time_Unix (sec : Z) : Time := sec * Second.

(** Bytes of a string, as numbers in [0, 256). *)
Definition byte_of_ascii (a : ascii) : Z := Z.of_N (N_of_ascii a).
Definition ascii_of_byte (b : Z) : ascii := ascii_of_N (Z.to_N (b mod 256)).
Definition bytes_of_string (s : string) : list Z :=
  List.map byte_of_ascii (list_ascii_of_string s).
Definition string_of_bytes (l : list Z) : string :=
  string_of_list_ascii (List.map ascii_of_byte l).

(** [strings.Contains(s, sub)]. *)
Fixpoint Contains (s sub : string) : bool :=
  if String.prefix sub s then true
  else match s with
       | EmptyString => false
       | String _ s' => Contains s' sub
       end.

(** ** [crypto/sha256]: SHA-256 (FIPS 180-4) on byte lists *)

Module SHA256.

Definition add32 (x y : Z) : Z := (x + y) mod 2 ^ 32.
Definition rotr (n x : Z) : Z :=
  Z.lor (Z.shiftr x n) (Z.shiftl x (32 - n) mod 2 ^ 32).
Definition shr (n x : Z) : Z := Z.shiftr x n.
Definition not32 (x : Z) : Z := Z.lxor x (2 ^ 32 - 1).
Definition Ch (x y z : Z) : Z := Z.lxor (Z.land x y) (Z.land (not32 x) z).
Definition Maj (x y z : Z) : Z :=
  Z.lxor (Z.lxor (Z.land x y) (Z.land x z)) (Z.land y z).
Definition Sigma0 (x : Z) : Z := Z.lxor (Z.lxor (rotr 2 x) (rotr 13 x)) (rotr 22 x).
Definition Sigma1 (x : Z) : Z := Z.lxor (Z.lxor (rotr 6 x) (rotr 11 x)) (rotr 25 x).
Definition sigma0 (x : Z) : Z := Z.lxor (Z.lxor (rotr 7 x) (rotr 18 x)) (shr 3 x).
Definition sigma1 (x : Z) : Z := Z.lxor (Z.lxor (rotr 17 x) (rotr 19 x)) (shr 10 x).

(** The round constants are the first 32 bits of the fractional parts of
    the cube roots of the first 64 primes, and the initial hash value those
    of the square roots of the first 8 primes. *)
Definition is_prime (n : Z) : bool :=
  List.forallb (fun d => negb (n mod Z.of_nat d =? 0)) (List.seq 2 (Z.to_nat n - 2)).

Definition primes : list Z :=
  List.firstn 64 (List.filter is_prime (List.map Z.of_nat (List.seq 2 400))).

(** The largest [r + d] with [d < 2 ^ bits] whose cube is at most [n]. *)
Fixpoint cube_root_from (bits : nat) (n r : Z) : Z :=
  match bits with
  | O => r
  | S b =>
      let c := r + 2 ^ Z.of_nat b in
      cube_root_from b n (if c * c * c <=? n then c else r)
  end.

Definition frac32_cube_root (p : Z) : Z := cube_root_from 40 (p * 2 ^ 96) 0 mod 2 ^ 32.
Definition frac32_square_root (p : Z) : Z := Z.sqrt (p * 2 ^ 64) mod 2 ^ 32.

Definition K : list Z := Eval vm_compute in List.map frac32_cube_root primes.

Definition H0 : list Z :=
  Eval vm_compute in List.map frac32_square_root (List.firstn 8 primes).

(** Big-endian encoding of [x] on [n] bytes. *)
Fixpoint be_bytes (n : nat) (x : Z) : list Z :=
  match n with
  | O => []
  | S n' => (Z.shiftr x (8 * Z.of_nat n') mod 256) :: be_bytes n' x
  end.

(** The message followed by 0x80, zeros up to 56 modulo 64, and the bit
    length on eight bytes. *)
Definition pad (msg : list Z) : list Z :=
  let len := Z.of_nat (List.length msg) in
  msg ++ [0x80] ++ List.repeat 0 (Z.to_nat ((55 - len) mod 64)) ++ be_bytes 8 (8 * len).

(** Big-endian 32-bit words of a byte list (a trailing group of fewer than
    four bytes does not occur on padded input and is dropped). *)
Fixpoint words (l : list Z) : list Z :=
  match l with
  | a :: b :: c :: d :: rest =>
      (Z.shiftl a 24 + Z.shiftl b 16 + Z.shiftl c 8 + d) :: words rest
  | _ => []
  end.

(** The message schedule: [n] more words after the list [w]. *)
Fixpoint schedule (n : nat) (w : list Z) : list Z :=
  match n with
  | O => w
  | S n' =>
      let t := List.length w in
      let at_ (i : nat) := List.nth (t - i) w 0 in
      schedule n' (w ++ [add32 (add32 (sigma1 (at_ 2%nat)) (at_ 7%nat))
                               (add32 (sigma0 (at_ 15%nat)) (at_ 16%nat))])
  end.

Record regs := Regs { ra : Z; rb : Z; rc : Z; rd : Z; re : Z; rf : Z; rg : Z; rh : Z }.

Definition round (s : regs) (kw : Z * Z) : regs :=
  let t1 := add32 (add32 (add32 (add32 (rh s) (Sigma1 (re s))) (Ch (re s) (rf s) (rg s))) (fst kw)) (snd kw) in
  let t2 := add32 (Sigma0 (ra s)) (Maj (ra s) (rb s) (rc s)) in
  Regs (add32 t1 t2) (ra s) (rb s) (rc s) (add32 (rd s) t1) (re s) (rf s) (rg s).

Definition regs_of (h : list Z) : regs :=
  Regs (List.nth 0 h 0) (List.nth 1 h 0) (List.nth 2 h 0) (List.nth 3 h 0)
       (List.nth 4 h 0) (List.nth 5 h 0) (List.nth 6 h 0) (List.nth 7 h 0).

Definition list_of (s : regs) : list Z :=
  [ra s; rb s; rc s; rd s; re s; rf s; rg s; rh s].

Definition compress (h : list Z) (block : list Z) : list Z :=
  let w := schedule 48 block in
  let s := List.fold_left round (List.combine K w) (regs_of h) in
  List.map (fun p => add32 (fst p) (snd p)) (List.combine h (list_of s)).

(** Hash the 16-word blocks of [ws] in turn; [n] bounds their number. *)
Fixpoint blocks (n : nat) (h : list Z) (ws : list Z) : list Z :=
  match n with
  | O => h
  | S n' =>
      match ws with
      | [] => h
      | _ => blocks n' (compress h (List.firstn 16 ws)) (List.skipn 16 ws)
      end
  end.

(** [sha256.Sum256(data)]: the 32 digest bytes. *)
Definition Sum256 (data : list Z) : list Z :=
  let ws := words (pad data) in
  List.concat (List.map (be_bytes 4) (blocks (List.length ws) H0 ws)).

End SHA256.

(** ** [encoding/base64] *)

Module Base64.

(** The URL-safe alphabet of RFC 4648, section 5. *)
Definition encodeURL : string :=
  "ABCDEFGHIJKLMNOPQRSTUVWXYZabcdefghijklmnopqrstuvwxyz0123456789-_".

Definition digit (i : Z) : ascii :=
  match String.get (Z.to_nat i) encodeURL with
  | Some c => c
  | None => "="%char
  end.

(** [enc.EncodeToString(src)]; [padding] is [true] for [URLEncoding] and
    [false] for [URLEncoding.WithPadding(NoPadding)]. *)
Fixpoint encode (padding : bool) (src : list Z) : string :=
  match src with
  | a :: b :: c :: rest =>
      String (digit (Z.shiftr a 2))
        (String (digit (Z.lor (Z.shiftl (Z.land a 3) 4) (Z.shiftr b 4)))
           (String (digit (Z.lor (Z.shiftl (Z.land b 15) 2) (Z.shiftr c 6)))
              (String (digit (Z.land c 63)) (encode padding rest))))
  | [a; b] =>
      String (digit (Z.shiftr a 2))
        (String (digit (Z.lor (Z.shiftl (Z.land a 3) 4) (Z.shiftr b 4)))
           (String (digit (Z.shiftl (Z.land b 15) 2))
              (if padding then "=" else "")))
  | [a] =>
      String (digit (Z.shiftr a 2))
        (String (digit (Z.shiftl (Z.land a 3) 4))
           (if padding then "==" else ""))
  | [] => ""
  end.

Definition URLEncoding_EncodeToString (src : list Z) : string := encode true src.
Definition RawURLEncoding_EncodeToString (src : list Z) : string := encode false src.

End Base64.

(** ** PKCE ([usecases.AuthUseCase.validatePKCE]) *)

(** The challenge the verifier stands for: the unpadded URL-safe base64 of
    its SHA-256 digest. *)
Definition expectedChallenge (codeVerifier : string) : string :=
  Base64.RawURLEncoding_EncodeToString (SHA256.Sum256 (bytes_of_string codeVerifier)).

Definition validatePKCE (codeChallenge codeVerifier method : string) : bool :=
  if negb (String.eqb method "S256") then false
  else String.eqb (expectedChallenge codeVerifier) codeChallenge.

(** ** Domain records ([internal/domain/account], [internal/domain/auth])

    Each Go struct is a record in a module of its own, so that the fields
    keep their Go names. *)

(** The zero [time.Time] (January 1, year 1, UTC). *)
Definition zeroTime : Time := -62135596800 * Second.

Module Account.
Record t := mk {
  ID : string;
  Email : string;
  Password : string;
  Name : string;
  Nickname : string;
  Picture : string;
  CreatedAt : Time;
  UpdatedAt : Time;
  Verified : bool;
  Blocked : bool
}.
End Account.

Module TokenPair.
Record t := mk {
  AccessToken : string;
  RefreshToken : string;
  IDToken : string;
  TokenType : string;
  ExpiresIn : Z;
  Scope : string
}.
End TokenPair.

Module Claims.
Record t := mk {
  Subject : string;
  Issuer : string;
  Audience : option (list string);   (* [None] is the nil slice *)
  ExpiresAt : Time;
  IssuedAt : Time;
  NotBefore : Time;
  Email : string;
  Name : string;
  Scope : string
}.
(** [&auth.Claims{}]. *)
Definition zero : t := mk "" "" None zeroTime zeroTime zeroTime "" "" "".
End Claims.

Module AuthorizationCode.
Record t := mk {
  Code : string;
  ClientID : string;
  RedirectURI : string;
  Scope : string;
  AccountID : string;
  CodeChallenge : string;
  CodeChallengeMethod : string;
  ExpiresAt : Time;
  Used : bool
}.
(** [authCode.Used = true] through the pointer held by the map. *)
Definition markUsed (c : t) : t :=
  mk (Code c) (ClientID c) (RedirectURI c) (Scope c) (AccountID c)
     (CodeChallenge c) (CodeChallengeMethod c) (ExpiresAt c) true.
End AuthorizationCode.

(** ** The authorization-code registry ([usecases.AuthUseCase])

    [authorizationCodes map[string]*auth.AuthorizationCode] is a finite map
    from code values to records.  The map holds the only pointer to each
    record, so the in-place write [authCode.Used = true] is an update of the
    map at that key.

    What a call observes of its collaborators is collected in a world: the
    state of the context on entry, the clock, and the results of the account
    use case and of the token service (an interface in the source). *)

Module Registry.

Record IssueWorld := {
  iw_ctx_Err : option error;                              (* ctx.Err() *)
  iw_GetAccountByEmail : string -> result Account.t;
  iw_VerifyPassword : string -> string -> bool;
  iw_rand_Read : result (list Z);                          (* 32 random bytes *)
  iw_Now : Time
}.

Record World := {
  ctx_Err : option error;                                 (* ctx.Err() *)
  Now : Time;                                             (* time.Now() *)
  accountUseCase_GetAccount : string -> result Account.t;
  tokenService_GenerateTokenPair : string -> string -> string -> result TokenPair.t
}.

End Registry.

Import Registry.

Definition CreateAuthorizationCode (w : IssueWorld) (codes : gmap string AuthorizationCode.t)
    (email password clientID redirectURI scope codeChallenge codeChallengeMethod : string)
    : result string * gmap string AuthorizationCode.t :=
  match iw_ctx_Err w with
  | Some e => (Err e, codes)
  | None =>
      match iw_GetAccountByEmail w email with
      | Err e => (Err ("authentication failed: " +:+ e), codes)
      | Ok acc =>
          if negb (iw_VerifyPassword w (Account.Password acc) password)
          then (Err "authentication failed: invalid credentials", codes)
          else
            match iw_rand_Read w with
            | Err e => (Err ("failed to generate authorization code: " +:+ e), codes)
            | Ok codeBytes =>
                let code := Base64.URLEncoding_EncodeToString codeBytes in
                let authCode :=
                  AuthorizationCode.mk code clientID redirectURI scope (Account.ID acc)
                    codeChallenge codeChallengeMethod (Add (iw_Now w) (10 * Minute)) false in
                (Ok code, <[code := authCode]> codes)
            end
      end
  end.

Definition ExchangeCodeForTokens (w : World) (codes : gmap string AuthorizationCode.t)
    (code clientID codeVerifier redirectURI : string)
    : result TokenPair.t * gmap string AuthorizationCode.t :=
  match ctx_Err w with
  | Some e => (Err e, codes)
  | None =>
      match codes !! code with
      | None => (Err "invalid authorization code", codes)
      | Some authCode =>
          if After (Now w) (AuthorizationCode.ExpiresAt authCode)
          then (Err "authorization code expired", delete code codes)
          else if AuthorizationCode.Used authCode
          then (Err "authorization code already used", delete code codes)
          else if negb (String.eqb (AuthorizationCode.ClientID authCode) clientID)
          then (Err "invalid client ID", codes)
          else if negb (String.eqb (AuthorizationCode.RedirectURI authCode) redirectURI)
          then (Err "invalid redirect URI", codes)
          else if negb (validatePKCE (AuthorizationCode.CodeChallenge authCode) codeVerifier
                          (AuthorizationCode.CodeChallengeMethod authCode))
          then (Err "PKCE validation failed", codes)
          else
            let codes' := <[code := AuthorizationCode.markUsed authCode]> codes in
            match accountUseCase_GetAccount w (AuthorizationCode.AccountID authCode) with
            | Err e => (Err ("failed to get account: " +:+ e), codes')
            | Ok acc =>
                match tokenService_GenerateTokenPair w (Account.ID acc) (Account.Email acc) (Account.Name acc) with
                | Err e => (Err ("failed to generate tokens: " +:+ e), codes')
                | Ok tokenPair => (Ok tokenPair, delete code codes')
                end
            end
      end
  end.

(** A sequential run of exchange requests against one registry. *)
Record ExchangeCall := {
  call_world : World;
  call_code : string;
  call_clientID : string;
  call_codeVerifier : string;
  call_redirectURI : string
}.

Definition exchange (codes : gmap string AuthorizationCode.t) (c : ExchangeCall)
    : result TokenPair.t * gmap string AuthorizationCode.t :=
  ExchangeCodeForTokens (call_world c) codes (call_code c) (call_clientID c)
    (call_codeVerifier c) (call_redirectURI c).

(** The codes whose exchange succeeded, in order, and the final registry. *)
Fixpoint run_exchanges (codes : gmap string AuthorizationCode.t) (calls : list ExchangeCall)
    : list string * gmap string AuthorizationCode.t :=
  match calls with
  | [] => ([], codes)
  | c :: rest =>
      let '(r, codes') := exchange codes c in
      let '(done, final) := run_exchanges codes' rest in
      (((if is_Ok r then [call_code c] else []) ++ done)%list, final)
  end.

(** How many exchanges of [code] succeeded. *)
Definition successes (code : string) (done : list string) : nat :=
  List.length (List.filter (String.eqb code) done).

(** A code is live when the registry holds a record for it whose used-flag
    is still false. *)
Definition live (codes : gmap string AuthorizationCode.t) (code : string) : Prop :=
  exists r, codes !! code = Some r /\ AuthorizationCode.Used r = false.

(** The checks of an exchange that come after the lookup, in the order of
    the source: expiry, used-flag, client id, redirect URI, PKCE. *)
Definition passes_checks (w : World) (authCode : AuthorizationCode.t)
    (clientID codeVerifier redirectURI : string) : bool :=
  negb (After (Now w) (AuthorizationCode.ExpiresAt authCode))
  && negb (AuthorizationCode.Used authCode)
  && String.eqb (AuthorizationCode.ClientID authCode) clientID
  && String.eqb (AuthorizationCode.RedirectURI authCode) redirectURI
  && validatePKCE (AuthorizationCode.CodeChallenge authCode) codeVerifier
       (AuthorizationCode.CodeChallengeMethod authCode).

(** *** The scenario of RFC 7636, appendix B, used for the examples *)

Module Scenario.

Definition verifier : string := "dBjftJeZ4CVP-mB92K27uhbUJU1p1r_wW1gFWFOEjXk".
Definition challenge : string := "E9Melhoa2OwvFrEMTJguCHaoeK1t8URWbuGJSstw-cM".

Definition alice : Account.t :=
  Account.mk "0123456789abcdef0123456789abcdef" "a@x" "$2a$10$hash" "A" "A" "" 0 0 true false.

Definition tokens : TokenPair.t :=
  TokenPair.mk "access" "refresh" "" "Bearer" 86400 "openid profile email".

(** A world in which the context is live, the clock reads [now], the
    account store knows [alice] and the token service mints [tokens]. *)
Definition world (now : Time) : World :=
  {| ctx_Err := None;
     Now := now;
     accountUseCase_GetAccount := fun id => if String.eqb id (Account.ID alice) then Ok alice
                             else Err "account not found";
     tokenService_GenerateTokenPair := fun _ _ _ => Ok tokens |}.

(** The same world with a failing token service. *)
Definition world_mint_fails (now : Time) : World :=
  {| ctx_Err := None;
     Now := now;
     accountUseCase_GetAccount := accountUseCase_GetAccount (world now);
     tokenService_GenerateTokenPair := fun _ _ _ => Err "failed to create access token: rand" |}.

Definition issue_world : IssueWorld :=
  {| iw_ctx_Err := None;
     iw_GetAccountByEmail := fun e => if String.eqb e "a@x" then Ok alice
                                      else Err "account not found";
     iw_VerifyPassword := fun h p => String.eqb p "Passw0rd!";
     iw_rand_Read := Ok (List.repeat 7 32);
     iw_Now := 0 |}.

(** The registry after scenario 2 of the specification: one code issued to
    client ["c1"] for [alice]. *)
Definition issued : result string * gmap string AuthorizationCode.t :=
  CreateAuthorizationCode issue_world ∅ "a@x" "Passw0rd!" "c1" "https://x/cb" "openid"
    challenge "S256".

Definition code : string :=
  match fst issued with Ok c => c | Err _ => "" end.

Definition codes : gmap string AuthorizationCode.t := snd issued.

Definition call (w : World) (codeVerifier : string) : ExchangeCall :=
  {| call_world := w; call_code := code; call_clientID := "c1";
     call_codeVerifier := codeVerifier; call_redirectURI := "https://x/cb" |}.

End Scenario.

(** ** The token service ([crypto.JWETokenService])

    The service signs a JSON claim set (HS256) and encrypts the signed form
    (A256GCM, direct key agreement) with go-jose.  The library calls are the
    operations of a class; the service is written over any implementation. *)

(** Dynamic values of a [map[string]interface{}], as far as the service
    tells them apart: the [[]string] audience ([None] is the nil slice), a
    decoded JSON array whose elements are strings ([Some s]) or something
    else ([None]), a decoded JSON number, JSON [null]. *)
Inductive value : Type :=
| VString (s : string)
| VInt64 (n : Z)
| VFloat64 (x : Z)                 (* an integral float64 *)
| VStrings (l : option (list string))
| VArray (l : list (option string))
| VNil
| VOther.

(** The float64 nearest to the integer [n] (ties to even): what
    [encoding/json] stores for the number [n] in an [interface{}]. *)
Definition float64_of_int (n : Z) : Z :=
  let m := Z.abs n in
  let bits := Z.log2 m + 1 in
  if (bits <=? 53) || (m =? 0) then n
  else
    let sh := bits - 53 in
    let q := Z.shiftr m sh in
    let r := m mod 2 ^ sh in
    let half := 2 ^ (sh - 1) in
    let q' := if (half <? r) || ((r =? half) && Z.odd q) then q + 1 else q in
    Z.sgn n * Z.shiftl q' sh.

(** [int64(x)] for an integral float64 (exact inside the int64 range). *)
Definition int64_of_float64 (x : Z) : Z :=
  if (- 2 ^ 63 <=? x) && (x <? 2 ^ 63) then x else - 2 ^ 63.

(** *** [unicode/utf8] and the strings of [encoding/json]

    [json.Marshal] writes a string rune by rune as [utf8.DecodeRuneInString]
    finds them, and writes the replacement character U+FFFD for every byte
    at which the decoder reports an error of size 1; reading the text back
    yields the encoding [EF BF BD] of that character. *)

(** A continuation byte. *)
Definition continuation (b : Z) : bool := (128 <=? b) && (b <=? 191).

(** The table [first] of [unicode/utf8] with its accept ranges: for a lead
    byte, the size of the encoding and the bounds of the second byte. *)
Definition lead_byte (b : Z) : option (nat * Z * Z) :=
  if (194 <=? b) && (b <=? 223) then Some (2%nat, 128, 191)
  else if b =? 224 then Some (3%nat, 160, 191)
  else if (225 <=? b) && (b <=? 236) then Some (3%nat, 128, 191)
  else if b =? 237 then Some (3%nat, 128, 159)
  else if (238 <=? b) && (b <=? 239) then Some (3%nat, 128, 191)
  else if b =? 240 then Some (4%nat, 144, 191)
  else if (241 <=? b) && (b <=? 243) then Some (4%nat, 128, 191)
  else if b =? 244 then Some (4%nat, 128, 143)
  else None.

(** [utf8.DecodeRune(p)]: the size of the rune at the head of [p], [None]
    when the decoder returns [RuneError] with size 1. *)
Definition rune_size (p : list Z) : option nat :=
  match p with
  | [] => None
  | b0 :: rest =>
      if b0 <? 128 then Some 1%nat
      else
        match lead_byte b0 with
        | None => None
        | Some (sz, lo, hi) =>
            match rest with
            | [] => None
            | b1 :: rest1 =>
                if negb ((lo <=? b1) && (b1 <=? hi)) then None
                else if (sz <=? 2)%nat then Some 2%nat
                else
                  match rest1 with
                  | [] => None
                  | b2 :: rest2 =>
                      if negb (continuation b2) then None
                      else if (sz <=? 3)%nat then Some 3%nat
                      else
                        match rest2 with
                        | [] => None
                        | b3 :: _ => if continuation b3 then Some 4%nat else None
                        end
                  end
            end
        end
  end.

(** The bytes of a string after [json.Marshal] and the decoding of the
    text; [fuel] bounds the number of runes. *)
Fixpoint json_bytes (fuel : nat) (p : list Z) : list Z :=
  match fuel with
  | O => []
  | S fuel' =>
      match p with
      | [] => []
      | _ :: rest =>
          match rune_size p with
          | None => (239 :: 191 :: 189 :: json_bytes fuel' rest)%list
          | Some n => (List.firstn n p ++ json_bytes fuel' (List.skipn n p))%list
          end
      end
  end.

Definition json_text (s : string) : string :=
  string_of_bytes (json_bytes (String.length s) (bytes_of_string s)).

(** [utf8.ValidString(s)] *)
Fixpoint valid_bytes (fuel : nat) (p : list Z) : bool :=
  match p with
  | [] => true
  | _ :: _ =>
      match fuel with
      | O => false
      | S fuel' =>
          match rune_size p with
          | None => false
          | Some n => valid_bytes fuel' (List.skipn n p)
          end
      end
  end.

Definition utf8_ValidString (s : string) : bool :=
  valid_bytes (String.length s) (bytes_of_string s).

(** How a value written by [json.Marshal] reads back into an
    [interface{}]: a number as a float64, a string as [json_text] of it, a
    slice of strings as an array of such strings, the nil slice as null. *)
Definition json_view (v : value) : value :=
  match v with
  | VString s => VString (json_text s)
  | VInt64 n => VFloat64 (float64_of_int n)
  | VStrings None => VNil
  | VStrings (Some l) => VArray ((fun s => Some (json_text s)) <$> l)
  | v => v
  end.

Definition HS256 : string := "HS256".
Definition DIRECT : string := "dir".
Definition A256GCM : string := "A256GCM".

Class GoJose := {
  JSONWebSignature : Type;
  JSONWebEncryption : Type;
  JSONWebToken : Type;
  (** [json.Marshal(m)] *)
  json_Marshal : gmap string value -> result string;
  (** [jose.NewSigner(SigningKey{alg, key}, ...)] then [signer.Sign(payload)] *)
  signer_Sign : string -> list Z -> string -> result JSONWebSignature;
  jws_CompactSerialize : JSONWebSignature -> result string;
  (** [jose.NewEncrypter(enc, Recipient{alg, key}, nil)] then
      [encrypter.Encrypt(plaintext)], which draws a fresh [nonce] *)
  encrypter_Encrypt : string -> string -> list Z -> string -> string -> result JSONWebEncryption;
  jwe_CompactSerialize : JSONWebEncryption -> result string;
  (** [jose.ParseEncrypted(s, keyAlgorithms, contentEncryptions)] *)
  jose_ParseEncrypted : string -> list string -> list string -> result JSONWebEncryption;
  (** [object.Decrypt(key)] *)
  jwe_Decrypt : JSONWebEncryption -> list Z -> result string;
  (** [jwt.ParseSigned(s, signatureAlgorithms)] *)
  jwt_ParseSigned : string -> list string -> result JSONWebToken;
  (** [token.Claims(key, &rawClaims)]: verify, then decode the payload *)
  jwt_Claims : JSONWebToken -> list Z -> result (gmap string value)
}.

(** The contract of the library the service relies on: with the algorithms
    of the service, marshalling and signing succeed, encryption under a
    256-bit key succeeds, what was encrypted under a key decrypts under it,
    and the claims of a signed payload verify under the signing key and
    read back as [json_view] of what was marshalled. *)
Class GoJoseLaws (J : GoJose) : Prop := {
  law_marshal : forall m, exists p, json_Marshal m = Ok p;
  law_sign : forall k p, exists j s,
      signer_Sign HS256 k p = Ok j /\ jws_CompactSerialize j = Ok s;
  law_encrypt : forall k nonce m, List.length k = 32%nat -> exists e s,
      encrypter_Encrypt A256GCM DIRECT k nonce m = Ok e /\ jwe_CompactSerialize e = Ok s;
  law_decrypt : forall k nonce m e s,
      encrypter_Encrypt A256GCM DIRECT k nonce m = Ok e ->
      jwe_CompactSerialize e = Ok s ->
      exists e', jose_ParseEncrypted s [DIRECT] [A256GCM] = Ok e' /\ jwe_Decrypt e' k = Ok m;
  law_verify : forall k m p j s,
      json_Marshal m = Ok p ->
      signer_Sign HS256 k p = Ok j ->
      jws_CompactSerialize j = Ok s ->
      exists t, jwt_ParseSigned s [HS256] = Ok t /\ jwt_Claims t k = Ok (json_view <$> m)
}.

Module JWETokenService.
Record t := mk {
  encryptionKey : list Z;
  signingKey : list Z;
  issuer : string;
  audience : option (list string)
}.
End JWETokenService.

(** The run-time system decides the capacity of the byte slice a string is
    converted to: [spare n] are the bytes of the backing array that follow
    the [n] bytes of the string. *)
Record Runtime := { spare : nat -> list Z }.

(** The language guarantees no capacity beyond the length. *)
Definition exact_fit : Runtime := {| spare := fun _ => [] |}.

(** [[]byte(s)[:hi]]: in range up to the capacity of the slice. *)
Definition bytes_slice_to (rt : Runtime) (s : string) (hi : nat) : outcome (list Z) :=
  let b := bytes_of_string s in
  let backing := (b ++ spare rt (List.length b))%list in
  if (hi <=? List.length backing)%nat then Returned (List.firstn hi backing)
  else Panicked "runtime error: slice bounds out of range".

(** [copy(dst, src)]: the value of [dst] afterwards. *)
Definition copy (dst src : list Z) : list Z :=
  let n := Nat.min (List.length dst) (List.length src) in
  (List.firstn n src ++ List.skipn n dst)%list.

(** [make([]byte, n)]. *)
Definition make_bytes (n : nat) : list Z := List.repeat 0 n.

Definition NewJWETokenService (rt : Runtime) (secretKey issuer : string)
    (audience : option (list string)) : outcome JWETokenService.t :=
  let encKey := make_bytes 32 in
  let sigKey := make_bytes 32 in
  match bytes_slice_to rt (secretKey +:+ "_enc") 32 with
  | Panicked msg => Panicked msg
  | Returned enc =>
      let encKey := copy encKey enc in
      match bytes_slice_to rt (secretKey +:+ "_sig") 32 with
      | Panicked msg => Panicked msg
      | Returned sig =>
          let sigKey := copy sigKey sig in
          Returned (JWETokenService.mk encKey sigKey issuer audience)
      end
  end.

Section TokenService.

Context {J : GoJose}.

(** The claim map of [createEncryptedToken]; [scope] only when not empty. *)
Definition customClaims (claims : Claims.t) : gmap string value :=
  let m : gmap string value :=
    <["aud" := VStrings (Claims.Audience claims)]>
    (<["iss" := VString (Claims.Issuer claims)]>
    (<["sub" := VString (Claims.Subject claims)]>
    (<["nbf" := VInt64 (Unix (Claims.NotBefore claims))]>
    (<["iat" := VInt64 (Unix (Claims.IssuedAt claims))]>
    (<["exp" := VInt64 (Unix (Claims.ExpiresAt claims))]>
    (<["name" := VString (Claims.Name claims)]>
    (<["email" := VString (Claims.Email claims)]> ∅))))))) in
  if negb (String.eqb (Claims.Scope claims) "")
  then <["scope" := VString (Claims.Scope claims)]> m
  else m.

Definition createEncryptedToken (s : JWETokenService.t) (nonce : string) (claims : Claims.t)
    : result string :=
  match json_Marshal (customClaims claims) with
  | Err e => Err ("failed to marshal claims: " +:+ e)
  | Ok claimsBytes =>
      match signer_Sign HS256 (JWETokenService.signingKey s) claimsBytes with
      | Err e => Err ("failed to sign token: " +:+ e)
      | Ok signedToken =>
          match jws_CompactSerialize signedToken with
          | Err e => Err ("failed to serialize signed token: " +:+ e)
          | Ok serializedJWT =>
              match encrypter_Encrypt A256GCM DIRECT (JWETokenService.encryptionKey s)
                      nonce serializedJWT with
              | Err e => Err ("failed to encrypt token: " +:+ e)
              | Ok encrypted =>
                  match jwe_CompactSerialize encrypted with
                  | Err e => Err ("failed to serialize encrypted token: " +:+ e)
                  | Ok encryptedToken => Ok encryptedToken
                  end
              end
          end
      end
  end.

(** What a call of [GenerateTokenPair] observes: the context, the clock and
    the two nonces drawn by the encrypter. *)
Record MintWorld := {
  mw_ctx_Err : option error;
  mw_Now : Time;
  mw_nonce_access : string;
  mw_nonce_refresh : string
}.

Definition accessClaims (s : JWETokenService.t) (now : Time) (userID email name : string)
    : Claims.t :=
  Claims.mk userID (JWETokenService.issuer s) (JWETokenService.audience s)
    (Add now (24 * Hour)) now now email name "openid profile email".

Definition refreshClaims (s : JWETokenService.t) (now : Time) (userID email name : string)
    : Claims.t :=
  Claims.mk userID (JWETokenService.issuer s) (JWETokenService.audience s)
    (Add now (7 * 24 * Hour)) now now email name "".

Definition GenerateTokenPair (s : JWETokenService.t) (w : MintWorld)
    (userID email name : string) : result TokenPair.t :=
  match mw_ctx_Err w with
  | Some e => Err e
  | None =>
      let now := mw_Now w in
      match createEncryptedToken s (mw_nonce_access w) (accessClaims s now userID email name) with
      | Err e => Err ("failed to create access token: " +:+ e)
      | Ok accessToken =>
          match createEncryptedToken s (mw_nonce_refresh w)
                  (refreshClaims s now userID email name) with
          | Err e => Err ("failed to create refresh token: " +:+ e)
          | Ok refreshToken =>
              Ok (TokenPair.mk accessToken refreshToken "" "Bearer" 86400 "openid profile email")
          end
      end
  end.

(** The typed claims read out of the raw map; a key that is missing or of
    another dynamic type leaves the zero value of its field. *)
Definition raw_string (raw : gmap string value) (k : string) : string :=
  match raw !! k with Some (VString v) => v | _ => "" end.

Definition raw_time (raw : gmap string value) (k : string) : Time :=
  match raw !! k with
  | Some (VFloat64 x) => time_Unix (int64_of_float64 x)
  | _ => zeroTime
  end.

Definition raw_audience (raw : gmap string value) : option (list string) :=
  match raw !! "aud" with
  | Some (VString v) => Some [v]
  | Some (VArray v) =>
      Some ((fun a : option string => match a with Some x => x | None => "" end) <$> v)
  | _ => None
  end.

Definition claims_of_raw (rawClaims : gmap string value) : Claims.t :=
  Claims.mk (raw_string rawClaims "sub") (raw_string rawClaims "iss")
    (raw_audience rawClaims)
    (raw_time rawClaims "exp") (raw_time rawClaims "iat") (raw_time rawClaims "nbf")
    (raw_string rawClaims "email") (raw_string rawClaims "name")
    (raw_string rawClaims "scope").

(** What a call of [ValidateToken] observes: the context and the clock at
    the expiry check and at the not-before check. *)
Record ValidateWorld := {
  vw_ctx_Err : option error;
  vw_Now_exp : Time;
  vw_Now_nbf : Time
}.

Definition ValidateToken (s : JWETokenService.t) (w : ValidateWorld) (tokenString : string)
    : result Claims.t :=
  match vw_ctx_Err w with
  | Some e => Err e
  | None =>
      match jose_ParseEncrypted tokenString [DIRECT] [A256GCM] with
      | Err e => Err ("failed to parse JWE token: " +:+ e)
      | Ok object =>
          match jwe_Decrypt object (JWETokenService.encryptionKey s) with
          | Err e => Err ("failed to decrypt token: " +:+ e)
          | Ok decrypted =>
              match jwt_ParseSigned decrypted [HS256] with
              | Err e => Err ("failed to parse decrypted JWT: " +:+ e)
              | Ok token =>
                  match jwt_Claims token (JWETokenService.signingKey s) with
                  | Err e => Err ("failed to verify token signature: " +:+ e)
                  | Ok rawClaims =>
                      let claims := claims_of_raw rawClaims in
                      if After (vw_Now_exp w) (Claims.ExpiresAt claims)
                      then Err "token has expired"
                      else if Before (vw_Now_nbf w) (Claims.NotBefore claims)
                      then Err "token not yet valid"
                      else Ok claims
                  end
              end
          end
      end
  end.

Definition RefreshToken (s : JWETokenService.t) (vw : ValidateWorld) (mw : MintWorld)
    (refreshToken : string) : result TokenPair.t :=
  match vw_ctx_Err vw with
  | Some e => Err e
  | None =>
      match ValidateToken s vw refreshToken with
      | Err e => Err ("invalid refresh token: " +:+ e)
      | Ok claims =>
          GenerateTokenPair s mw (Claims.Subject claims) (Claims.Email claims)
            (Claims.Name claims)
      end
  end.

End TokenService.

(** ** Configuration and start-up ([config.LoadConfig], [container]) *)

Module Config.
Record t := mk {
  ServerAddress : string;
  JWESecret : string;
  Issuer : string;
  Domain : string
}.
End Config.

(** [os.Getenv]: the empty string for an unset variable. *)
Definition Getenv (env : gmap string string) (key : string) : string :=
  default "" (env !! key).

Definition orDefault (v d : string) : string := if String.eqb v "" then d else v.

Definition LoadConfig (env : gmap string string) : result Config.t :=
  let addr := orDefault (Getenv env "SERVER_ADDRESS") ":8080" in
  let jweSecret := Getenv env "JWE_SECRET" in
  if String.eqb jweSecret "" then Err "JWE_SECRET is required"
  else
    let issuer := orDefault (Getenv env "ISSUER") "auth0-server" in
    let domain := orDefault (Getenv env "DOMAIN") "localhost:8080" in
    Ok (Config.mk addr jweSecret issuer domain).

(** How start-up ends as far as the token service goes: the configuration
    is refused with an error, the constructor panics, or the service is
    constructed.  The other steps of [NewContainer] (the infrastructure
    before, the repositories and the rest after) are outside this
    definition: [Started] says that the token service was constructed, not
    that the server is up. *)
Inductive startup_result : Type :=
| ConfigError (e : error)
| Crashed (msg : string)
| Started (svc : JWETokenService.t).

(** [LoadConfig], then [initializeServices] of the container. *)
Definition startup (rt : Runtime) (env : gmap string string) : startup_result :=
  match LoadConfig env with
  | Err e => ConfigError ("failed to load base config: " +:+ e)
  | Ok cfg =>
      match NewJWETokenService rt (Config.JWESecret cfg) (Config.Issuer cfg)
              (Some ["auth0-server"]) with
      | Panicked msg => Crashed msg
      | Returned svc => Started svc
      end
  end.

(** *** A reference implementation of the library interface

    Compact serialisations are the binary numerals of stdpp's countable
    encoding; a signature or a ciphertext opens under the key it was made
    with.  It shows that the contract [GoJoseLaws] can be met. *)

Module ToyJose.

Fixpoint pos_to_string (p : positive) : string :=
  match p with
  | xH => ""
  | xO q => String "0" (pos_to_string q)
  | xI q => String "1" (pos_to_string q)
  end.

Fixpoint string_to_pos (s : string) : option positive :=
  match s with
  | EmptyString => Some xH
  | String c r =>
      if Ascii.eqb c "0" then xO <$> string_to_pos r
      else if Ascii.eqb c "1" then xI <$> string_to_pos r
      else None
  end.

Definition pack {A} `{Countable A} (a : A) : string := pos_to_string (encode a).

Definition unpack {A} `{Countable A} (s : string) : option A :=
  string_to_pos s ≫= decode.

Arguments pack : simpl never.
Arguments unpack : simpl never.

Definition value_to_sum (v : value)
    : string + (Z + (Z + (option (list string) + (list (option string) + bool)))) :=
  match v with
  | VString s => inl s
  | VInt64 n => inr (inl n)
  | VFloat64 x => inr (inr (inl x))
  | VStrings l => inr (inr (inr (inl l)))
  | VArray l => inr (inr (inr (inr (inl l))))
  | VNil => inr (inr (inr (inr (inr true))))
  | VOther => inr (inr (inr (inr (inr false))))
  end.

Definition value_of_sum
    (x : string + (Z + (Z + (option (list string) + (list (option string) + bool))))) : value :=
  match x with
  | inl s => VString s
  | inr (inl n) => VInt64 n
  | inr (inr (inl x)) => VFloat64 x
  | inr (inr (inr (inl l))) => VStrings l
  | inr (inr (inr (inr (inl l)))) => VArray l
  | inr (inr (inr (inr (inr true)))) => VNil
  | inr (inr (inr (inr (inr false)))) => VOther
  end.

#[global] Instance value_eq_dec : EqDecision value.
Proof. solve_decision. Defined.

#[global] Instance value_countable : Countable value.
Proof.
  apply (inj_countable' value_to_sum value_of_sum). intros []; reflexivity.
Defined.

Definition Signed : Type := string * list Z * string.             (* alg, key, payload *)
Definition Encrypted : Type := string * string * list Z * string * string.
                                                 (* enc, alg, key, nonce, plaintext *)

Definition parse_encrypted (s : string) (algs encs : list string) : result Encrypted :=
  match unpack s with
  | Some (enc, alg, k, nonce, m) =>
      if bool_decide (alg ∈ algs) && bool_decide (enc ∈ encs)
      then Ok (enc, alg, k, nonce, m)
      else Err "go-jose/go-jose: unexpected key algorithm"
  | None => Err "go-jose/go-jose: compact JWE format must have five parts"
  end.

Definition decrypt (e : Encrypted) (key : list Z) : result string :=
  let '(_, _, k, _, m) := e in
  if bool_decide (k = key) then Ok m
  else Err "go-jose/go-jose: error in cryptographic primitive".

Definition parse_signed (s : string) (algs : list string) : result Signed :=
  match unpack s with
  | Some (alg, k, p) =>
      if bool_decide (alg ∈ algs) then Ok (alg, k, p)
      else Err "go-jose/go-jose: unexpected signature algorithm"
  | None => Err "go-jose/go-jose: compact JWS format must have three parts"
  end.

Definition claims (t : Signed) (key : list Z) : result (gmap string value) :=
  let '(_, k, p) := t in
  if bool_decide (k = key) then
    match unpack p with
    | Some m => Ok (json_view <$> (m : gmap string value))
    | None => Err "invalid character looking for beginning of value"
    end
  else Err "go-jose/go-jose: error in cryptographic primitive".

#[global] Instance jose : GoJose := {|
  JSONWebSignature := Signed;
  JSONWebEncryption := Encrypted;
  JSONWebToken := Signed;
  json_Marshal m := Ok (pack m);
  signer_Sign alg k p := Ok (alg, k, p);
  jws_CompactSerialize j := Ok (pack j);
  encrypter_Encrypt enc alg k nonce m := Ok (enc, alg, k, nonce, m);
  jwe_CompactSerialize e := Ok (pack e);
  jose_ParseEncrypted := parse_encrypted;
  jwe_Decrypt := decrypt;
  jwt_ParseSigned := parse_signed;
  jwt_Claims := claims
|}.

(** The service, the clocks and the user of the examples. *)
Definition service : JWETokenService.t :=
  JWETokenService.mk (List.repeat 1 32) (List.repeat 2 32) "auth0-server"
    (Some ["auth0-server"]).

Definition minting : MintWorld :=
  {| mw_ctx_Err := None; mw_Now := 1700000000 * Second + 123456789;
     mw_nonce_access := "n1"; mw_nonce_refresh := "n2" |}.

Definition validating (seconds_later : Z) : ValidateWorld :=
  {| vw_ctx_Err := None;
     vw_Now_exp := mw_Now minting + seconds_later * Second;
     vw_Now_nbf := mw_Now minting + seconds_later * Second + 1 |}.

(** A name that is not valid UTF-8: the bytes 41 FF 42. *)
Definition broken_name : string := string_of_bytes [65; 255; 66].

End ToyJose.

(** A run-time system whose allocations leave room up to 32 bytes, zeroed. *)
Definition roomy : Runtime := {| spare := fun n => List.repeat 0 (32 - n) |}.

(** ** Application errors ([pkg/errors]) *)

Module AppError.
Record t := mk { Code : string; Message : string }.
Definition WithMessage (e : t) (message : string) : t := mk (Code e) message.
End AppError.

Definition ErrInvalidRequest := AppError.mk "invalid_request" "The request is invalid".
Definition ErrInvalidGrant := AppError.mk "invalid_grant" "Invalid credentials".
Definition ErrUnsupportedGrantType :=
  AppError.mk "unsupported_grant_type" "Grant type not supported".
Definition ErrUnauthorized := AppError.mk "unauthorized" "Authentication required".
Definition ErrMethodNotAllowed := AppError.mk "method_not_allowed" "Method not allowed".
Definition ErrUserExists := AppError.mk "account_exists" "Account already exists".
Definition ErrInternalServerError := AppError.mk "server_error" "Internal server error".

(** ** [net/http]: requests and the response writer *)

(** A field of a JSON object written by a handler. *)
Inductive field : Type :=
| FString (s : string)
| FBool (b : bool)
| FTime (t : Time).

(** What a handler writes to the body. *)
Inductive body_part : Type :=
| JSONObject (fields : gmap string field)
| LoginForm (clientID redirectURI state scope codeChallenge codeChallengeMethod : string)
| Anchor (url : string).

Module ResponseWriter.
Record t := mk {
  Header : gmap string string;
  Status : option Z;               (* [None] until the header is written *)
  Body : list body_part
}.
Definition fresh : t := mk ∅ None [].
Definition Header_Set (k v : string) (w : t) : t :=
  mk (<[k := v]> (Header w)) (Status w) (Body w).
(** [w.WriteHeader(code)]: only the first call counts. *)
Definition WriteHeader (code : Z) (w : t) : t :=
  match Status w with
  | None => mk (Header w) (Some code) (Body w)
  | Some _ => w
  end.
(** Writing the body writes the header with 200 if it is not written yet. *)
Definition Write (b : body_part) (w : t) : t :=
  let w' := WriteHeader 200 w in
  mk (Header w') (Status w') (Body w' ++ [b])%list.
End ResponseWriter.

Module Request.
Record t := mk {
  Method : string;
  Path : string;                       (* r.URL.Path *)
  Query : gmap string string;          (* r.URL.Query() *)
  PostForm : gmap string string        (* the parsed form body *)
}.
(** [r.URL.Query().Get(k)] *)
Definition Query_Get (r : t) (k : string) : string := default "" (Query r !! k).
(** [r.FormValue(k)]: the body takes precedence over the query. *)
Definition FormValue (r : t) (k : string) : string :=
  match PostForm r !! k with
  | Some v => v
  | None => Query_Get r k
  end.
End Request.

Definition StatusOK : Z := 200.
Definition StatusCreated : Z := 201.
Definition StatusFound : Z := 302.
Definition StatusBadRequest : Z := 400.
Definition StatusConflict : Z := 409.
Definition StatusMethodNotAllowed : Z := 405.
Definition StatusInternalServerError : Z := 500.

Definition nil_dereference : string :=
  "runtime error: invalid memory address or nil pointer dereference".

(** The parts of [net/url] that [http.Redirect] uses: whether the target
    parses to a URL without scheme and host, and the value of the Location
    header for a request path and a target (made absolute when relative,
    non-ASCII bytes escaped). *)
Class NetURL := {
  url_relative : string -> bool;
  redirect_location : string -> string -> string
}.

(** [http.Redirect(w, r, url, code)] of net/http.  The function reads
    [r.URL.Path] when the target is relative and [r.Method] when the
    response has no Content-Type yet; with a nil request either read is a
    nil-pointer dereference. *)
Definition http_Redirect {U : NetURL} (w : ResponseWriter.t) (r : option Request.t)
    (url : string) (code : Z) : outcome ResponseWriter.t :=
  let hadCT := bool_decide (is_Some (ResponseWriter.Header w !! "Content-Type")) in
  match r with
  | None =>
      if url_relative url then Panicked nil_dereference
      else if hadCT
      then Returned (ResponseWriter.WriteHeader code
                       (ResponseWriter.Header_Set "Location" (redirect_location "" url) w))
      else Panicked nil_dereference
  | Some req =>
      let m := Request.Method req in
      let w1 := ResponseWriter.Header_Set "Location"
                  (redirect_location (Request.Path req) url) w in
      let w2 := if negb hadCT && (String.eqb m "GET" || String.eqb m "HEAD")
                then ResponseWriter.Header_Set "Content-Type" "text/html; charset=utf-8" w1
                else w1 in
      let w3 := ResponseWriter.WriteHeader code w2 in
      Returned (if negb hadCT && String.eqb m "GET"
                then ResponseWriter.Write (Anchor url) w3 else w3)
  end.

(** ** The handlers' helpers ([handlers.AuthHandler]) *)

Definition sendJSON (w : ResponseWriter.t) (data : gmap string field) (statusCode : Z)
    : ResponseWriter.t :=
  ResponseWriter.Write (JSONObject data)
    (ResponseWriter.WriteHeader statusCode
       (ResponseWriter.Header_Set "Content-Type" "application/json" w)).

Definition error_object (code description : string) : gmap string field :=
  <["error_description" := FString description]> (<["error" := FString code]> ∅).

Definition sendError (w : ResponseWriter.t) (err : AppError.t) (statusCode : Z)
    : ResponseWriter.t :=
  ResponseWriter.Write (JSONObject (error_object (AppError.Code err) (AppError.Message err)))
    (ResponseWriter.WriteHeader statusCode
       (ResponseWriter.Header_Set "Content-Type" "application/json" w)).

(** The URL [sendAuthorizationError] builds for the redirect. *)
Definition authorizationErrorURL (redirectURI errorCode errorDescription state : string)
    : string :=
  let redirectURL :=
    redirectURI +:+ "?error=" +:+ errorCode +:+ "&error_description=" +:+ errorDescription in
  if negb (String.eqb state "") then redirectURL +:+ "&state=" +:+ state else redirectURL.

Definition sendAuthorizationError {U : NetURL} (w : ResponseWriter.t)
    (redirectURI errorCode errorDescription state : string) : outcome ResponseWriter.t :=
  if String.eqb redirectURI "" then
    Returned
      (ResponseWriter.Write (JSONObject (error_object errorCode errorDescription))
         (ResponseWriter.WriteHeader StatusBadRequest
            (ResponseWriter.Header_Set "Content-Type" "application/json" w)))
  else
    http_Redirect w None
      (authorizationErrorURL redirectURI errorCode errorDescription state) StatusFound.

Definition renderLoginForm (w : ResponseWriter.t)
    (clientID redirectURI state scope codeChallenge codeChallengeMethod : string)
    : ResponseWriter.t :=
  ResponseWriter.Write
    (LoginForm clientID redirectURI state scope codeChallenge codeChallengeMethod)
    (ResponseWriter.WriteHeader StatusOK
       (ResponseWriter.Header_Set "Content-Type" "text/html" w)).

(** The validation of [AuthorizeHandler]: the error code and description of
    the first check that fails, if any. *)
Definition authorize_rejection (r : Request.t) : option (string * string) :=
  let responseType := Request.Query_Get r "response_type" in
  let clientID := Request.Query_Get r "client_id" in
  let redirectURI := Request.Query_Get r "redirect_uri" in
  let codeChallenge := Request.Query_Get r "code_challenge" in
  let codeChallengeMethod := Request.Query_Get r "code_challenge_method" in
  if negb (String.eqb responseType "code")
  then Some ("unsupported_response_type", "Only 'code' response type is supported")
  else if String.eqb clientID "" || String.eqb redirectURI "" || String.eqb codeChallenge ""
  then Some ("invalid_request", "client_id, redirect_uri, and code_challenge are required")
  else if negb (String.eqb codeChallengeMethod "S256")
  then Some ("invalid_request", "code_challenge_method must be S256")
  else None.

Definition AuthorizeHandler {U : NetURL} (iw : IssueWorld)
    (codes : gmap string AuthorizationCode.t) (w : ResponseWriter.t) (r : Request.t)
    : outcome ResponseWriter.t * gmap string AuthorizationCode.t :=
  if negb (String.eqb (Request.Method r) "GET") && negb (String.eqb (Request.Method r) "POST")
  then (Returned (sendError w ErrMethodNotAllowed StatusMethodNotAllowed), codes)
  else
    let clientID := Request.Query_Get r "client_id" in
    let redirectURI := Request.Query_Get r "redirect_uri" in
    let state := Request.Query_Get r "state" in
    let scope := Request.Query_Get r "scope" in
    let codeChallenge := Request.Query_Get r "code_challenge" in
    let codeChallengeMethod := Request.Query_Get r "code_challenge_method" in
    match authorize_rejection r with
    | Some (errorCode, errorDescription) =>
        (sendAuthorizationError w redirectURI errorCode errorDescription state, codes)
    | None =>
        let form := renderLoginForm w clientID redirectURI state scope codeChallenge
                      codeChallengeMethod in
        if String.eqb (Request.Method r) "GET" then (Returned form, codes)
        else
          let email := Request.FormValue r "email" in
          let password := Request.FormValue r "password" in
          if String.eqb email "" || String.eqb password "" then (Returned form, codes)
          else
            match CreateAuthorizationCode iw codes email password clientID redirectURI scope
                    codeChallenge codeChallengeMethod with
            | (Err _, codes') => (Returned form, codes')
            | (Ok authCode, codes') =>
                let redirectURL := redirectURI +:+ "?code=" +:+ authCode in
                let redirectURL :=
                  if negb (String.eqb state "") then redirectURL +:+ "&state=" +:+ state
                  else redirectURL in
                (http_Redirect w (Some r) redirectURL StatusFound, codes')
            end
    end.

(** ** The in-memory account repository ([storage.InMemoryAccountRepository])

    [accounts map[string]*account.Account], keyed by account id.  Every
    method stores or returns a copy, so the map is a finite map to values.
    A method returns [None] for a nil error. *)

Module InMemoryAccountRepository.

Definition has_email (accounts : gmap string Account.t) (email : string) : bool :=
  List.existsb (fun a => String.eqb (Account.Email a) email)
    (snd <$> map_to_list accounts).

Definition Create (ctx_Err : option error) (accounts : gmap string Account.t)
    (acc : Account.t) : option error * gmap string Account.t :=
  match ctx_Err with
  | Some e => (Some e, accounts)
  | None =>
      match accounts !! Account.ID acc with
      | Some _ =>
          (Some ("account with ID " +:+ Account.ID acc +:+ " already exists"), accounts)
      | None =>
          if has_email accounts (Account.Email acc)
          then (Some ("account with email " +:+ Account.Email acc +:+ " already exists"),
                accounts)
          else (None, <[Account.ID acc := acc]> accounts)
      end
  end.

Definition GetByID (ctx_Err : option error) (accounts : gmap string Account.t)
    (id : string) : result Account.t :=
  match ctx_Err with
  | Some e => Err e
  | None =>
      match accounts !! id with
      | Some acc => Ok acc
      | None => Err "account not found"
      end
  end.

(** The orders in which [for _, acc := range r.accounts] may visit the
    accounts: the language leaves the order of a map iteration unspecified,
    and the run-time system varies it from one loop to the next. *)
Definition range_order (accounts : gmap string Account.t) (visited : list Account.t) : Prop :=
  Permutation visited (snd <$> map_to_list accounts).

(** [GetByEmail], given the order [visited] in which the loop meets the
    accounts: it returns the first account with the email. *)
Definition GetByEmail_visiting (ctx_Err : option error) (visited : list Account.t)
    (email : string) : result Account.t :=
  match ctx_Err with
  | Some e => Err e
  | None =>
      match List.find (fun a => String.eqb (Account.Email a) email) visited with
      | Some acc => Ok acc
      | None => Err "account not found"
      end
  end.

(** [GetByEmail] at one of the orders, the one in which the finite map lists
    its entries.  Which account a loop returns depends on the order only
    when two stored accounts share the email; [Create] never stores such a
    pair, [Update] can. *)
Definition GetByEmail (ctx_Err : option error) (accounts : gmap string Account.t)
    (email : string) : result Account.t :=
  GetByEmail_visiting ctx_Err (snd <$> map_to_list accounts) email.

(** Go's [int] addition wraps around at 64 bits. *)
Definition wrap64 (z : Z) : Z := (z + 2 ^ 63) mod 2 ^ 64 - 2 ^ 63.

(** [accounts[start:end]] on a slice of length and capacity [len]. *)
Definition slice {A} (l : list A) (start end_ : Z) : outcome (list A) :=
  if (0 <=? start) && (start <=? end_) && (end_ <=? Z.of_nat (List.length l))
  then Returned (List.firstn (Z.to_nat (end_ - start)) (List.skipn (Z.to_nat start) l))
  else Panicked "runtime error: slice bounds out of range".

(** [List], given the order [visited] in which the loop met the accounts. *)
Definition List (ctx_Err : option error) (visited : list Account.t) (limit offset : Z)
    : result (outcome (list Account.t)) :=
  match ctx_Err with
  | Some e => Err e
  | None =>
      let accounts := visited in
      let len := Z.of_nat (List.length accounts) in
      let start := if len <? offset then len else offset in
      let end_ := wrap64 (start + limit) in
      let end_ := if len <? end_ then len else end_ in
      Ok (slice accounts start end_)
  end.

(** [Update]: the record the map points to is overwritten in place, except
    for its id and its creation time; [now] is the clock of the store. *)
Definition Update (ctx_Err : option error) (now : Time) (accounts : gmap string Account.t)
    (acc : Account.t) : option error * gmap string Account.t :=
  match ctx_Err with
  | Some e => (Some e, accounts)
  | None =>
      match accounts !! Account.ID acc with
      | None => (Some "account not found", accounts)
      | Some existing =>
          (None,
           <[Account.ID acc :=
               Account.mk (Account.ID existing) (Account.Email acc) (Account.Password acc)
                 (Account.Name acc) (Account.Nickname acc) (Account.Picture acc)
                 (Account.CreatedAt existing) now (Account.Verified acc)
                 (Account.Blocked acc)]> accounts)
      end
  end.

Definition Delete (ctx_Err : option error) (accounts : gmap string Account.t) (id : string)
    : option error * gmap string Account.t :=
  match ctx_Err with
  | Some e => (Some e, accounts)
  | None =>
      match accounts !! id with
      | None => (Some "account not found", accounts)
      | Some _ => (None, delete id accounts)
      end
  end.

(** Every account is stored under its own id, and no two accounts share an
    email. *)
Definition well_formed (accounts : gmap string Account.t) : Prop :=
  (forall k a, accounts !! k = Some a -> Account.ID a = k) /\
  (forall k1 k2 a1 a2,
     accounts !! k1 = Some a1 -> accounts !! k2 = Some a2 ->
     Account.Email a1 = Account.Email a2 -> k1 = k2).

End InMemoryAccountRepository.

(** ** The account use case ([usecases.AccountUseCase]) *)

(** What the use case observes besides the repository: the context at each
    point where it is asked (in the use case, in [GetByEmail], in
    [Create]), the id generator, the password hasher and the clock read
    for the two timestamps. *)
Record AccountWorld := {
  aw_ctx_Err : option error;
  aw_ctx_Err_GetByEmail : option error;
  aw_ctx_Err_Create : option error;
  aw_Generate : result string;                  (* uc.idGenerator.Generate() *)
  aw_Hash : string -> result string;            (* uc.passwordHasher.Hash(password) *)
  aw_Now_created : Time;
  aw_Now_updated : Time
}.

Definition CreateAccount (aw : AccountWorld) (accounts : gmap string Account.t)
    (email password name : string) : result Account.t * gmap string Account.t :=
  match aw_ctx_Err aw with
  | Some e => (Err e, accounts)
  | None =>
      if String.eqb email "" then (Err "email is required", accounts)
      else if String.eqb password "" then (Err "password is required", accounts)
      else if (String.length password <? 8)%nat
      then (Err "password must be at least 8 characters", accounts)
      else
        match InMemoryAccountRepository.GetByEmail (aw_ctx_Err_GetByEmail aw) accounts email with
        | Ok _ => (Err ("account with email " +:+ email +:+ " already exists"), accounts)
        | Err _ =>
            match aw_Generate aw with
            | Err e => (Err ("failed to generate account ID: " +:+ e), accounts)
            | Ok accountID =>
                match aw_Hash aw password with
                | Err e => (Err ("failed to hash password: " +:+ e), accounts)
                | Ok hashedPassword =>
                    let newAccount :=
                      Account.mk accountID email hashedPassword name name ""
                        (aw_Now_created aw) (aw_Now_updated aw) true false in
                    match InMemoryAccountRepository.Create (aw_ctx_Err_Create aw) accounts
                            newAccount with
                    | (Some e, accounts') =>
                        (Err ("failed to create account: " +:+ e), accounts')
                    | (None, accounts') => (Ok newAccount, accounts')
                    end
                end
            end
        end
  end.

(** The limit and the offset [ListAccounts] passes on to the repository. *)
Definition effective_limit (limit : Z) : Z :=
  let limit := if limit <=? 0 then 10 else limit in
  if 100 <? limit then 100 else limit.

Definition effective_offset (offset : Z) : Z := if offset <? 0 then 0 else offset.

Definition ListAccounts (ctx_Err ctx_Err_List : option error) (visited : list Account.t)
    (limit offset : Z) : result (outcome (list Account.t)) :=
  match ctx_Err with
  | Some e => Err e
  | None =>
      InMemoryAccountRepository.List ctx_Err_List visited
        (effective_limit limit) (effective_offset offset)
  end.

(** The whole result is in created-at descending order. *)
Definition created_descending (l : list Account.t) : Prop :=
  Sorted (fun a b => Account.CreatedAt b <= Account.CreatedAt a) l.

(** ** Signup ([handlers.AuthHandler.SignupHandler]) *)

Module CreateAccountRequest.
Record t := mk { Email : string; Password : string; Name : string }.
End CreateAccountRequest.

Module SignupRequest.
Record t := mk {
  Method : string;
  (** [json.NewDecoder(r.Body).Decode(&req)] *)
  Decoded : result CreateAccountRequest.t
}.
End SignupRequest.

Definition signup_response (newAccount : Account.t) : gmap string field :=
  <["created_at" := FTime (Account.CreatedAt newAccount)]>
  (<["email_verified" := FBool (Account.Verified newAccount)]>
  (<["name" := FString (Account.Name newAccount)]>
  (<["email" := FString (Account.Email newAccount)]>
  (<["account_id" := FString (Account.ID newAccount)]> ∅)))).

Definition SignupHandler (aw : AccountWorld) (accounts : gmap string Account.t)
    (w : ResponseWriter.t) (r : SignupRequest.t)
    : ResponseWriter.t * gmap string Account.t :=
  if negb (String.eqb (SignupRequest.Method r) "POST")
  then (sendError w ErrMethodNotAllowed StatusMethodNotAllowed, accounts)
  else
    match SignupRequest.Decoded r with
    | Err _ =>
        (sendError w (AppError.WithMessage ErrInvalidRequest "Invalid JSON") StatusBadRequest,
         accounts)
    | Ok req =>
        if String.eqb (CreateAccountRequest.Email req) ""
           || String.eqb (CreateAccountRequest.Password req) ""
        then (sendError w (AppError.WithMessage ErrInvalidRequest
                             "email and password are required") StatusBadRequest, accounts)
        else
          match CreateAccount aw accounts (CreateAccountRequest.Email req)
                  (CreateAccountRequest.Password req) (CreateAccountRequest.Name req) with
          | (Err e, accounts') =>
              if Contains e "already exists"
              then (sendError w ErrUserExists StatusConflict, accounts')
              else (sendError w ErrInternalServerError StatusInternalServerError, accounts')
          | (Ok newAccount, accounts') =>
              (sendJSON w (signup_response newAccount) StatusCreated, accounts')
          end
    end.

(** The status and the error code of a response. *)
Definition status_of (w : ResponseWriter.t) : option Z := ResponseWriter.Status w.

Definition returned {A} (o : outcome A) : option A :=
  match o with Returned a => Some a | Panicked _ => None end.

Definition json_field (w : ResponseWriter.t) (k : string) : option field :=
  match ResponseWriter.Body w with
  | [JSONObject fields] => fields !! k
  | _ => None
  end.

(** The status and a field of the JSON body of a handler that returned. *)
Definition response_status (o : outcome ResponseWriter.t) : option Z :=
  returned o ≫= status_of.

Definition response_field (o : outcome ResponseWriter.t) (k : string) : option field :=
  returned o ≫= fun w => json_field w k.

(** ** The password hasher ([crypto.BcryptPasswordHasher])

    [golang.org/x/crypto/bcrypt] is kept at the level of its key schedule:
    the verifier depends on the password only through the 72 bytes that the
    Blowfish key expansion reads, cyclically, from the password followed by
    a NUL byte.  The verifier string for a cost, a salt and that key
    material, and the parser of verifier strings, are the operations of a
    class. *)

Module bcrypt.

Definition MinCost : Z := 4.
Definition MaxCost : Z := 31.
Definition DefaultCost : Z := 10.

Definition ErrMismatchedHashAndPassword : error :=
  "crypto/bcrypt: hashedPassword is not the hash of the given password".
Definition ErrPasswordTooLong : error := "bcrypt: password length exceeds 72 bytes".
Definition InvalidCostError : error := "crypto/bcrypt: cost outside allowed range (4,31)".

(** The key material: 18 words of four bytes, read cyclically from
    [password ++ [0]]. *)
Definition key_stream (password : list Z) : list Z :=
  let ckey := (password ++ [0])%list in
  (fun i => List.nth (i mod List.length ckey) ckey 0) <$> List.seq 0 72.

Class Digest := {
  (** the verifier ["$2a$<cost>$<salt><digest>"] *)
  hash_string : Z -> list Z -> list Z -> string;
  (** [newFromHash]: the cost and the salt of a well-formed verifier *)
  parse_hash : string -> result (Z * list Z)
}.

(** A verifier made with a cost in range and a salt of 16 bytes parses back
    to that cost and salt, and no verifier is empty.  Nothing is assumed
    about which key materials give the same verifier. *)
Class DigestLaws (D : Digest) : Prop := {
  parse_hash_string : forall c s k,
    MinCost <= c <= MaxCost -> List.length s = 16%nat ->
    parse_hash (hash_string c s k) = Ok (c, s);
  hash_string_nonempty : forall c s k, hash_string c s k <> ""
}.

(** [GenerateFromPassword(password, cost)] with the salt it draws. *)
Definition GenerateFromPassword {D : Digest} (password : list Z) (cost : Z) (salt : list Z)
    : result string :=
  if (72 <? List.length password)%nat then Err ErrPasswordTooLong
  else
    let cost := if cost <? MinCost then DefaultCost else cost in
    if MaxCost <? cost then Err InvalidCostError
    else Ok (hash_string cost salt (key_stream password)).

(** [CompareHashAndPassword(hashedPassword, password)]; [None] is nil. *)
Definition CompareHashAndPassword {D : Digest} (hashedPassword : string) (password : list Z)
    : option error :=
  match parse_hash hashedPassword with
  | Err e => Some e
  | Ok (cost, salt) =>
      if String.eqb (hash_string cost salt (key_stream password)) hashedPassword
      then None
      else Some ErrMismatchedHashAndPassword
  end.

End bcrypt.

Module BcryptPasswordHasher.

Record t := mk { cost : Z }.

Definition New (cost : Z) : t :=
  if (cost <? bcrypt.MinCost) || (bcrypt.MaxCost <? cost) then mk bcrypt.DefaultCost
  else mk cost.

Definition Hash {D : bcrypt.Digest} (h : t) (salt : list Z) (password : string)
    : result string :=
  if (String.length password =? 0)%nat then Err "password cannot be empty"
  else
    match bcrypt.GenerateFromPassword (bytes_of_string password) (cost h) salt with
    | Err e => Err ("failed to hash password: " +:+ e)
    | Ok hash => Ok hash
    end.

Definition Compare {D : bcrypt.Digest} (h : t) (hashedPassword password : string)
    : option error :=
  if (String.length password =? 0)%nat || (String.length hashedPassword =? 0)%nat
  then Some "password and hash cannot be empty"
  else
    match bcrypt.CompareHashAndPassword hashedPassword (bytes_of_string password) with
    | Some _ => Some "invalid password"
    | None => None
    end.

End BcryptPasswordHasher.

(** A password without NUL bytes. *)
Definition NUL_free (password : string) : Prop :=
  List.Forall (fun b => b <> 0) (bytes_of_string password).

(** *** A reference digest: the verifier spells out its three inputs *)

Module ToyDigest.

Definition hash_string (cost : Z) (salt key : list Z) : string :=
  "$2a$" +:+ ToyJose.pack (cost, salt, key).

Definition parse_hash (hashed : string) : result (Z * list Z) :=
  match hashed with
  | String "$" (String "2" (String "a" (String "$" rest))) =>
      match ToyJose.unpack rest with
      | Some (cost, salt, key) => Ok (cost, salt, (key : list Z)).1
      | None => Err "crypto/bcrypt: hashedSecret too short to be a bcrypted password"
      end
  | _ => Err "crypto/bcrypt: bcrypt hashes must start with '$'"
  end.

#[global] Instance digest : bcrypt.Digest :=
  {| bcrypt.hash_string := hash_string; bcrypt.parse_hash := parse_hash |}.

Definition salt : list Z := List.repeat 5 16.

Definition hasher : BcryptPasswordHasher.t := BcryptPasswordHasher.New 10.

(** Two passwords that agree on their first 72 bytes. *)
Definition long_password : string := string_of_bytes (List.repeat 97 72).
Definition longer_password : string := string_of_bytes (List.repeat 97 73).

End ToyDigest.

(** *** Requests and stores used in the examples *)

Module Examples.

(** An authorization request for the implicit flow, with a redirect URI. *)
Definition implicit_request : Request.t :=
  Request.mk "GET" "/authorize"
    (<["response_type" := "token"]> (<["client_id" := "c1"]>
     (<["redirect_uri" := "https://x/cb"]> (<["state" := "s1"]>
     (<["code_challenge" := Scenario.challenge]>
     (<["code_challenge_method" := "S256"]> ∅))))))
    ∅.

(** The same request without a redirect URI. *)
Definition implicit_request_no_uri : Request.t :=
  Request.mk "GET" "/authorize"
    (<["response_type" := "token"]> (<["client_id" := "c1"]> (<["state" := "s1"]> ∅)))
    ∅.

(** A world for the account use case: live context, a fixed id, a hasher
    that accepts every non-empty password. *)
Definition account_world : AccountWorld :=
  {| aw_ctx_Err := None; aw_ctx_Err_GetByEmail := None; aw_ctx_Err_Create := None;
     aw_Generate := Ok "00112233445566778899aabbccddeeff";
     aw_Hash := fun p => if String.eqb p "" then Err "password cannot be empty"
                         else Ok ("$2a$10$" +:+ p);
     aw_Now_created := 1700000000 * Second;
     aw_Now_updated := 1700000000 * Second + 5 |}.

(** The same world with the bcrypt hasher over the reference digest. *)
Definition bcrypt_world : AccountWorld :=
  {| aw_ctx_Err := None; aw_ctx_Err_GetByEmail := None; aw_ctx_Err_Create := None;
     aw_Generate := aw_Generate account_world;
     aw_Hash := BcryptPasswordHasher.Hash ToyDigest.hasher ToyDigest.salt;
     aw_Now_created := aw_Now_created account_world;
     aw_Now_updated := aw_Now_updated account_world |}.

Definition signup (email password name : string) : SignupRequest.t :=
  SignupRequest.mk "POST" (Ok (CreateAccountRequest.mk email password name)).

Definition older : Account.t :=
  Account.mk "id-1" "old@x" "$2a$10$h1" "Old" "Old" "" (100 * Second) (100 * Second) true false.

Definition newer : Account.t :=
  Account.mk "id-2" "new@x" "$2a$10$h2" "New" "New" "" (200 * Second) (200 * Second) true false.

Definition two_accounts : gmap string Account.t :=
  <["id-2" := newer]> (<["id-1" := older]> ∅).

End Examples.

(** ** The account use case, continued ([usecases.AccountUseCase])

    [Compare] stands for [uc.passwordHasher.Compare]; the context is asked
    once by the use case and once by the repository. *)

Module AccountUseCase.

Definition GetAccount (ctx_Err ctx_Err_repo : option error)
    (accounts : gmap string Account.t) (id : string) : result Account.t :=
  match ctx_Err with
  | Some e => Err e
  | None =>
      if String.eqb id "" then Err "account ID is required"
      else InMemoryAccountRepository.GetByID ctx_Err_repo accounts id
  end.

Definition GetAccountByEmail (ctx_Err ctx_Err_repo : option error)
    (accounts : gmap string Account.t) (email : string) : result Account.t :=
  match ctx_Err with
  | Some e => Err e
  | None =>
      if String.eqb email "" then Err "email is required"
      else InMemoryAccountRepository.GetByEmail ctx_Err_repo accounts email
  end.

Definition ValidateCredentials (ctx_Err ctx_Err_repo : option error)
    (Compare : string -> string -> option error)
    (accounts : gmap string Account.t) (email password : string) : result Account.t :=
  match ctx_Err with
  | Some e => Err e
  | None =>
      if String.eqb email "" || String.eqb password ""
      then Err "email and password are required"
      else
        match InMemoryAccountRepository.GetByEmail ctx_Err_repo accounts email with
        | Err _ => Err "invalid credentials"
        | Ok acc =>
            if Account.Blocked acc then Err "account is blocked"
            else
              match Compare (Account.Password acc) password with
              | Some _ => Err "invalid credentials"
              | None => Ok acc
              end
        end
  end.

(** [acc] is [None] for a nil pointer.  The use case stamps the caller's
    record with its own clock; the repository stamps the stored record. *)
Definition UpdateAccount (ctx_Err ctx_Err_repo : option error) (now_repo : Time)
    (accounts : gmap string Account.t) (acc : option Account.t)
    : option error * gmap string Account.t :=
  match ctx_Err with
  | Some e => (Some e, accounts)
  | None =>
      match acc with
      | None => (Some "account is required", accounts)
      | Some acc =>
          if String.eqb (Account.ID acc) "" then (Some "account ID is required", accounts)
          else InMemoryAccountRepository.Update ctx_Err_repo now_repo accounts acc
      end
  end.

Definition VerifyPassword (Compare : string -> string -> option error)
    (hashedPassword password : string) : bool :=
  match Compare hashedPassword password with None => true | Some _ => false end.

End AccountUseCase.

(** The world of [CreateAuthorizationCode] when the account use case runs
    over the store [accounts] with the hasher [Compare]. *)
Definition issue_world_of (ctx_Err ctx_Err_uc ctx_Err_repo : option error)
    (Compare : string -> string -> option error) (accounts : gmap string Account.t)
    (rand : result (list Z)) (now : Time) : IssueWorld :=
  {| iw_ctx_Err := ctx_Err;
     iw_GetAccountByEmail := AccountUseCase.GetAccountByEmail ctx_Err_uc ctx_Err_repo accounts;
     iw_VerifyPassword := AccountUseCase.VerifyPassword Compare;
     iw_rand_Read := rand;
     iw_Now := now |}.

(** A sequential run of account creations against one store. *)
Record CreateCall := {
  cc_world : AccountWorld;
  cc_email : string;
  cc_password : string;
  cc_name : string
}.

Definition run_creations (accounts : gmap string Account.t) (calls : list CreateCall)
    : gmap string Account.t :=
  List.fold_left
    (fun acc c => snd (CreateAccount (cc_world c) acc (cc_email c) (cc_password c) (cc_name c)))
    calls accounts.

(** ** The authentication use case, continued ([usecases.AuthUseCase]) *)

Module AccountProfile.
Record t := mk {
  ID : string;
  Email : string;
  EmailVerified : bool;
  Name : string;
  Nickname : string;
  Picture : string
}.
End AccountProfile.

(** What [GetAccountProfile] observes: the context at each point where it
    is asked and the token service. *)
Record ProfileWorld := {
  pw_ctx_Err : option error;
  pw_ctx_Err_ValidateToken : option error;
  pw_ValidateToken : string -> result Claims.t;      (* uc.tokenService.ValidateToken *)
  pw_ctx_Err_GetAccount : option error;
  pw_ctx_Err_GetByID : option error
}.

Module AuthUseCase.

Definition Authenticate (ctx_Err : option error)
    (ValidateCredentials : string -> string -> result Account.t)
    (GenerateTokenPair : string -> string -> string -> result TokenPair.t)
    (email password : string) : result TokenPair.t :=
  match ctx_Err with
  | Some e => Err e
  | None =>
      match ValidateCredentials email password with
      | Err e => Err e
      | Ok acc => GenerateTokenPair (Account.ID acc) (Account.Email acc) (Account.Name acc)
      end
  end.

Definition ValidateToken (ctx_Err : option error)
    (tokenService_ValidateToken : string -> result Claims.t) (token : string)
    : result Claims.t :=
  match ctx_Err with
  | Some e => Err e
  | None =>
      if String.eqb token "" then Err "token is required"
      else tokenService_ValidateToken token
  end.

Definition RefreshAuthentication (ctx_Err : option error)
    (tokenService_RefreshToken : string -> result TokenPair.t) (refreshToken : string)
    : result TokenPair.t :=
  match ctx_Err with
  | Some e => Err e
  | None =>
      if String.eqb refreshToken "" then Err "refresh token is required"
      else tokenService_RefreshToken refreshToken
  end.

Definition GetAccountProfile (pw : ProfileWorld) (accounts : gmap string Account.t)
    (token : string) : result AccountProfile.t :=
  match pw_ctx_Err pw with
  | Some e => Err e
  | None =>
      match ValidateToken (pw_ctx_Err_ValidateToken pw) (pw_ValidateToken pw) token with
      | Err e => Err e
      | Ok claims =>
          match AccountUseCase.GetAccount (pw_ctx_Err_GetAccount pw) (pw_ctx_Err_GetByID pw)
                  accounts (Claims.Subject claims) with
          | Err e => Err e
          | Ok acc =>
              Ok (AccountProfile.mk (Account.ID acc) (Account.Email acc) (Account.Verified acc)
                    (Account.Name acc) (Account.Nickname acc) (Account.Picture acc))
          end
      end
  end.

End AuthUseCase.

(** ** The id generator ([crypto.IDGenerator]) and [encoding/hex] *)

Definition hextable : string := "0123456789abcdef".

Definition hexdigit (i : Z) : ascii :=
  match String.get (Z.to_nat i) hextable with
  | Some c => c
  | None => "0"%char
  end.

(** [hex.EncodeToString(src)] *)
Fixpoint hex_EncodeToString (src : list Z) : string :=
  match src with
  | [] => ""
  | v :: rest =>
      String (hexdigit (Z.shiftr v 4)) (String (hexdigit (Z.land v 15)) (hex_EncodeToString rest))
  end.

(** [Generate], given what [rand.Read] delivers for the 16 bytes. *)
Definition IDGenerator_Generate (rand_Read : result (list Z)) : result string :=
  match rand_Read with
  | Err e => Err ("failed to generate random bytes: " +:+ e)
  | Ok bytes => Ok (hex_EncodeToString bytes)
  end.

Definition is_byte (b : Z) : Prop := 0 <= b < 256.

Definition is_hex_digit (c : ascii) : bool :=
  List.existsb (Ascii.eqb c) (list_ascii_of_string hextable).

(** ** The token, userinfo and users endpoints ([handlers.AuthHandler])

    These handlers encode structured values; the writer records the values
    handed to the JSON encoder. *)

Module UserView.
(** An entry of the users listing: the id (under [user_id] and
    [account_id]), email, name, email_verified, created_at, updated_at. *)
Record t := mk {
  ID : string;
  Email : string;
  Name : string;
  Verified : bool;
  CreatedAt : Time;
  UpdatedAt : Time
}.
Definition of_account (acc : Account.t) : t :=
  mk (Account.ID acc) (Account.Email acc) (Account.Name acc) (Account.Verified acc)
     (Account.CreatedAt acc) (Account.UpdatedAt acc).
End UserView.

Inductive encoded : Type :=
| EncError (code description : string)
| EncTokenPair (tokenPair : TokenPair.t)
| EncProfile (profile : AccountProfile.t)
| EncUsers (users : list UserView.t)
| EncRaw (text : string).

Module Reply.
Record t := mk {
  Header : gmap string string;
  Status : option Z;
  Body : list encoded
}.
Definition fresh : t := mk ∅ None [].
Definition Header_Set (k v : string) (w : t) : t :=
  mk (<[k := v]> (Header w)) (Status w) (Body w).
Definition WriteHeader (code : Z) (w : t) : t :=
  match Status w with
  | None => mk (Header w) (Some code) (Body w)
  | Some _ => w
  end.
Definition Write (b : encoded) (w : t) : t :=
  let w' := WriteHeader 200 w in
  mk (Header w') (Status w') (Body w' ++ [b])%list.
(** [h.sendJSON(w, data, statusCode)] *)
Definition sendJSON (w : t) (data : encoded) (statusCode : Z) : t :=
  Write data (WriteHeader statusCode (Header_Set "Content-Type" "application/json" w)).
(** [h.sendError(w, err, statusCode)] *)
Definition sendError (w : t) (err : AppError.t) (statusCode : Z) : t :=
  sendJSON w (EncError (AppError.Code err) (AppError.Message err)) statusCode.
End Reply.

Definition StatusUnauthorized : Z := 401.
Definition StatusTooManyRequests : Z := 429.

Definition handleAuthorizationCodeGrant (xw : World) (codes : gmap string AuthorizationCode.t)
    (w : Reply.t) (r : Request.t) : outcome Reply.t * gmap string AuthorizationCode.t :=
  let code := Request.FormValue r "code" in
  let clientID := Request.FormValue r "client_id" in
  let codeVerifier := Request.FormValue r "code_verifier" in
  let redirectURI := Request.FormValue r "redirect_uri" in
  if String.eqb code "" || String.eqb clientID "" || String.eqb codeVerifier ""
  then (Returned (Reply.sendError w
                    (AppError.WithMessage ErrInvalidRequest
                       "code, client_id, and code_verifier are required") StatusBadRequest),
        codes)
  else
    (* the log record takes [code[:8]] *)
    if (String.length code <? 8)%nat
    then (Panicked "runtime error: slice bounds out of range", codes)
    else
      match ExchangeCodeForTokens xw codes code clientID codeVerifier redirectURI with
      | (Err _, codes') =>
          (Returned (Reply.sendError w ErrInvalidGrant StatusUnauthorized), codes')
      | (Ok tokenPair, codes') =>
          (Returned (Reply.sendJSON w (EncTokenPair tokenPair) StatusOK), codes')
      end.

Definition handleRefreshToken (RefreshAuthentication : string -> result TokenPair.t)
    (w : Reply.t) (r : Request.t) : Reply.t :=
  let refreshToken := Request.FormValue r "refresh_token" in
  if String.eqb refreshToken ""
  then Reply.sendError w (AppError.WithMessage ErrInvalidRequest "refresh_token is required")
         StatusBadRequest
  else
    match RefreshAuthentication refreshToken with
    | Err _ => Reply.sendError w ErrInvalidGrant StatusUnauthorized
    | Ok tokenPair => Reply.sendJSON w (EncTokenPair tokenPair) StatusOK
    end.

Definition TokenHandler (xw : World) (RefreshAuthentication : string -> result TokenPair.t)
    (codes : gmap string AuthorizationCode.t) (w : Reply.t) (r : Request.t)
    : outcome Reply.t * gmap string AuthorizationCode.t :=
  if negb (String.eqb (Request.Method r) "POST")
  then (Returned (Reply.sendError w ErrMethodNotAllowed StatusMethodNotAllowed), codes)
  else
    let grantType := Request.FormValue r "grant_type" in
    if String.eqb grantType "authorization_code"
    then handleAuthorizationCodeGrant xw codes w r
    else if String.eqb grantType "refresh_token"
    then (Returned (handleRefreshToken RefreshAuthentication w r), codes)
    else (Returned (Reply.sendError w ErrUnsupportedGrantType StatusBadRequest), codes).

(** [strings.Split(s, sep)] for a separator of one byte. *)
Fixpoint Split (s : string) (sep : ascii) : list string :=
  match s with
  | EmptyString => [""]
  | String c rest =>
      if Ascii.eqb c sep then "" :: Split rest sep
      else
        match Split rest sep with
        | first :: others => String c first :: others
        | [] => [String c ""]
        end
  end.

(** The token of an [Authorization] header, as both [UserInfoHandler] and
    [RequireAuth] read it: exactly two fields around one space, the first
    of them ["Bearer"]. *)
Definition bearer_token (authHeader : string) : option string :=
  match Split authHeader " " with
  | [scheme; token] => if String.eqb scheme "Bearer" then Some token else None
  | _ => None
  end.

Definition UserInfoHandler (pw : ProfileWorld) (accounts : gmap string Account.t)
    (w : Reply.t) (method authHeader : string) : Reply.t :=
  if negb (String.eqb method "GET")
  then Reply.sendError w ErrMethodNotAllowed StatusMethodNotAllowed
  else if String.eqb authHeader ""
  then Reply.sendError w (AppError.WithMessage ErrUnauthorized "Authorization header required")
         StatusUnauthorized
  else
    match bearer_token authHeader with
    | None =>
        Reply.sendError w
          (AppError.WithMessage ErrUnauthorized "Invalid authorization header format")
          StatusUnauthorized
    | Some token =>
        match AuthUseCase.GetAccountProfile pw accounts token with
        | Err _ => Reply.sendError w ErrUnauthorized StatusUnauthorized
        | Ok accountProfile => Reply.sendJSON w (EncProfile accountProfile) StatusOK
        end
    end.

(** [GetUsersHandler]; [Atoi] is [strconv.Atoi], [visited] the order in
    which the store hands over its accounts. *)
Definition GetUsersHandler (Atoi : string -> result Z) (ctx_Err ctx_Err_List : option error)
    (visited : list Account.t) (w : Reply.t) (r : Request.t) : outcome Reply.t :=
  if negb (String.eqb (Request.Method r) "GET")
  then Returned (Reply.sendError w ErrMethodNotAllowed StatusMethodNotAllowed)
  else
    let limitStr := Request.Query_Get r "limit" in
    let offsetStr := Request.Query_Get r "offset" in
    let limit :=
      if negb (String.eqb limitStr "") then
        match Atoi limitStr with
        | Ok l => if 0 <? l then l else 10
        | Err _ => 10
        end
      else 10 in
    let offset :=
      if negb (String.eqb offsetStr "") then
        match Atoi offsetStr with
        | Ok o => if 0 <=? o then o else 0
        | Err _ => 0
        end
      else 0 in
    match ListAccounts ctx_Err ctx_Err_List visited limit offset with
    | Err _ => Returned (Reply.sendError w ErrInternalServerError StatusInternalServerError)
    | Ok (Panicked msg) => Panicked msg
    | Ok (Returned accounts) =>
        Returned (Reply.sendJSON w (EncUsers (UserView.of_account <$> accounts)) StatusOK)
    end.

(** ** Middleware ([middleware.AuthMiddleware], [middleware.RateLimit]) *)

(** [m.sendError]: always 401, the body assembled as text. *)
Definition dq : string := String (Ascii.ascii_of_nat 34) EmptyString.

Definition AuthMiddleware_sendError (w : Reply.t) (err : AppError.t) : Reply.t :=
  Reply.Write
    (EncRaw ("{" +:+ dq +:+ "error" +:+ dq +:+ ":" +:+ dq +:+ AppError.Code err +:+ dq
             +:+ "," +:+ dq +:+ "error_description" +:+ dq +:+ ":" +:+ dq
             +:+ AppError.Message err +:+ dq +:+ "}"))
    (Reply.WriteHeader StatusUnauthorized
       (Reply.Header_Set "Content-Type" "application/json" w)).

(** [RequireAuth]: either the request is answered here ([inl]), or it is
    passed on with the user id and email of the claims ([inr]). *)
Definition RequireAuth (ctx_Err : option error)
    (tokenService_ValidateToken : string -> result Claims.t)
    (w : Reply.t) (authHeader : string) : Reply.t + string * string :=
  if String.eqb authHeader ""
  then inl (AuthMiddleware_sendError w
              (AppError.WithMessage ErrUnauthorized "Authorization header required"))
  else
    match bearer_token authHeader with
    | None =>
        inl (AuthMiddleware_sendError w
               (AppError.WithMessage ErrUnauthorized "Invalid authorization header format"))
    | Some token =>
        match AuthUseCase.ValidateToken ctx_Err tokenService_ValidateToken token with
        | Err _ =>
            inl (AuthMiddleware_sendError w
                   (AppError.WithMessage ErrUnauthorized "Invalid or expired token"))
        | Ok claims => inr (Claims.Subject claims, Claims.Email claims)
        end
    end.

(** One request through [RateLimit(requestsPerSecond)]: whether it is passed
    on, and the limiter map afterwards.  The quotient is Go's integer
    division, evaluated only when the address is known. *)
Definition RateLimit (requestsPerSecond : Z) (limiter : gmap string Time)
    (clientIP : string) (now : Time) : outcome (bool * gmap string Time) :=
  match limiter !! clientIP with
  | Some lastRequest =>
      if requestsPerSecond =? 0 then Panicked "runtime error: integer divide by zero"
      else if now - lastRequest <? Z.quot Second requestsPerSecond
      then Returned (false, limiter)
      else Returned (true, <[clientIP := now]> limiter)
  | None => Returned (true, <[clientIP := now]> limiter)
  end.

(** The times at which requests of [clientIP] were passed on, over a run
    of requests (address, time).  A request on which the middleware panics
    is not passed on and leaves the limiter as it was; the server goes on
    with the next request. *)
Fixpoint rate_limited_run (requestsPerSecond : Z) (limiter : gmap string Time)
    (clientIP : string) (requests : list (string * Time)) : list Time :=
  match requests with
  | [] => []
  | (ip, now) :: rest =>
      match RateLimit requestsPerSecond limiter ip now with
      | Panicked _ => rate_limited_run requestsPerSecond limiter clientIP rest
      | Returned (passed, limiter') =>
          let later := rate_limited_run requestsPerSecond limiter' clientIP rest in
          if passed && String.eqb ip clientIP then now :: later else later
      end
  end.

(** ** The in-memory cache ([cache.InMemoryCache], [cache.CachedTokenService]) *)

Module InMemoryCache.
Section Entries.
Context {V : Type}.

Record CacheEntry := mkEntry {
  Value : V;
  ExpiresAt : Time
}.

(** [e.IsExpired()], the clock read at the call. *)
Definition IsExpired (now : Time) (e : CacheEntry) : bool := After now (ExpiresAt e).

(** The order in which a [range] over the map hands over its entries:
    each entry once, in an order the language leaves open. *)
Definition visits (entries : gmap string CacheEntry) (visited : list (string * CacheEntry))
    : Prop :=
  Permutation visited (map_to_list entries).

(** The loop of [evictOldest]: [oldestKey] and [oldestTime] after the
    entries [visited]. *)
Definition oldest_step (st : string * Time) (kv : string * CacheEntry) : string * Time :=
  if String.eqb (fst st) "" || Before (ExpiresAt (snd kv)) (snd st)
  then (fst kv, ExpiresAt (snd kv))
  else st.

Definition oldest (visited : list (string * CacheEntry)) : string * Time :=
  fold_left oldest_step visited ("", zeroTime).

Definition evictOldest (visited : list (string * CacheEntry))
    (entries : gmap string CacheEntry) : gmap string CacheEntry :=
  let oldestKey := fst (oldest visited) in
  if negb (String.eqb oldestKey "") then delete oldestKey entries else entries.

(** [c.Set]; the name carries a prime because [Set] is reserved. *)
Definition Set' (maxSize : Z) (visited : list (string * CacheEntry)) (now : Time)
    (entries : gmap string CacheEntry) (key : string) (value : V) (ttl : Z)
    : gmap string CacheEntry :=
  let entries' :=
    if maxSize <=? Z.of_nat (size entries) then evictOldest visited entries else entries in
  let expiresAt := Add now (InMemoryAccountRepository.wrap64 (ttl * Second)) in
  <[key := mkEntry value expiresAt]> entries'.

Definition ErrCacheKeyNotFound : error := "cache key not found".

Definition Get (now : Time) (entries : gmap string CacheEntry) (key : string) : result V :=
  match entries !! key with
  | Some entry => if IsExpired now entry then Err ErrCacheKeyNotFound else Ok (Value entry)
  | None => Err ErrCacheKeyNotFound
  end.

Definition Delete (entries : gmap string CacheEntry) (key : string) : gmap string CacheEntry :=
  delete key entries.

Definition Close (entries : gmap string CacheEntry) : gmap string CacheEntry := ∅.

(** One tick of [cleanup]; [now key] is the clock reading when the entry
    under [key] is tested. *)
Definition cleanup (now : string -> Time) (entries : gmap string CacheEntry)
    : gmap string CacheEntry :=
  filter (fun kv => IsExpired (now (fst kv)) (snd kv) = false) entries.

End Entries.
Arguments CacheEntry : clear implicits.
End InMemoryCache.

(** [CachedTokenService.ValidateToken]: the cache is read at [now_get] and,
    on a miss that validates, written at [now_set]. *)
Definition CachedTokenService_ValidateToken
    (tokenService_ValidateToken : string -> result Claims.t)
    (maxSize cacheTTL : Z) (visited : list (string * InMemoryCache.CacheEntry Claims.t))
    (now_get now_set : Time) (entries : gmap string (InMemoryCache.CacheEntry Claims.t))
    (token : string)
    : result Claims.t * gmap string (InMemoryCache.CacheEntry Claims.t) :=
  let cacheKey := "token:" +:+ token in
  match InMemoryCache.Get now_get entries cacheKey with
  | Ok cached => (Ok cached, entries)
  | Err _ =>
      match tokenService_ValidateToken token with
      | Err err => (Err err, entries)
      | Ok claims =>
          (Ok claims,
           InMemoryCache.Set' maxSize visited now_set entries cacheKey claims cacheTTL)
      end
  end.

(** ** Accounts, requests and services used in the further examples, and the
    predicates of the further theorems *)

Definition bob : Account.t :=
  Account.mk "fedcba9876543210fedcba9876543210" "b@x" "$2a$10$hsah" "B" "B" "" 1 1 true false.

Definition alice_and_bob : gmap string Account.t :=
  <[Account.ID bob := bob]> {[Account.ID Scenario.alice := Scenario.alice]}.

(** [alice] asking for the email of [bob], and her record once [Update] has
    stored it at time 7. *)
Definition alice_as_bob : Account.t :=
  Account.mk (Account.ID Scenario.alice) "b@x" "$2a$10$hash" "A" "A" "" 0 0 true false.

Definition alice_updated : Account.t :=
  Account.mk (Account.ID Scenario.alice) "b@x" "$2a$10$hash" "A" "A" "" 0 7 true false.

(** What [CreateAccount] establishes for every account it stores. *)
Definition as_created (a : Account.t) : Prop :=
  Account.Verified a = true /\ Account.Blocked a = false /\
  Account.Nickname a = Account.Name a /\ Account.Picture a = "" /\
  Account.Email a <> "".

(** A hasher for the examples: the verifier is the password behind a tag. *)
Definition tagged_Compare (hashedPassword password : string) : option error :=
  if String.eqb hashedPassword ("h:" +:+ password) then None
  else Some "crypto/bcrypt: hashedPassword is not the hash of the given password".

Definition carol : Account.t :=
  Account.mk "00112233445566778899aabbccddeeff" "c@x" "h:Passw0rd!" "C" "C" "" 2 3 true true.

(** The world of [ExchangeCodeForTokens] when the account use case runs over
    the store [accounts] and the token service answers [mint]. *)
Definition exchange_world_of (ctx_Err ctx_Err_uc ctx_Err_repo : option error)
    (accounts : gmap string Account.t)
    (mint : string -> string -> string -> result TokenPair.t) (now : Time) : World :=
  {| Registry.ctx_Err := ctx_Err;
     Now := now;
     accountUseCase_GetAccount := AccountUseCase.GetAccount ctx_Err_uc ctx_Err_repo accounts;
     tokenService_GenerateTokenPair := mint |}.

(** Whether the byte [c] occurs in [s]. *)
Fixpoint occurs (c : ascii) (s : string) : bool :=
  match s with
  | EmptyString => false
  | String d rest => Ascii.eqb d c || occurs c rest
  end.

(** The error replies of the token endpoint. *)
Definition token_endpoint_errors : list (AppError.t * Z) :=
  [ (ErrMethodNotAllowed, StatusMethodNotAllowed);
    (ErrUnsupportedGrantType, StatusBadRequest);
    (AppError.WithMessage ErrInvalidRequest "code, client_id, and code_verifier are required",
     StatusBadRequest);
    (AppError.WithMessage ErrInvalidRequest "refresh_token is required", StatusBadRequest);
    (ErrInvalidGrant, StatusUnauthorized) ].

(** A login posted to the authorization endpoint and the token request
    that follows it. *)
Definition authorize_post (clientID redirectURI state scope codeChallenge email password : string)
    : Request.t :=
  Request.mk "POST" "/authorize"
    (<["response_type" := "code"]> (<["client_id" := clientID]>
     (<["redirect_uri" := redirectURI]> (<["state" := state]> (<["scope" := scope]>
     (<["code_challenge" := codeChallenge]>
     (<["code_challenge_method" := "S256"]> ∅)))))))
    (<["email" := email]> (<["password" := password]> ∅)).

Definition token_post (code clientID codeVerifier redirectURI : string) : Request.t :=
  Request.mk "POST" "/oauth/token" ∅
    (<["grant_type" := "authorization_code"]> (<["code" := code]>
     (<["client_id" := clientID]> (<["code_verifier" := codeVerifier]>
     (<["redirect_uri" := redirectURI]> ∅))))).

(** A reference [net/url] for the examples: targets with a scheme are
    absolute and need no escaping. *)
Definition plain_urls : NetURL :=
  {| url_relative := fun url => negb (String.prefix "https://" url);
     redirect_location := fun _ url => url |}.

(** The times in [passed] lie at least [gap] apart, the first of them at
    least [gap] after [last] when there is one. *)
Fixpoint spaced (gap : Z) (last : option Time) (passed : list Time) : Prop :=
  match passed with
  | [] => True
  | t :: rest =>
      (forall t0, last = Some t0 -> gap <= t - t0) /\ spaced gap (Some t) rest
  end.

(** A cache of one entry, for the examples. *)
Definition one_entry : gmap string (InMemoryCache.CacheEntry string) :=
  {["k1" := InMemoryCache.mkEntry "v1" (100 * Second)]}.

(** A service with the keys of the reference service under another issuer
    and without an audience. *)
Definition other_issuer : JWETokenService.t :=
  JWETokenService.mk (JWETokenService.encryptionKey ToyJose.service)
    (JWETokenService.signingKey ToyJose.service) "another-issuer" None.

(** A token of the reference library, under the keys of the reference
    service, whose claim set is empty. *)
Definition bare_signed : ToyJose.Signed :=
  (HS256, JWETokenService.signingKey ToyJose.service,
   ToyJose.pack (∅ : gmap string value)).

Definition bare_encrypted : ToyJose.Encrypted :=
  (A256GCM, DIRECT, JWETokenService.encryptionKey ToyJose.service, "n0",
   ToyJose.pack bare_signed).

Definition bare_token : string := ToyJose.pack bare_encrypted.

(* ===================================================================== *)
(** * Part II: theorems                                                   *)
(* ===================================================================== *)

Example round_constants :
  List.nth 0 SHA256.K 0 = 0x428a2f98 /\ List.nth 63 SHA256.K 0 = 0xc67178f2
  /\ List.length SHA256.K = 64%nat
  /\ List.nth 0 SHA256.H0 0 = 0x6a09e667 /\ List.nth 7 SHA256.H0 0 = 0x5be0cd19.
Proof. repeat split. Qed.

Example sha_abc :
  SHA256.Sum256 (bytes_of_string "abc")
  = [0xba; 0x78; 0x16; 0xbf; 0x8f; 0x01; 0xcf; 0xea; 0x41; 0x41; 0x40; 0xde;
     0x5d; 0xae; 0x22; 0x23; 0xb0; 0x03; 0x61; 0xa3; 0x96; 0x17; 0x7a; 0x9c;
     0xb4; 0x10; 0xff; 0x61; 0xf2; 0x00; 0x15; 0xad].
Proof. vm_compute. reflexivity. Qed.

Example pkce_rfc7636 :
  validatePKCE "E9Melhoa2OwvFrEMTJguCHaoeK1t8URWbuGJSstw-cM"
               "dBjftJeZ4CVP-mB92K27uhbUJU1p1r_wW1gFWFOEjXk" "S256" = true.
Proof. vm_compute. reflexivity. Qed.

(** Verifiers of zero, one, two and three blocks after padding. *)
Example expectedChallenge_vectors :
  expectedChallenge "" = "47DEQpj8HBSa-_TImW-5JCeuQeRkm5NMpJWZG3hSuFU"
  /\ expectedChallenge "abcdbcdecdefdefgefghfghighijhijkijkljklmklmnlmnomnopnopq"
     = "JI1qYdIGOLjlwCaTDD5gOaM85Flk_yFn9uzt1BnbBsE"
  /\ expectedChallenge (string_of_bytes (List.repeat 97 128))
     = "aDbPE7rEAOkQUHHNavRwhN-srU5eMCyUv-0k4BOvtz4".
Proof. repeat split; vm_compute; reflexivity. Qed.

(** ** The PKCE check *)

Lemma validatePKCE_true (C V M : string) :
  validatePKCE C V M = true <-> M = "S256" /\ expectedChallenge V = C.
Proof.
  unfold validatePKCE.
  destruct (String.eqb M "S256") eqn:HM; simpl.
  - apply String.eqb_eq in HM. rewrite String.eqb_eq. tauto.
  - apply String.eqb_neq in HM. split; [discriminate | tauto].
Qed.

(** C3.  The PKCE check accepts a challenge [C], a verifier [V] and a method
    [M] exactly when [M] is ["S256"] and the unpadded URL-safe base64 of the
    SHA-256 digest of [V] is [C]; any other method, ["plain"] included, is
    rejected whatever the challenge and the verifier. *)
Theorem validatePKCE_spec :
  forall C V M : string,
    (validatePKCE C V M = true <->
       M = "S256" /\
       Base64.RawURLEncoding_EncodeToString (SHA256.Sum256 (bytes_of_string V)) = C)
    /\ (M <> "S256" -> validatePKCE C V M = false)
    /\ validatePKCE C V "plain" = false.
Proof.
  intros C V M. split; [apply validatePKCE_true | split].
  - intros HM. destruct (validatePKCE C V M) eqn:E; [|reflexivity].
    apply validatePKCE_true in E. tauto.
  - reflexivity.
Qed.

(** ** The registry under exchange *)

Section RegistryFacts.

Implicit Types (codes : gmap string AuthorizationCode.t) (code : string).

Ltac exchange_cases :=
  unfold exchange, ExchangeCodeForTokens in *;
  repeat case_match; simplify_eq/=.

Lemma exchange_other codes call code r codes' :
  exchange codes call = (r, codes') -> call_code call <> code ->
  codes' !! code = codes !! code.
Proof.
  intros H Hne. exchange_cases; try reflexivity;
    rewrite ?lookup_delete_ne, ?lookup_insert_ne by done; reflexivity.
Qed.

Lemma exchange_Ok codes call tp codes' :
  exchange codes call = (Ok tp, codes') ->
  live codes (call_code call) /\ codes' !! call_code call = None.
Proof.
  intros H. exchange_cases. split.
  - eexists; split; [eassumption | assumption].
  - apply lookup_delete_eq.
Qed.

Lemma exchange_not_live codes call code r codes' :
  exchange codes call = (r, codes') -> ~ live codes code -> ~ live codes' code.
Proof.
  intros H Hn [rec [Hl Hu]].
  destruct (decide (call_code call = code)) as [<-|Hne].
  - exchange_cases; try (apply Hn; eexists; split; eassumption);
      rewrite ?lookup_delete_eq, ?lookup_insert_eq in Hl; simplify_eq/=.
  - apply Hn. exists rec. split; [|assumption].
    erewrite <- exchange_other; eassumption.
Qed.

Lemma successes_cons code c done :
  successes code (c :: done) =
  ((if String.eqb code c then 1 else 0) + successes code done)%nat.
Proof. unfold successes. simpl. destruct (String.eqb code c); reflexivity. Qed.

Lemma run_not_live codes calls code :
  ~ live codes code -> successes code (fst (run_exchanges codes calls)) = 0%nat.
Proof.
  revert codes. induction calls as [|c rest IH]; intros codes Hn; [reflexivity|].
  simpl. destruct (exchange codes c) as [r codes'] eqn:E.
  destruct (run_exchanges codes' rest) as [done final] eqn:R. simpl.
  pose proof (IH codes' (exchange_not_live _ _ _ _ _ E Hn)) as IH'.
  rewrite R in IH'. simpl in IH'.
  destruct r as [tp|e]; simpl; [|exact IH'].
  rewrite successes_cons, IH'.
  destruct (String.eqb code (call_code c)) eqn:Q; [|reflexivity].
  apply String.eqb_eq in Q. subst code.
  apply exchange_Ok in E. tauto.
Qed.

Lemma run_at_most_once codes calls code :
  (successes code (fst (run_exchanges codes calls)) <= 1)%nat.
Proof.
  revert codes. induction calls as [|c rest IH]; intros codes; [unfold successes; simpl; lia|].
  simpl. destruct (exchange codes c) as [r codes'] eqn:E.
  destruct (run_exchanges codes' rest) as [done final] eqn:R. simpl.
  destruct r as [tp|e]; simpl.
  - rewrite successes_cons.
    destruct (String.eqb code (call_code c)) eqn:Q.
    + apply String.eqb_eq in Q. subst code.
      apply exchange_Ok in E. destruct E as [_ Hgone].
      assert (Hn : ~ live codes' (call_code c)).
      { intros [rec [Hl _]]. congruence. }
      pose proof (run_not_live codes' rest _ Hn) as Z0.
      rewrite R in Z0. simpl in Z0. lia.
    + specialize (IH codes'). rewrite R in IH. simpl in *. lia.
  - specialize (IH codes'). rewrite R in IH. exact IH.
Qed.

End RegistryFacts.

Example scenario_issued :
  fst Scenario.issued = Ok "BwcHBwcHBwcHBwcHBwcHBwcHBwcHBwcHBwcHBwcHBwc="
  /\ live Scenario.codes Scenario.code.
Proof.
  split; [vm_compute; reflexivity|].
  eexists. split; vm_compute; reflexivity.
Qed.

Section ExchangeOutcomes.

Implicit Types (codes : gmap string AuthorizationCode.t) (w : World).

Lemma passes_checks_true w authCode clientID codeVerifier redirectURI :
  passes_checks w authCode clientID codeVerifier redirectURI = true <->
  After (Now w) (AuthorizationCode.ExpiresAt authCode) = false /\
  AuthorizationCode.Used authCode = false /\
  String.eqb (AuthorizationCode.ClientID authCode) clientID = true /\
  String.eqb (AuthorizationCode.RedirectURI authCode) redirectURI = true /\
  validatePKCE (AuthorizationCode.CodeChallenge authCode) codeVerifier
    (AuthorizationCode.CodeChallengeMethod authCode) = true.
Proof.
  unfold passes_checks. rewrite !andb_true_iff, !negb_true_iff. tauto.
Qed.

(** An exchange that passes every check flips the used-flag in the registry
    before it asks for the account and the tokens. *)
Lemma exchange_after_checks w codes code clientID codeVerifier redirectURI authCode :
  ctx_Err w = None -> codes !! code = Some authCode ->
  passes_checks w authCode clientID codeVerifier redirectURI = true ->
  ExchangeCodeForTokens w codes code clientID codeVerifier redirectURI =
  let codes' := <[code := AuthorizationCode.markUsed authCode]> codes in
  match accountUseCase_GetAccount w (AuthorizationCode.AccountID authCode) with
  | Err e => (Err ("failed to get account: " +:+ e), codes')
  | Ok acc =>
      match tokenService_GenerateTokenPair w (Account.ID acc) (Account.Email acc) (Account.Name acc) with
      | Err e => (Err ("failed to generate tokens: " +:+ e), codes')
      | Ok tokenPair => (Ok tokenPair, delete code codes')
      end
  end.
Proof.
  intros Hctx Hl Hp. apply passes_checks_true in Hp.
  destruct Hp as (He & Hu & Hc & Hr & Hk).
  unfold ExchangeCodeForTokens. rewrite Hctx, Hl, He, Hu, Hc, Hr, Hk. reflexivity.
Qed.

End ExchangeOutcomes.

(** C1 (as stated, refuted).  In the scenario of the specification the code
    is exchanged with the verifier ["wrong"]: the exchange fails on PKCE, the
    registry is left as it was, and the next exchange, with the right
    verifier, succeeds. *)
Lemma failed_pkce_exchange_keeps_code :
  exchange Scenario.codes (Scenario.call (Scenario.world 1) "wrong")
    = (Err "PKCE validation failed", Scenario.codes)
  /\ live Scenario.codes Scenario.code
  /\ fst (exchange Scenario.codes (Scenario.call (Scenario.world 2) Scenario.verifier))
    = Ok Scenario.tokens.
Proof.
  split; [vm_compute; reflexivity|]. split.
  - eexists. split; vm_compute; reflexivity.
  - vm_compute. reflexivity.
Qed.

(** C1 (amended).  An exchange of a known code that fails on expiry or on
    prior use removes the record from the registry.  An exchange that fails
    on a client-id mismatch, a redirect-URI mismatch or the PKCE check
    returns an error and leaves the registry exactly as it was. *)
Theorem exchange_failure_effect :
  forall (w : World) (codes : gmap string AuthorizationCode.t)
         (code clientID codeVerifier redirectURI : string) (authCode : AuthorizationCode.t),
    ctx_Err w = None ->
    codes !! code = Some authCode ->
    let out := ExchangeCodeForTokens w codes code clientID codeVerifier redirectURI in
    (After (Now w) (AuthorizationCode.ExpiresAt authCode) = true ->
       out = (Err "authorization code expired", delete code codes)) /\
    (After (Now w) (AuthorizationCode.ExpiresAt authCode) = false ->
     AuthorizationCode.Used authCode = true ->
       out = (Err "authorization code already used", delete code codes)) /\
    (After (Now w) (AuthorizationCode.ExpiresAt authCode) = false ->
     AuthorizationCode.Used authCode = false ->
     AuthorizationCode.ClientID authCode <> clientID
     \/ AuthorizationCode.RedirectURI authCode <> redirectURI
     \/ validatePKCE (AuthorizationCode.CodeChallenge authCode) codeVerifier
          (AuthorizationCode.CodeChallengeMethod authCode) = false ->
       is_Ok (fst out) = false /\ snd out = codes).
Proof.
  intros w codes code clientID codeVerifier redirectURI authCode Hctx Hl out.
  subst out. unfold ExchangeCodeForTokens. rewrite Hctx, Hl.
  split; [|split].
  - intros ->. reflexivity.
  - intros -> ->. reflexivity.
  - intros -> -> H.
    destruct (String.eqb (AuthorizationCode.ClientID authCode) clientID) eqn:Hc; simpl;
      [|split; reflexivity].
    destruct (String.eqb (AuthorizationCode.RedirectURI authCode) redirectURI) eqn:Hr; simpl;
      [|split; reflexivity].
    destruct (validatePKCE _ _ _) eqn:Hk; simpl; [|split; reflexivity].
    apply String.eqb_eq in Hc, Hr. destruct H as [H|[H|H]]; congruence.
Qed.

Lemma exchange_failure_effect_witness :
  is_Ok (fst (ExchangeCodeForTokens (Scenario.world 1) Scenario.codes Scenario.code
                "other-client" Scenario.verifier "https://x/cb")) = false
  /\ snd (ExchangeCodeForTokens (Scenario.world 1) Scenario.codes Scenario.code
            "other-client" Scenario.verifier "https://x/cb") = Scenario.codes.
Proof.
  refine (proj2 (proj2 (exchange_failure_effect (Scenario.world 1) Scenario.codes
    Scenario.code "other-client" Scenario.verifier "https://x/cb"
    (AuthorizationCode.mk Scenario.code "c1" "https://x/cb" "openid"
       (Account.ID Scenario.alice) Scenario.challenge "S256" (10 * Minute) false)
    _ _)) _ _ _).
  - reflexivity.
  - vm_compute. reflexivity.
  - vm_compute. reflexivity.
  - reflexivity.
  - left. vm_compute. discriminate.
Defined.

(** C2.  Over any sequence of exchanges run one after the other against a
    registry, at most one exchange of a given code succeeds, and none does
    once the used-flag of its record is set.  In particular an exchange that
    passes every check and then fails in the account lookup or in the token
    service leaves the record in the registry with the flag set, and no
    later exchange of that code succeeds. *)
Theorem code_exchanged_at_most_once :
  forall (codes : gmap string AuthorizationCode.t) (calls : list ExchangeCall) (code : string),
    (successes code (fst (run_exchanges codes calls)) <= 1)%nat
    /\ (forall r, codes !! code = Some r -> AuthorizationCode.Used r = true ->
          successes code (fst (run_exchanges codes calls)) = 0%nat)
    /\ (forall (c : ExchangeCall) (authCode : AuthorizationCode.t),
          call_code c = code ->
          ctx_Err (call_world c) = None ->
          codes !! code = Some authCode ->
          passes_checks (call_world c) authCode (call_clientID c) (call_codeVerifier c)
            (call_redirectURI c) = true ->
          is_Ok (fst (exchange codes c)) = false ->
          AuthorizationCode.Used <$> snd (exchange codes c) !! code = Some true
          /\ successes code (fst (run_exchanges (snd (exchange codes c)) calls)) = 0%nat).
Proof.
  intros codes calls code. split; [apply run_at_most_once|]. split.
  - intros r Hl Hu. apply run_not_live. intros [r' [Hl' Hu']]. congruence.
  - intros c authCode <- Hctx Hl Hp Hfail.
    assert (Hflag : AuthorizationCode.Used <$> snd (exchange codes c) !! call_code c = Some true).
    { unfold exchange in *.
      rewrite (exchange_after_checks _ _ _ _ _ _ _ Hctx Hl Hp) in *. simpl in *.
      destruct (accountUseCase_GetAccount _ _) as [acc|e]; simpl in *.
      - destruct (tokenService_GenerateTokenPair _ _ _ _) as [tp|e]; simpl in *; [discriminate|].
        rewrite lookup_insert_eq. reflexivity.
      - rewrite lookup_insert_eq. reflexivity. }
    split; [exact Hflag|].
    apply run_not_live. intros [r' [Hl' Hu']].
    rewrite Hl' in Hflag. simpl in Hflag. congruence.
Qed.

Lemma code_exchanged_at_most_once_witness :
  AuthorizationCode.Used <$>
    snd (exchange Scenario.codes (Scenario.call (Scenario.world_mint_fails 1) Scenario.verifier))
      !! Scenario.code = Some true
  /\ successes Scenario.code
       (fst (run_exchanges
          (snd (exchange Scenario.codes
                  (Scenario.call (Scenario.world_mint_fails 1) Scenario.verifier)))
          [Scenario.call (Scenario.world 2) Scenario.verifier;
           Scenario.call (Scenario.world 3) Scenario.verifier])) = 0%nat.
Proof.
  refine (proj2 (proj2 (code_exchanged_at_most_once Scenario.codes
    [Scenario.call (Scenario.world 2) Scenario.verifier;
     Scenario.call (Scenario.world 3) Scenario.verifier] Scenario.code))
    (Scenario.call (Scenario.world_mint_fails 1) Scenario.verifier)
    (AuthorizationCode.mk Scenario.code "c1" "https://x/cb" "openid"
       (Account.ID Scenario.alice) Scenario.challenge "S256" (10 * Minute) false)
    _ _ _ _ _).
  - reflexivity.
  - reflexivity.
  - vm_compute. reflexivity.
  - vm_compute. reflexivity.
  - vm_compute. reflexivity.
Defined.

(** ** The token service: minting, then validating *)

(** *** Strings through JSON *)

Lemma ascii_of_byte_of_ascii (a : ascii) : ascii_of_byte (byte_of_ascii a) = a.
Proof.
  unfold ascii_of_byte, byte_of_ascii.
  pose proof (N_ascii_bounded a) as Hb.
  rewrite Z.mod_small by lia.
  rewrite N2Z.id. apply ascii_N_embedding.
Qed.

Lemma string_of_bytes_of_string (s : string) : string_of_bytes (bytes_of_string s) = s.
Proof.
  unfold string_of_bytes, bytes_of_string. rewrite List.map_map.
  induction s as [|a s IH]; simpl; [reflexivity|].
  rewrite ascii_of_byte_of_ascii. f_equal. exact IH.
Qed.

(** On valid UTF-8 the round trip through JSON changes nothing. *)
Lemma json_bytes_valid (fuel : nat) (p : list Z) :
  valid_bytes fuel p = true -> json_bytes fuel p = p.
Proof.
  revert p. induction fuel as [|fuel IH]; intros p H.
  - destruct p; [reflexivity | discriminate].
  - destruct p as [|b rest]; [reflexivity|].
    cbn [valid_bytes json_bytes] in *.
    destruct (rune_size (b :: rest)) as [n|]; [|discriminate].
    rewrite (IH _ H). apply List.firstn_skipn.
Qed.

Lemma json_text_valid (s : string) : utf8_ValidString s = true -> json_text s = s.
Proof.
  unfold utf8_ValidString, json_text. intros H.
  rewrite (json_bytes_valid _ _ H). apply string_of_bytes_of_string.
Qed.

Section TokenServiceFacts.

Context {J : GoJose} {L : GoJoseLaws J}.

Lemma float64_of_int_exact (n : Z) : Z.abs n < 2 ^ 53 -> float64_of_int n = n.
Proof.
  intros Hn. unfold float64_of_int.
  destruct (Z.abs n =? 0) eqn:E0; [rewrite orb_true_r; reflexivity|].
  apply Z.eqb_neq in E0.
  assert (Hlog : Z.log2 (Z.abs n) < 53) by (apply Z.log2_lt_pow2; lia).
  replace (Z.log2 (Z.abs n) + 1 <=? 53) with true by (symmetry; apply Z.leb_le; lia).
  reflexivity.
Qed.

Lemma int64_of_float64_exact (x : Z) : - 2 ^ 63 <= x < 2 ^ 63 -> int64_of_float64 x = x.
Proof.
  intros Hx. unfold int64_of_float64.
  replace (- 2 ^ 63 <=? x) with true by (symmetry; apply Z.leb_le; lia).
  replace (x <? 2 ^ 63) with true by (symmetry; apply Z.ltb_lt; lia).
  reflexivity.
Qed.

(** A timestamp survives the JSON number and the conversion back. *)
Lemma timestamp_roundtrip (n : Z) :
  Z.abs n < 2 ^ 53 -> int64_of_float64 (float64_of_int n) = n.
Proof.
  intros Hn. rewrite float64_of_int_exact by exact Hn.
  apply int64_of_float64_exact. lia.
Qed.

Lemma Unix_Add_seconds (t k : Z) : Unix (Add t (k * Second)) = Unix t + k.
Proof. unfold Unix, Add, Second. apply Z.div_add. lia. Qed.

Lemma time_Unix_floor (t : Time) : t - Second < time_Unix (Unix t) <= t.
Proof.
  unfold time_Unix, Unix, Second.
  pose proof (Z.div_mod t 1000000000 ltac:(lia)).
  pose proof (Z.mod_pos_bound t 1000000000 ltac:(lia)). lia.
Qed.

Lemma Unix_nonneg_bound (t b : Z) : 0 <= t -> Unix t < b -> Z.abs (Unix t) < b.
Proof.
  intros Ht Hb. unfold Unix, Second in *.
  pose proof (Z.div_pos t 1000000000 Ht ltac:(lia)). lia.
Qed.

(** The raw claims after the JSON round trip, field by field. *)
Lemma raw_of_customClaims (c : Claims.t) :
  let raw := json_view <$> customClaims c in
  raw_string raw "sub" = json_text (Claims.Subject c) /\
  raw_string raw "iss" = json_text (Claims.Issuer c) /\
  raw_string raw "email" = json_text (Claims.Email c) /\
  raw_string raw "name" = json_text (Claims.Name c) /\
  raw_string raw "scope" = json_text (Claims.Scope c) /\
  raw !! "exp" = Some (VFloat64 (float64_of_int (Unix (Claims.ExpiresAt c)))) /\
  raw !! "iat" = Some (VFloat64 (float64_of_int (Unix (Claims.IssuedAt c)))) /\
  raw !! "nbf" = Some (VFloat64 (float64_of_int (Unix (Claims.NotBefore c)))).
Proof.
  unfold raw_string, customClaims. cbv zeta.
  destruct (String.eqb (Claims.Scope c) "") eqn:Es; cbn [negb].
  - apply String.eqb_eq in Es.
    repeat split; rewrite lookup_fmap; simplify_map_eq; try reflexivity.
    rewrite Es. reflexivity.
  - repeat split; rewrite lookup_fmap; simplify_map_eq; reflexivity.
Qed.

Lemma scope_claim (c : Claims.t) :
  customClaims c !! "scope" =
  if String.eqb (Claims.Scope c) "" then None else Some (VString (Claims.Scope c)).
Proof.
  unfold customClaims. destruct (String.eqb (Claims.Scope c) ""); simpl;
    simplify_map_eq; reflexivity.
Qed.

(** Minting succeeds under a 256-bit encryption key, and the token
    validates to the claims read back from the claim map. *)
Lemma createEncryptedToken_validates (s : JWETokenService.t) (nonce : string) (c : Claims.t) :
  List.length (JWETokenService.encryptionKey s) = 32%nat ->
  exists tok,
    createEncryptedToken s nonce c = Ok tok /\
    forall vw, vw_ctx_Err vw = None ->
      ValidateToken s vw tok =
      let claims := claims_of_raw (json_view <$> customClaims c) in
      if After (vw_Now_exp vw) (Claims.ExpiresAt claims) then Err "token has expired"
      else if Before (vw_Now_nbf vw) (Claims.NotBefore claims) then Err "token not yet valid"
      else Ok claims.
Proof.
  intros Hk. unfold createEncryptedToken.
  destruct (law_marshal (customClaims c)) as [p Hp]. rewrite Hp.
  destruct (law_sign (JWETokenService.signingKey s) p) as (j & sj & Hj & Hsj).
  rewrite Hj, Hsj.
  destruct (law_encrypt (JWETokenService.encryptionKey s) nonce sj Hk) as (e & se & He & Hse).
  rewrite He, Hse. exists se. split; [reflexivity|].
  intros vw Hctx. unfold ValidateToken. rewrite Hctx.
  destruct (law_decrypt _ _ _ _ _ He Hse) as (e' & Hpe & Hd). rewrite Hpe, Hd.
  destruct (law_verify _ _ _ _ _ Hp Hj Hsj) as (t & Hpt & Hc). rewrite Hpt, Hc.
  reflexivity.
Qed.

End TokenServiceFacts.

(** ** The reference implementation meets the contract *)

Lemma string_to_pos_to_string (p : positive) :
  ToyJose.string_to_pos (ToyJose.pos_to_string p) = Some p.
Proof. induction p as [q IH|q IH|]; simpl; rewrite ?IH; reflexivity. Qed.

Lemma unpack_pack {A} `{Countable A} (a : A) : ToyJose.unpack (ToyJose.pack a) = Some a.
Proof.
  unfold ToyJose.unpack, ToyJose.pack. rewrite string_to_pos_to_string. simpl.
  apply decode_encode.
Qed.

#[global] Instance ToyJose_laws : GoJoseLaws ToyJose.jose.
Proof.
  split; simpl.
  - intros m. eexists. reflexivity.
  - intros k p. do 2 eexists. split; reflexivity.
  - intros k nonce m _. do 2 eexists. split; reflexivity.
  - intros k nonce m e s [= <-] [= <-]. eexists.
    unfold ToyJose.parse_encrypted. rewrite unpack_pack. simpl.
    split; [reflexivity|]. unfold ToyJose.decrypt.
    rewrite bool_decide_eq_true_2 by reflexivity. reflexivity.
  - intros k m p j s [= <-] [= <-] [= <-]. eexists.
    unfold ToyJose.parse_signed. rewrite unpack_pack. simpl.
    split; [reflexivity|]. unfold ToyJose.claims.
    rewrite bool_decide_eq_true_2 by reflexivity.
    rewrite unpack_pack. reflexivity.
Qed.

Section MintThenValidate.

Context {J : GoJose} {L : GoJoseLaws J}.

(** The claims a freshly minted token validates to, for either kind of
    token: [ttl] is the lifetime in seconds.  Every string comes back as
    JSON hands it back. *)
Lemma minted_claims (s : JWETokenService.t) (now : Time) (ttl : Z) (c : Claims.t) :
  0 <= now -> 0 <= ttl -> Unix now + ttl < 2 ^ 53 ->
  Claims.ExpiresAt c = Add now (ttl * Second) ->
  Claims.IssuedAt c = now -> Claims.NotBefore c = now ->
  let got := claims_of_raw (json_view <$> customClaims c) in
  Claims.Subject got = json_text (Claims.Subject c) /\
  Claims.Email got = json_text (Claims.Email c) /\
  Claims.Name got = json_text (Claims.Name c) /\
  Claims.Scope got = json_text (Claims.Scope c) /\
  Claims.IssuedAt got = time_Unix (Unix now) /\
  Claims.NotBefore got = time_Unix (Unix now) /\
  Claims.ExpiresAt got = time_Unix (Unix now + ttl).
Proof.
  intros Hnow Httl Hb He Hi Hn got.
  destruct (raw_of_customClaims c) as (Hsub & _ & Hem & Hna & Hsc & Hexp & Hiat & Hnbf).
  assert (H0 : 0 <= Unix now) by (unfold Unix, Second; apply Z.div_pos; lia).
  subst got. unfold claims_of_raw, raw_time. simpl.
  rewrite Hsub, Hem, Hna, Hsc, Hexp, Hiat, Hnbf, He, Hi, Hn.
  rewrite Unix_Add_seconds.
  rewrite !timestamp_roundtrip by lia.
  repeat split; reflexivity.
Qed.

(** What validating either token of a freshly minted pair comes to, in
    terms of the two clock readings; the strings of the claims are the
    minted ones as JSON hands them back. *)
Lemma minted_pair_validation (s : JWETokenService.t) (mw : MintWorld)
    (sub email name : string) :
  List.length (JWETokenService.encryptionKey s) = 32%nat ->
  mw_ctx_Err mw = None ->
  0 <= mw_Now mw -> Unix (mw_Now mw) + 7 * 24 * 3600 < 2 ^ 53 ->
  exists (pair : TokenPair.t) (access refresh : Claims.t),
    GenerateTokenPair s mw sub email name = Ok pair /\
    Claims.Subject access = json_text sub /\ Claims.Email access = json_text email /\
    Claims.Name access = json_text name /\
    Claims.Subject refresh = json_text sub /\ Claims.Email refresh = json_text email /\
    Claims.Name refresh = json_text name /\
    Claims.Issuer access = json_text (JWETokenService.issuer s) /\
    forall vw, vw_ctx_Err vw = None ->
      ValidateToken s vw (TokenPair.AccessToken pair) =
        (if After (vw_Now_exp vw) (time_Unix (Unix (mw_Now mw) + 24 * 3600))
         then Err "token has expired"
         else if Before (vw_Now_nbf vw) (time_Unix (Unix (mw_Now mw)))
         then Err "token not yet valid"
         else Ok access) /\
      ValidateToken s vw (TokenPair.RefreshToken pair) =
        (if After (vw_Now_exp vw) (time_Unix (Unix (mw_Now mw) + 7 * 24 * 3600))
         then Err "token has expired"
         else if Before (vw_Now_nbf vw) (time_Unix (Unix (mw_Now mw)))
         then Err "token not yet valid"
         else Ok refresh).
Proof.
  intros Hk Hctx Hnow Hb.
  set (now := mw_Now mw) in *.
  destruct (createEncryptedToken_validates s (mw_nonce_access mw)
              (accessClaims s now sub email name) Hk) as (ta & Hta & Hva).
  destruct (createEncryptedToken_validates s (mw_nonce_refresh mw)
              (refreshClaims s now sub email name) Hk) as (tr & Htr & Hvr).
  destruct (minted_claims s now (24 * 3600) (accessClaims s now sub email name))
    as (Ha1 & Ha2 & Ha3 & _ & _ & Ha6 & Ha7);
    [lia | lia | lia | reflexivity | reflexivity | reflexivity |].
  destruct (minted_claims s now (7 * 24 * 3600) (refreshClaims s now sub email name))
    as (Hr1 & Hr2 & Hr3 & _ & _ & Hr6 & Hr7);
    [lia | lia | lia | reflexivity | reflexivity | reflexivity |].
  exists (TokenPair.mk ta tr "" "Bearer" 86400 "openid profile email").
  exists (claims_of_raw (json_view <$> customClaims (accessClaims s now sub email name))).
  exists (claims_of_raw (json_view <$> customClaims (refreshClaims s now sub email name))).
  split.
  { unfold GenerateTokenPair. rewrite Hctx. fold now. rewrite Hta, Htr. reflexivity. }
  do 6 (split; [assumption|]).
  split.
  { destruct (raw_of_customClaims (accessClaims s now sub email name)) as (_ & Hiss & _).
    exact Hiss. }
  intros vw Hvw. cbn [TokenPair.AccessToken TokenPair.RefreshToken].
  rewrite (Hva vw Hvw), (Hvr vw Hvw). cbv zeta.
  rewrite Ha6, Ha7, Hr6, Hr7. split; reflexivity.
Qed.

(** C4 (amended).  A pair minted at time [now] for any subject, email and
    name exists (with a 256-bit encryption key and a live context), and
    validating its access token while it is fresh recovers that subject,
    email and name as JSON hands them back: exactly, when the string is
    valid UTF-8, and otherwise with U+FFFD in place of every byte that is
    not.  The expiry is 24 hours after the issue time of the token, which is
    [now] cut to the second; the access token carries the scope
    ["openid profile email"].  The refresh token of the pair validates to
    the same subject, email and name with the expiry 7 days after the issue
    time, and its claim set has no scope entry. *)
Theorem validate_minted_tokens :
  forall (s : JWETokenService.t) (mw : MintWorld) (vwa vwr : ValidateWorld)
         (sub email name : string),
    List.length (JWETokenService.encryptionKey s) = 32%nat ->
    mw_ctx_Err mw = None ->
    0 <= mw_Now mw -> Unix (mw_Now mw) + 7 * 24 * 3600 < 2 ^ 53 ->
    vw_ctx_Err vwa = None ->
    mw_Now mw <= vw_Now_nbf vwa ->
    vw_Now_exp vwa <= time_Unix (Unix (Add (mw_Now mw) (24 * Hour))) ->
    vw_ctx_Err vwr = None ->
    mw_Now mw <= vw_Now_nbf vwr ->
    vw_Now_exp vwr <= time_Unix (Unix (Add (mw_Now mw) (7 * 24 * Hour))) ->
    exists (pair : TokenPair.t) (access refresh : Claims.t),
      GenerateTokenPair s mw sub email name = Ok pair /\
      ValidateToken s vwa (TokenPair.AccessToken pair) = Ok access /\
      Claims.Subject access = json_text sub /\ Claims.Email access = json_text email /\
      Claims.Name access = json_text name /\
      (utf8_ValidString sub = true -> Claims.Subject access = sub) /\
      (utf8_ValidString email = true -> Claims.Email access = email) /\
      (utf8_ValidString name = true -> Claims.Name access = name) /\
      Claims.IssuedAt access = time_Unix (Unix (mw_Now mw)) /\
      Claims.ExpiresAt access = Add (Claims.IssuedAt access) (24 * Hour) /\
      Add (mw_Now mw) (24 * Hour) - Second < Claims.ExpiresAt access <= Add (mw_Now mw) (24 * Hour) /\
      Claims.Scope access = "openid profile email" /\
      customClaims (accessClaims s (mw_Now mw) sub email name) !! "scope"
        = Some (VString "openid profile email") /\
      ValidateToken s vwr (TokenPair.RefreshToken pair) = Ok refresh /\
      Claims.Subject refresh = json_text sub /\ Claims.Email refresh = json_text email /\
      Claims.Name refresh = json_text name /\
      (utf8_ValidString sub = true -> Claims.Subject refresh = sub) /\
      (utf8_ValidString email = true -> Claims.Email refresh = email) /\
      (utf8_ValidString name = true -> Claims.Name refresh = name) /\
      Claims.ExpiresAt refresh = Add (Claims.IssuedAt refresh) (7 * 24 * Hour) /\
      Claims.Scope refresh = "" /\
      customClaims (refreshClaims s (mw_Now mw) sub email name) !! "scope" = None.
Proof.
  intros s mw vwa vwr sub email name Hk Hctx Hnow Hb Hca Hna Hea Hcr Hnr Her.
  set (now := mw_Now mw) in *.
  destruct (createEncryptedToken_validates s (mw_nonce_access mw)
              (accessClaims s now sub email name) Hk) as (ta & Hta & Hva).
  destruct (createEncryptedToken_validates s (mw_nonce_refresh mw)
              (refreshClaims s now sub email name) Hk) as (tr & Htr & Hvr).
  destruct (minted_claims s now (24 * 3600) (accessClaims s now sub email name))
    as (Ha1 & Ha2 & Ha3 & Ha4 & Ha5 & Ha6 & Ha7);
    [lia | lia | lia | reflexivity | reflexivity | reflexivity |].
  destruct (minted_claims s now (7 * 24 * 3600) (refreshClaims s now sub email name))
    as (Hr1 & Hr2 & Hr3 & Hr4 & Hr5 & Hr6 & Hr7);
    [lia | lia | lia | reflexivity | reflexivity | reflexivity |].
  pose proof (time_Unix_floor now) as Hfl.
  assert (Hxa : Unix (Add now (24 * Hour)) = Unix now + 24 * 3600)
    by (rewrite <- Unix_Add_seconds; reflexivity).
  assert (Hxr : Unix (Add now (7 * 24 * Hour)) = Unix now + 7 * 24 * 3600)
    by (rewrite <- Unix_Add_seconds; reflexivity).
  rewrite Hxa in Hea. rewrite Hxr in Her.
  exists (TokenPair.mk ta tr "" "Bearer" 86400 "openid profile email").
  exists (claims_of_raw (json_view <$> customClaims (accessClaims s now sub email name))).
  exists (claims_of_raw (json_view <$> customClaims (refreshClaims s now sub email name))).
  cbn [Claims.Subject Claims.Email Claims.Name Claims.Scope accessClaims refreshClaims
         TokenPair.AccessToken TokenPair.RefreshToken] in *.
  split.
  { unfold GenerateTokenPair. rewrite Hctx. fold now. rewrite Hta, Htr. reflexivity. }
  split.
  { rewrite (Hva vwa Hca). cbv zeta. rewrite Ha7, Ha6. unfold After, Before.
    replace (_ <? vw_Now_exp vwa) with false by (symmetry; apply Z.ltb_ge; lia).
    replace (vw_Now_nbf vwa <? _) with false by (symmetry; apply Z.ltb_ge; lia).
    reflexivity. }
  rewrite Ha1, Ha2, Ha3, Ha4, Ha5, Ha7, Hr1, Hr2, Hr3, Hr4, Hr5, Hr7.
  rewrite !scope_claim. cbn [Claims.Scope String.eqb Ascii.eqb Bool.eqb].
  repeat split; try reflexivity; try (intros Hv; apply json_text_valid; exact Hv).
  - unfold Add, time_Unix, Hour, Minute, Second. lia.
  - unfold Add, time_Unix, Hour, Minute, Second in *. lia.
  - unfold Add, time_Unix, Hour, Minute, Second in *. lia.
  - rewrite (Hvr vwr Hcr). cbv zeta. rewrite Hr7, Hr6. unfold After, Before.
    replace (_ <? vw_Now_exp vwr) with false by (symmetry; apply Z.ltb_ge; lia).
    replace (vw_Now_nbf vwr <? _) with false by (symmetry; apply Z.ltb_ge; lia).
    reflexivity.
  - unfold Add, time_Unix, Hour, Minute, Second. lia.
Qed.

End MintThenValidate.

Lemma validate_minted_tokens_witness :
  exists (pair : TokenPair.t) (access : Claims.t),
    GenerateTokenPair ToyJose.service ToyJose.minting "acct-1" "a@x" "A" = Ok pair /\
    ValidateToken ToyJose.service (ToyJose.validating 60) (TokenPair.AccessToken pair)
      = Ok access /\
    Claims.Subject access = "acct-1" /\ Claims.Email access = "a@x" /\
    Claims.Name access = "A" /\
    Claims.ExpiresAt access = (1700000000 + 86400) * Second.
Proof.
  destruct (validate_minted_tokens (J := ToyJose.jose) ToyJose.service ToyJose.minting
              (ToyJose.validating 60) (ToyJose.validating 3600) "acct-1" "a@x" "A")
    as (pair & access & refresh & H1 & H2 & _ & _ & _ & H3 & H4 & H5 & H6 & H7 & _).
  - reflexivity.
  - reflexivity.
  - vm_compute. discriminate.
  - vm_compute. reflexivity.
  - reflexivity.
  - vm_compute. discriminate.
  - vm_compute. discriminate.
  - reflexivity.
  - vm_compute. discriminate.
  - vm_compute. discriminate.
  - exists pair, access. rewrite H7, H6.
    split; [exact H1|]. split; [exact H2|].
    split; [apply H3; reflexivity|]. split; [apply H4; reflexivity|].
    split; [apply H5; reflexivity|]. reflexivity.
Defined.

(** C4 (as stated, refuted).  With the reference library, a pair is minted
    for a name of the three bytes 41 FF 42; its access token validates, and
    the name of the claims is the five bytes 41 EF BF BD 42, not the name
    the pair was minted for. *)
Lemma minted_name_is_not_recovered :
  exists (pair : TokenPair.t) (access : Claims.t),
    GenerateTokenPair ToyJose.service ToyJose.minting "acct-1" "a@x" ToyJose.broken_name
    = Ok pair /\
    ValidateToken ToyJose.service (ToyJose.validating 60) (TokenPair.AccessToken pair)
    = Ok access /\
    Claims.Subject access = "acct-1" /\
    Claims.Name access = string_of_bytes [65; 239; 191; 189; 66] /\
    Claims.Name access <> ToyJose.broken_name.
Proof.
  destruct (minted_pair_validation (J := ToyJose.jose) ToyJose.service ToyJose.minting
              "acct-1" "a@x" ToyJose.broken_name)
    as (pair & access & refresh & Hgen & Hsub & _ & Hname & _ & _ & _ & _ & Hval).
  - reflexivity.
  - reflexivity.
  - vm_compute. discriminate.
  - vm_compute. reflexivity.
  - exists pair, access. split; [exact Hgen|].
    destruct (Hval (ToyJose.validating 60) eq_refl) as [Hv _].
    split; [rewrite Hv; reflexivity|].
    split; [rewrite Hsub; reflexivity|].
    rewrite Hname. split; [reflexivity | discriminate].
Qed.

(** ** Key derivation and start-up *)

Section KeyDerivation.

Implicit Types (rt : Runtime) (secret : string).

Lemma length_bytes_of_string (s : string) :
  List.length (bytes_of_string s) = String.length s.
Proof.
  unfold bytes_of_string. rewrite List.length_map.
  induction s as [|c s IH]; simpl; [reflexivity | rewrite IH; reflexivity].
Qed.

Lemma length_append (s t : string) :
  String.length (s +:+ t) = (String.length s + String.length t)%nat.
Proof. induction s as [|c s IH]; simpl; [reflexivity | rewrite IH; reflexivity]. Qed.

Lemma bytes_slice_to_in_range rt (s : string) (hi : nat) :
  (hi <= String.length s)%nat ->
  bytes_slice_to rt s hi = Returned (List.firstn hi (bytes_of_string s)).
Proof.
  intros H. unfold bytes_slice_to.
  rewrite List.length_app, length_bytes_of_string.
  replace (hi <=? _)%nat with true by (symmetry; apply Nat.leb_le; lia).
  rewrite List.firstn_app, length_bytes_of_string.
  replace (hi - String.length s)%nat with 0%nat by lia.
  simpl. rewrite List.app_nil_r. reflexivity.
Qed.

Lemma bytes_slice_to_exact_fit_short (s : string) (hi : nat) :
  (String.length s < hi)%nat ->
  bytes_slice_to exact_fit s hi = Panicked "runtime error: slice bounds out of range".
Proof.
  intros H. unfold bytes_slice_to. simpl.
  rewrite List.app_nil_r, length_bytes_of_string.
  replace (hi <=? _)%nat with false by (symmetry; apply Nat.leb_gt; lia).
  reflexivity.
Qed.

Lemma copy_full (src : list Z) (n : nat) :
  List.length src = n -> copy (make_bytes n) src = src.
Proof.
  intros H. unfold copy, make_bytes. rewrite List.repeat_length, H, Nat.min_id.
  rewrite <- H at 1. rewrite List.firstn_all.
  rewrite List.skipn_all2 by (rewrite List.repeat_length; lia).
  apply List.app_nil_r.
Qed.

(** With a secret whose suffixed forms have 32 bytes or more the constructor
    returns, whatever the run-time system, and each key is the 32-byte
    prefix of its input. *)
Lemma NewJWETokenService_long rt secret issuer audience :
  (32 <= String.length secret + 4)%nat ->
  NewJWETokenService rt secret issuer audience =
  Returned (JWETokenService.mk
              (List.firstn 32 (bytes_of_string (secret +:+ "_enc")))
              (List.firstn 32 (bytes_of_string (secret +:+ "_sig")))
              issuer audience).
Proof.
  intros H. unfold NewJWETokenService.
  rewrite !bytes_slice_to_in_range by (rewrite length_append; simpl; lia).
  rewrite !copy_full; [reflexivity | |];
    rewrite List.length_firstn, length_bytes_of_string, length_append;
    change (String.length "_sig") with 4%nat; change (String.length "_enc") with 4%nat; lia.
Qed.

(** The constructor has no error result: with a non-empty secret start-up
    never ends in a configuration error. *)
Lemma startup_no_error rt (env : gmap string string) :
  Getenv env "JWE_SECRET" <> "" ->
  match startup rt env with ConfigError _ => False | _ => True end.
Proof.
  intros H. unfold startup, LoadConfig.
  apply String.eqb_neq in H. rewrite H.
  destruct (NewJWETokenService _ _ _ _); exact I.
Qed.

Lemma append_suffix_inj (s t u : string) : s +:+ t = s +:+ u -> t = u.
Proof. induction s as [|c s IH]; simpl; intros H; [exact H | injection H; auto]. Qed.

End KeyDerivation.

(** C5 (the defect).  With [JWE_SECRET=short] the loader accepts the
    configuration; the suffixed secret has 9 bytes, so the slice [[:32]] is
    out of the range the language guarantees and the constructor panics.
    Under no run-time system does start-up end in a configuration error. *)
Theorem short_secret_startup :
  LoadConfig {["JWE_SECRET" := "short"]}
    = Ok (Config.mk ":8080" "short" "auth0-server" "localhost:8080")
  /\ startup exact_fit {["JWE_SECRET" := "short"]}
    = Crashed "runtime error: slice bounds out of range"
  /\ forall rt : Runtime,
       match startup rt {["JWE_SECRET" := "short"]} with
       | ConfigError _ => False
       | _ => True
       end.
Proof.
  split; [vm_compute; reflexivity|]. split; [vm_compute; reflexivity|].
  intros rt. apply startup_no_error. vm_compute. discriminate.
Qed.

(** C5 (the part that holds).  For a secret whose suffixed forms have at
    least 32 bytes, the two derived keys have exactly 32 bytes each and are
    cut from distinct inputs, the secret followed by ["_enc"] and by
    ["_sig"]. *)
Theorem derived_keys_of_long_secret :
  forall (rt : Runtime) (secret issuer : string) (audience : option (list string)),
    (32 <= String.length (secret +:+ "_enc"))%nat ->
    exists svc : JWETokenService.t,
      NewJWETokenService rt secret issuer audience = Returned svc /\
      List.length (JWETokenService.encryptionKey svc) = 32%nat /\
      List.length (JWETokenService.signingKey svc) = 32%nat /\
      JWETokenService.encryptionKey svc = List.firstn 32 (bytes_of_string (secret +:+ "_enc")) /\
      JWETokenService.signingKey svc = List.firstn 32 (bytes_of_string (secret +:+ "_sig")) /\
      secret +:+ "_enc" <> secret +:+ "_sig".
Proof.
  intros rt secret issuer audience H. rewrite length_append in H. simpl in H.
  eexists. split; [apply NewJWETokenService_long; lia|]. simpl.
  repeat split.
  - rewrite List.length_firstn, length_bytes_of_string, length_append.
    change (String.length "_enc") with 4%nat. lia.
  - rewrite List.length_firstn, length_bytes_of_string, length_append.
    change (String.length "_sig") with 4%nat. lia.
  - intros E. apply append_suffix_inj in E. discriminate.
Qed.

Lemma derived_keys_of_long_secret_witness :
  exists svc : JWETokenService.t,
    NewJWETokenService exact_fit "0123456789abcdef0123456789ab" "auth0-server" None
      = Returned svc /\
    List.length (JWETokenService.encryptionKey svc) = 32%nat /\
    List.length (JWETokenService.signingKey svc) = 32%nat.
Proof.
  destruct (derived_keys_of_long_secret exact_fit "0123456789abcdef0123456789ab"
              "auth0-server" None) as (svc & H1 & H2 & H3 & _).
  - vm_compute. reflexivity.
  - exists svc. auto.
Defined.

(** When the secret alone has 32 bytes or more, the suffixes fall outside
    the prefix that is kept and the two keys coincide. *)
Remark derived_keys_coincide :
  forall (rt : Runtime) (secret issuer : string) (audience : option (list string)),
    (32 <= String.length secret)%nat ->
    NewJWETokenService rt secret issuer audience =
    Returned (JWETokenService.mk (List.firstn 32 (bytes_of_string secret))
                (List.firstn 32 (bytes_of_string secret)) issuer audience).
Proof.
  intros rt secret issuer audience H.
  rewrite NewJWETokenService_long by lia.
  assert (P : forall suffix, List.firstn 32 (bytes_of_string (secret +:+ suffix))
                             = List.firstn 32 (bytes_of_string secret)).
  { intros suffix. unfold bytes_of_string.
    assert (A : list_ascii_of_string (secret +:+ suffix)
                = (list_ascii_of_string secret ++ list_ascii_of_string suffix)%list).
    { clear H. induction secret as [|c s IH]; simpl; [reflexivity | rewrite IH; reflexivity]. }
    rewrite A, List.map_app, List.firstn_app, List.length_map.
    replace (List.length (list_ascii_of_string secret)) with (String.length secret)
      by (clear; induction secret as [|c s IH]; simpl; [reflexivity | rewrite <- IH; reflexivity]).
    replace (32 - String.length secret)%nat with 0%nat by lia.
    simpl. apply List.app_nil_r. }
  rewrite !P. reflexivity.
Qed.

(** ** The authorization endpoint: rejected requests *)

Section AuthorizeFacts.

Context {U : NetURL}.

Lemma http_Redirect_nil_request (w : ResponseWriter.t) (url : string) (code : Z) :
  ResponseWriter.Header w !! "Content-Type" = None ->
  http_Redirect w None url code = Panicked nil_dereference.
Proof.
  intros H. unfold http_Redirect. rewrite H.
  destruct (url_relative url); [reflexivity|].
  rewrite bool_decide_eq_false_2; [reflexivity|].
  intros [x Hx]. discriminate.
Qed.

(** The error code of each rejection, as the specification lists them. *)
Lemma authorize_rejection_codes (r : Request.t) :
  (Request.Query_Get r "response_type" <> "code" ->
     fst <$> authorize_rejection r = Some "unsupported_response_type") /\
  (Request.Query_Get r "response_type" = "code" ->
   Request.Query_Get r "client_id" = "" \/ Request.Query_Get r "redirect_uri" = "" \/
   Request.Query_Get r "code_challenge" = "" ->
     fst <$> authorize_rejection r = Some "invalid_request") /\
  (Request.Query_Get r "response_type" = "code" ->
   Request.Query_Get r "client_id" <> "" -> Request.Query_Get r "redirect_uri" <> "" ->
   Request.Query_Get r "code_challenge" <> "" ->
   Request.Query_Get r "code_challenge_method" <> "S256" ->
     fst <$> authorize_rejection r = Some "invalid_request") /\
  (Request.Query_Get r "response_type" = "code" ->
   Request.Query_Get r "client_id" <> "" -> Request.Query_Get r "redirect_uri" <> "" ->
   Request.Query_Get r "code_challenge" <> "" ->
   Request.Query_Get r "code_challenge_method" = "S256" ->
     authorize_rejection r = None).
Proof.
  unfold authorize_rejection.
  repeat split.
  - intros H. apply String.eqb_neq in H. rewrite H. reflexivity.
  - intros -> H. simpl.
    destruct H as [-> | [-> | ->]]; simpl; rewrite ?orb_true_r; reflexivity.
  - intros -> H1 H2 H3 H4.
    apply String.eqb_neq in H1, H2, H3, H4. rewrite H1, H2, H3, H4. reflexivity.
  - intros -> H1 H2 H3 ->.
    apply String.eqb_neq in H1, H2, H3. rewrite H1, H2, H3. reflexivity.
Qed.

End AuthorizeFacts.

(** C6 (the defect).  A rejected authorization request that carries a
    redirect URI is answered by calling [http.Redirect] with a nil request
    on a response that has no Content-Type yet: the call panics and no
    redirect is written.  Only the rejection without a redirect URI is
    delivered as the specification says, as a 400 JSON body with the mapped
    error code. *)
Theorem authorize_rejection_delivery :
  forall (U : NetURL) (iw : IssueWorld) (codes : gmap string AuthorizationCode.t)
         (w : ResponseWriter.t) (r : Request.t),
    (forall errorCode errorDescription,
       Request.Method r = "GET" \/ Request.Method r = "POST" ->
       authorize_rejection r = Some (errorCode, errorDescription) ->
       ResponseWriter.Header w !! "Content-Type" = None ->
       (Request.Query_Get r "redirect_uri" <> "" ->
          AuthorizeHandler iw codes w r = (Panicked nil_dereference, codes)) /\
       (Request.Query_Get r "redirect_uri" = "" ->
          AuthorizeHandler iw codes w r =
          (Returned (ResponseWriter.Write
                       (JSONObject (error_object errorCode errorDescription))
                       (ResponseWriter.WriteHeader StatusBadRequest
                          (ResponseWriter.Header_Set "Content-Type" "application/json" w))),
           codes)))
    /\ fst (AuthorizeHandler iw codes ResponseWriter.fresh Examples.implicit_request)
       = Panicked nil_dereference
    /\ response_status (fst (AuthorizeHandler iw codes ResponseWriter.fresh
                                Examples.implicit_request_no_uri))
         = Some StatusBadRequest
    /\ response_field (fst (AuthorizeHandler iw codes ResponseWriter.fresh
                               Examples.implicit_request_no_uri)) "error"
         = Some (FString "unsupported_response_type").
Proof.
  intros U iw codes w r. split; [|split; [|split]].
  - intros errorCode errorDescription Hm Hrej Hct.
    assert (Hmeth : negb (String.eqb (Request.Method r) "GET")
                    && negb (String.eqb (Request.Method r) "POST") = false).
    { destruct Hm as [-> | ->]; reflexivity. }
    unfold AuthorizeHandler. rewrite Hmeth, Hrej. unfold sendAuthorizationError.
    split.
    + intros Hne. apply String.eqb_neq in Hne. rewrite Hne.
      rewrite http_Redirect_nil_request by exact Hct. reflexivity.
    + intros ->. reflexivity.
  - unfold AuthorizeHandler. simpl.
    replace (authorize_rejection Examples.implicit_request)
      with (Some ("unsupported_response_type", "Only 'code' response type is supported"))
      by (vm_compute; reflexivity).
    unfold sendAuthorizationError.
    replace (String.eqb (Request.Query_Get Examples.implicit_request "redirect_uri") "")
      with false by (vm_compute; reflexivity).
    rewrite http_Redirect_nil_request by reflexivity. reflexivity.
  - vm_compute. reflexivity.
  - vm_compute. reflexivity.
Qed.

(** ** Signup *)

Section SignupFacts.

Implicit Types (aw : AccountWorld) (accounts : gmap string Account.t).

Lemma prefix_refl (s : string) : String.prefix s s = true.
Proof.
  induction s as [|c s IH]; simpl; [reflexivity|].
  destruct (ascii_dec c c); [exact IH | contradiction].
Qed.

Lemma prefix_append (s t : string) : String.prefix s (s +:+ t) = true.
Proof.
  induction s as [|c s IH]; simpl; [destruct t; reflexivity|].
  destruct (ascii_dec c c); [exact IH | contradiction].
Qed.

Lemma Contains_unfold (s sub : string) :
  Contains s sub =
  if String.prefix sub s then true
  else match s with
       | EmptyString => false
       | String _ s' => Contains s' sub
       end.
Proof. destruct s; reflexivity. Qed.

Lemma Contains_append (x sub y : string) : Contains (x +:+ sub +:+ y) sub = true.
Proof.
  induction x as [|c x IH].
  - change ("" +:+ sub +:+ y) with (sub +:+ y).
    rewrite Contains_unfold, prefix_append. reflexivity.
  - change (String c x +:+ sub +:+ y) with (String c (x +:+ sub +:+ y)).
    rewrite Contains_unfold, IH. destruct (String.prefix sub _); reflexivity.
Qed.

Lemma append_assoc (a b c : string) : (a +:+ b) +:+ c = a +:+ (b +:+ c).
Proof.
  induction a as [|x a IH]; [reflexivity|].
  change (String x ((a +:+ b) +:+ c) = String x (a +:+ (b +:+ c))).
  f_equal. exact IH.
Qed.

Lemma already_exists_message (prefix subject : string) :
  Contains (prefix +:+ subject +:+ " already exists") "already exists" = true.
Proof.
  replace (prefix +:+ subject +:+ " already exists")
    with ((prefix +:+ subject +:+ " ") +:+ "already exists" +:+ "")
    by (rewrite !append_assoc; reflexivity).
  apply Contains_append.
Qed.

Lemma CreateAccount_short_password aw accounts (email password name : string) :
  aw_ctx_Err aw = None -> email <> "" -> password <> "" ->
  (String.length password < 8)%nat ->
  CreateAccount aw accounts email password name =
  (Err "password must be at least 8 characters", accounts).
Proof.
  intros Hc He Hp Hl. unfold CreateAccount. rewrite Hc.
  apply String.eqb_neq in He, Hp. rewrite He, Hp.
  replace (String.length password <? 8)%nat with true
    by (symmetry; apply Nat.ltb_lt; exact Hl).
  reflexivity.
Qed.

(** A successful [CreateAccount] returns and stores the account it built:
    verified, not blocked, the nickname equal to the name. *)
Lemma CreateAccount_Ok aw accounts (email password name : string) acc accounts' :
  CreateAccount aw accounts email password name = (Ok acc, accounts') ->
  Account.Email acc = email /\ Account.Name acc = name /\
  Account.Nickname acc = name /\ Account.Verified acc = true /\
  Account.Blocked acc = false /\
  Account.CreatedAt acc = aw_Now_created aw /\
  aw_Generate aw = Ok (Account.ID acc) /\
  aw_Hash aw password = Ok (Account.Password acc) /\
  (8 <= String.length password)%nat /\
  accounts !! Account.ID acc = None /\
  accounts' = <[Account.ID acc := acc]> accounts.
Proof.
  unfold CreateAccount, InMemoryAccountRepository.Create. intros H.
  repeat case_match; simplify_eq/=.
  repeat split; try assumption; try reflexivity.
  match goal with H : (_ <? _)%nat = false |- _ => apply Nat.ltb_ge in H; exact H end.
Qed.

End SignupFacts.

(** C9 (the defect).  A signup whose password is shorter than 8 characters
    is refused by the use case, and the handler answers 500 with
    [server_error], not 400 with [invalid_request].  The other outcomes are
    as the specification says: 400 [invalid_request] for a missing email or
    password, 409 [account_exists] for an email already in the store, and
    201 with the five fields for a created account. *)
Theorem signup_responses :
  forall (aw : AccountWorld) (accounts : gmap string Account.t) (w : ResponseWriter.t)
         (email password name : string),
    let out := SignupHandler aw accounts w (Examples.signup email password name) in
    (email = "" \/ password = "" ->
       out = (sendError w (AppError.WithMessage ErrInvalidRequest
                             "email and password are required") StatusBadRequest, accounts)) /\
    (aw_ctx_Err aw = None -> email <> "" -> password <> "" ->
     (String.length password < 8)%nat ->
       out = (sendError w ErrInternalServerError StatusInternalServerError, accounts)) /\
    (aw_ctx_Err aw = None -> aw_ctx_Err_GetByEmail aw = None ->
     email <> "" -> (8 <= String.length password)%nat ->
     InMemoryAccountRepository.has_email accounts email = true ->
       out = (sendError w ErrUserExists StatusConflict, accounts)) /\
    (forall acc accounts',
       CreateAccount aw accounts email password name = (Ok acc, accounts') ->
       out = (sendJSON w (signup_response acc) StatusCreated, accounts') /\
       signup_response acc !! "account_id" = Some (FString (Account.ID acc)) /\
       signup_response acc !! "email" = Some (FString email) /\
       signup_response acc !! "name" = Some (FString name) /\
       signup_response acc !! "email_verified" = Some (FBool (Account.Verified acc)) /\
       signup_response acc !! "created_at" = Some (FTime (Account.CreatedAt acc))).
Proof.
  intros aw accounts w email password name out. subst out.
  unfold SignupHandler, Examples.signup. simpl.
  split; [|split; [|split]].
  - intros [-> | ->]; simpl; rewrite ?orb_true_r; reflexivity.
  - intros Hc He Hp Hl.
    rewrite (CreateAccount_short_password _ _ _ _ _ Hc He Hp Hl).
    apply String.eqb_neq in He, Hp. rewrite He, Hp. reflexivity.
  - intros Hc Hg He Hl Hdup.
    assert (Hp : password <> "") by (intros ->; simpl in Hl; lia).
    assert (HC : CreateAccount aw accounts email password name =
                 (Err ("account with email " +:+ email +:+ " already exists"), accounts)).
    { unfold CreateAccount, InMemoryAccountRepository.GetByEmail,
        InMemoryAccountRepository.GetByEmail_visiting. rewrite Hc, Hg.
      apply String.eqb_neq in He, Hp. rewrite He, Hp.
      replace (String.length password <? 8)%nat with false
        by (symmetry; apply Nat.ltb_ge; exact Hl).
      unfold InMemoryAccountRepository.has_email in Hdup.
      apply List.existsb_exists in Hdup. destruct Hdup as (a & Hin & Ha).
      destruct (List.find _ _) as [found|] eqn:F; [reflexivity|].
      apply (List.find_none _ _ F) in Hin. congruence. }
    rewrite HC, already_exists_message.
    apply String.eqb_neq in He, Hp. rewrite He, Hp. reflexivity.
  - intros acc accounts' HC. rewrite HC.
    destruct (CreateAccount_Ok _ _ _ _ _ _ _ HC) as (He & Hn & _ & _ & _ & _ & _ & _ & Hl & _).
    assert (He' : String.eqb email "" = false).
    { apply String.eqb_neq. intros ->.
      unfold CreateAccount in HC. destruct (aw_ctx_Err aw); discriminate. }
    assert (Hp' : String.eqb password "" = false).
    { apply String.eqb_neq. intros ->. simpl in Hl. lia. }
    rewrite He', Hp'. simpl.
    unfold signup_response. rewrite He, Hn.
    repeat split; simplify_map_eq; reflexivity.
Qed.

(** C9, at the failing input: with a live context, [{"email": "a@x",
    "password": "short"}] is answered 500 [server_error]. *)
Example signup_short_password :
  status_of (fst (SignupHandler Examples.account_world ∅ ResponseWriter.fresh
                    (Examples.signup "a@x" "short" "A")))
    = Some StatusInternalServerError
  /\ json_field (fst (SignupHandler Examples.account_world ∅ ResponseWriter.fresh
                        (Examples.signup "a@x" "short" "A"))) "error"
    = Some (FString "server_error").
Proof. split; vm_compute; reflexivity. Qed.

(** A password of 73 bytes passes the length check of the use case, is
    refused by bcrypt, and the signup is answered 500 as well. *)
Example signup_long_password :
  status_of (fst (SignupHandler Examples.bcrypt_world ∅ ResponseWriter.fresh
                    (Examples.signup "a@x" ToyDigest.longer_password "A")))
    = Some StatusInternalServerError.
Proof. vm_compute. reflexivity. Qed.

(** C10.  When signup answers 201, the account it created is in the store
    with the verified flag set and the nickname equal to the name of the
    request, and the body reports [email_verified] as true. *)
Theorem signup_created_account_is_verified :
  forall (aw : AccountWorld) (accounts accounts' : gmap string Account.t)
         (w w' : ResponseWriter.t) (r : SignupRequest.t),
    ResponseWriter.Status w = None ->
    ResponseWriter.Body w = [] ->
    SignupHandler aw accounts w r = (w', accounts') ->
    status_of w' = Some StatusCreated ->
    exists (req : CreateAccountRequest.t) (acc : Account.t),
      SignupRequest.Decoded r = Ok req /\
      accounts !! Account.ID acc = None /\
      accounts' !! Account.ID acc = Some acc /\
      Account.Email acc = CreateAccountRequest.Email req /\
      Account.Name acc = CreateAccountRequest.Name req /\
      Account.Nickname acc = CreateAccountRequest.Name req /\
      Account.Verified acc = true /\
      json_field w' "account_id" = Some (FString (Account.ID acc)) /\
      json_field w' "email_verified" = Some (FBool true).
Proof.
  intros aw accounts accounts' w w' r Hs Hb H H201.
  unfold SignupHandler in H.
  assert (Herr : forall e c, status_of (sendError w e c) = Some c).
  { intros e c. unfold sendError, status_of, ResponseWriter.Write,
      ResponseWriter.WriteHeader, ResponseWriter.Header_Set. simpl. rewrite Hs. reflexivity. }
  destruct (negb (String.eqb (SignupRequest.Method r) "POST")).
  { injection H as <- <-. rewrite Herr in H201. discriminate. }
  destruct (SignupRequest.Decoded r) as [req|e] eqn:D.
  2: { injection H as <- <-. rewrite Herr in H201. discriminate. }
  destruct (_ || _).
  { injection H as <- <-. rewrite Herr in H201. discriminate. }
  destruct (CreateAccount _ _ _ _ _) as [[acc|e] accs] eqn:HC.
  2: { destruct (Contains e _); injection H as <- <-; rewrite Herr in H201; discriminate. }
  injection H as <- <-.
  destruct (CreateAccount_Ok _ _ _ _ _ _ _ HC)
    as (He & Hn & Hk & Hv & _ & _ & _ & _ & _ & Hfree & ->).
  exists req, acc. split; [reflexivity|].
  split; [exact Hfree|]. split; [apply lookup_insert_eq|].
  repeat (split; [assumption|]).
  unfold sendJSON, json_field, ResponseWriter.Write, ResponseWriter.WriteHeader,
    ResponseWriter.Header_Set, signup_response. simpl. rewrite Hs, Hb, Hv. simpl.
  split; simplify_map_eq; reflexivity.
Qed.

Lemma signup_created_account_is_verified_witness :
  exists (acc : Account.t),
    snd (SignupHandler Examples.account_world ∅ ResponseWriter.fresh
           (Examples.signup "a@x" "Passw0rd!" "A")) !! Account.ID acc = Some acc /\
    Account.Nickname acc = "A" /\
    Account.Verified acc = true /\
    json_field (fst (SignupHandler Examples.account_world ∅ ResponseWriter.fresh
                       (Examples.signup "a@x" "Passw0rd!" "A"))) "email_verified"
      = Some (FBool true).
Proof.
  destruct (signup_created_account_is_verified Examples.account_world ∅
              (snd (SignupHandler Examples.account_world ∅ ResponseWriter.fresh
                      (Examples.signup "a@x" "Passw0rd!" "A")))
              ResponseWriter.fresh
              (fst (SignupHandler Examples.account_world ∅ ResponseWriter.fresh
                      (Examples.signup "a@x" "Passw0rd!" "A")))
              (Examples.signup "a@x" "Passw0rd!" "A"))
    as (req & acc & Hd & _ & Hst & _ & _ & Hnick & Hv & _ & Hf).
  - reflexivity.
  - reflexivity.
  - apply surjective_pairing.
  - vm_compute. reflexivity.
  - injection Hd as <-. exists acc. simpl in Hnick. auto.
Defined.

(** ** Listing accounts *)

Section ListFacts.

Lemma effective_limit_range (limit : Z) : 1 <= effective_limit limit <= 100.
Proof.
  unfold effective_limit.
  destruct (limit <=? 0) eqn:A; destruct (100 <? _) eqn:B; lia.
Qed.

Lemma wrap64_small (z : Z) : - 2 ^ 63 <= z < 2 ^ 63 -> InMemoryAccountRepository.wrap64 z = z.
Proof.
  intros H. unfold InMemoryAccountRepository.wrap64.
  rewrite Z.mod_small by lia. lia.
Qed.

(** What the use case returns for the accounts in the order [visited]: the
    page of [effective_limit] accounts after the first [effective_offset]. *)
Lemma ListAccounts_page (visited : list Account.t) (limit offset : Z) :
  Z.of_nat (List.length visited) + 100 < 2 ^ 63 ->
  ListAccounts None None visited limit offset =
  Ok (Returned (List.firstn (Z.to_nat (effective_limit limit))
                  (List.skipn (Z.to_nat (effective_offset offset)) visited))).
Proof.
  intros Hlen. unfold ListAccounts, InMemoryAccountRepository.List.
  pose proof (effective_limit_range limit) as Hl.
  assert (Ho : 0 <= effective_offset offset)
    by (unfold effective_offset; destruct (offset <? 0) eqn:E; lia).
  set (L := effective_limit limit) in *. set (O := effective_offset offset) in *.
  set (len := Z.of_nat (List.length visited)) in *.
  assert (Hlen0 : 0 <= len) by (subst len; lia).
  destruct (len <? O) eqn:E1.
  - apply Z.ltb_lt in E1. rewrite wrap64_small by lia.
    replace (len <? len + L) with true by (symmetry; apply Z.ltb_lt; lia).
    unfold InMemoryAccountRepository.slice. fold len.
    replace ((0 <=? len) && (len <=? len) && (len <=? len)) with true
      by (symmetry; rewrite !andb_true_iff, !Z.leb_le; lia).
    f_equal. f_equal.
    rewrite !List.skipn_all2 by (subst len; lia).
    rewrite !List.firstn_nil. reflexivity.
  - apply Z.ltb_ge in E1. rewrite wrap64_small by lia.
    destruct (len <? O + L) eqn:E2.
    + apply Z.ltb_lt in E2.
      unfold InMemoryAccountRepository.slice. fold len.
      replace ((0 <=? O) && (O <=? len) && (len <=? len)) with true
        by (symmetry; rewrite !andb_true_iff, !Z.leb_le; lia).
      f_equal. f_equal.
      rewrite !List.firstn_all2; [reflexivity | |];
        rewrite List.length_skipn; subst len; lia.
    + apply Z.ltb_ge in E2.
      unfold InMemoryAccountRepository.slice. fold len.
      replace ((0 <=? O) && (O <=? O + L) && (O + L <=? len)) with true
        by (symmetry; rewrite !andb_true_iff, !Z.leb_le; lia).
      f_equal. f_equal. f_equal. lia.
Qed.

End ListFacts.

(** C8 (the defect).  The in-memory store hands the accounts over in the
    order of a map iteration, which is not fixed: for a store of two
    accounts both orders are possible, the two lists returned differ, and
    one of them is in created-at ascending order.  The limit and the offset
    are treated as the specification says: the page has at most
    [effective_limit] accounts, which is 10 for a limit of zero or less and
    never more than 100, and a negative offset counts as 0. *)
Theorem list_accounts_order_and_page :
  (InMemoryAccountRepository.range_order Examples.two_accounts
     [Examples.older; Examples.newer]
   /\ InMemoryAccountRepository.range_order Examples.two_accounts
        [Examples.newer; Examples.older]
   /\ ListAccounts None None [Examples.older; Examples.newer] 10 0
        = Ok (Returned [Examples.older; Examples.newer])
   /\ ListAccounts None None [Examples.newer; Examples.older] 10 0
        = Ok (Returned [Examples.newer; Examples.older])
   /\ ~ created_descending [Examples.older; Examples.newer])
  /\ forall (visited : list Account.t) (limit offset : Z),
       Z.of_nat (List.length visited) + 100 < 2 ^ 63 ->
       exists page,
         ListAccounts None None visited limit offset = Ok (Returned page) /\
         page = List.firstn (Z.to_nat (effective_limit limit))
                  (List.skipn (Z.to_nat (effective_offset offset)) visited) /\
         (List.length page <= 100)%nat /\
         (limit <= 0 -> effective_limit limit = 10) /\
         (100 < limit -> effective_limit limit = 100) /\
         (0 < limit <= 100 -> effective_limit limit = limit) /\
         (offset < 0 -> effective_offset offset = 0) /\
         (0 <= offset -> effective_offset offset = offset).
Proof.
  split.
  - assert (E : snd <$> map_to_list Examples.two_accounts
                = [Examples.older; Examples.newer]
                \/ snd <$> map_to_list Examples.two_accounts
                = [Examples.newer; Examples.older]).
    { vm_compute. auto. }
    unfold InMemoryAccountRepository.range_order.
    split; [|split; [|split; [|split]]].
    + destruct E as [-> | ->]; [reflexivity | apply perm_swap].
    + destruct E as [-> | ->]; [apply perm_swap | reflexivity].
    + vm_compute. reflexivity.
    + vm_compute. reflexivity.
    + intros H. unfold created_descending in H.
      apply Sorted_inv in H. destruct H as [_ H].
      apply HdRel_inv in H. vm_compute in H. apply H. reflexivity.
  - intros visited limit offset Hlen. eexists.
    split; [apply ListAccounts_page; exact Hlen|]. split; [reflexivity|].
    pose proof (effective_limit_range limit).
    split; [rewrite List.length_firstn; lia|].
    unfold effective_limit, effective_offset.
    repeat split; intros; repeat case_match; lia.
Qed.

(** ** The password hasher *)

Lemma pack_inj {A} `{Countable A} (a b : A) : ToyJose.pack a = ToyJose.pack b -> a = b.
Proof.
  intros E. assert (S : Some a = Some b); [|congruence].
  rewrite <- (unpack_pack a), <- (unpack_pack b), E. reflexivity.
Qed.

#[global] Instance ToyDigest_laws : bcrypt.DigestLaws ToyDigest.digest.
Proof.
  split; simpl.
  - intros c s k _ _. unfold ToyDigest.parse_hash, ToyDigest.hash_string. simpl.
    change ("" +:+ ToyJose.pack (c, s, k)) with (ToyJose.pack (c, s, k)).
    rewrite unpack_pack. reflexivity.
  - intros c s k. unfold ToyDigest.hash_string. discriminate.
Qed.

(** The reference digest spells out the key material, so its verifiers
    differ whenever the key materials do. *)
Lemma ToyDigest_hash_string_inj (c : Z) (s k k' : list Z) :
  ToyDigest.hash_string c s k = ToyDigest.hash_string c s k' -> k = k'.
Proof.
  intros E. unfold ToyDigest.hash_string in E. simpl in E.
  injection E as E. apply pack_inj in E. congruence.
Qed.

Section KeyStream.

Implicit Types (p q : list Z).

Lemma key_stream_lookup p (i : nat) :
  (i < 72)%nat ->
  bcrypt.key_stream p !! i
  = Some (List.nth (i mod (List.length p + 1)) (p ++ [0])%list 0).
Proof.
  intros Hi. unfold bcrypt.key_stream.
  rewrite list_lookup_fmap, lookup_seq_lt by exact Hi.
  simpl. rewrite List.length_app. reflexivity.
Qed.

Lemma key_stream_password p (i : nat) :
  (List.length p <= 72)%nat -> (i < List.length p)%nat ->
  bcrypt.key_stream p !! i = p !! i.
Proof.
  intros Hp Hi. rewrite key_stream_lookup by lia.
  rewrite Nat.mod_small by lia.
  rewrite List.app_nth1 by exact Hi.
  destruct (lookup_lt_is_Some_2 p i Hi) as [x Hx].
  rewrite Hx. f_equal. apply nth_lookup_Some with (d := 0) in Hx. exact Hx.
Qed.

Lemma key_stream_terminator p :
  (List.length p < 72)%nat -> bcrypt.key_stream p !! List.length p = Some 0.
Proof.
  intros Hp. rewrite key_stream_lookup by exact Hp.
  rewrite Nat.mod_small by lia.
  rewrite List.app_nth2 by lia. rewrite Nat.sub_diag. reflexivity.
Qed.

Lemma key_stream_shorter p q :
  (List.length p < List.length q)%nat -> (List.length q <= 72)%nat ->
  List.Forall (fun b => b <> 0) q ->
  bcrypt.key_stream p <> bcrypt.key_stream q.
Proof.
  intros Hlt Hq Hnz E.
  pose proof (key_stream_terminator p ltac:(lia)) as T.
  rewrite E, key_stream_password in T by lia.
  rewrite List.Forall_forall in Hnz.
  apply (Hnz 0); [|reflexivity].
  apply list_elem_of_In. eapply list_elem_of_lookup_2. exact T.
Qed.

(** Passwords of at most 72 bytes without NUL bytes have the same key
    material only when they are equal. *)
Lemma key_stream_inj p q :
  (List.length p <= 72)%nat -> (List.length q <= 72)%nat ->
  List.Forall (fun b => b <> 0) p -> List.Forall (fun b => b <> 0) q ->
  bcrypt.key_stream p = bcrypt.key_stream q -> p = q.
Proof.
  intros Hp Hq Zp Zq E.
  destruct (Nat.lt_trichotomy (List.length p) (List.length q)) as [H | [H | H]].
  - exfalso. exact (key_stream_shorter p q H Hq Zq E).
  - apply list_eq. intros i.
    destruct (decide (i < List.length p)%nat) as [Hi | Hi].
    + rewrite <- (key_stream_password p i Hp Hi), E.
      apply key_stream_password; lia.
    + rewrite !lookup_ge_None_2 by lia. reflexivity.
  - exfalso. exact (key_stream_shorter q p H Hp Zp (eq_sym E)).
Qed.

Lemma byte_of_ascii_inj (a b : ascii) : byte_of_ascii a = byte_of_ascii b -> a = b.
Proof.
  unfold byte_of_ascii. intros E. apply N2Z.inj in E.
  rewrite <- (ascii_N_embedding a), <- (ascii_N_embedding b), E. reflexivity.
Qed.

Lemma bytes_of_string_inj (s t : string) : bytes_of_string s = bytes_of_string t -> s = t.
Proof.
  unfold bytes_of_string. revert t.
  induction s as [|a s IH]; intros [|b t]; simpl; intros E; try discriminate.
  - reflexivity.
  - injection E as E1 E2. apply byte_of_ascii_inj in E1. apply IH in E2. congruence.
Qed.

End KeyStream.

Section HasherFacts.

Context {D : bcrypt.Digest} {L : bcrypt.DigestLaws D}.

Implicit Types (h : BcryptPasswordHasher.t) (salt : list Z).

Lemma length_zero_iff (s : string) : (String.length s =? 0)%nat = true <-> s = "".
Proof. destruct s; simpl; split; intros; congruence. Qed.

Lemma Hash_Ok h salt (P v : string) :
  BcryptPasswordHasher.Hash h salt P = Ok v ->
  P <> "" /\ (String.length P <= 72)%nat /\
  exists c, bcrypt.MinCost <= c <= bcrypt.MaxCost /\
    v = bcrypt.hash_string c salt (bcrypt.key_stream (bytes_of_string P)).
Proof.
  unfold BcryptPasswordHasher.Hash, bcrypt.GenerateFromPassword.
  rewrite length_bytes_of_string.
  destruct (String.length P =? 0)%nat eqn:E0; [discriminate|].
  destruct (72 <? String.length P)%nat eqn:E72; [discriminate|].
  destruct (bcrypt.MaxCost <? _) eqn:Emax; [discriminate|].
  intros [= <-]. apply Nat.ltb_ge in E72. apply Z.ltb_ge in Emax.
  split; [intros ->; discriminate|]. split; [exact E72|]. eexists.
  split; [|reflexivity].
  split; [|exact Emax].
  unfold bcrypt.MinCost, bcrypt.DefaultCost.
  destruct (BcryptPasswordHasher.cost h <? 4) eqn:Emin;
    [lia | apply Z.ltb_ge in Emin; exact Emin].
Qed.

(** Against a verifier made with cost [c] and salt [salt], a non-empty
    password compares equal exactly when the digest gives that verifier for
    its key material under the same cost and salt. *)
Lemma Compare_hash_string h (c : Z) salt (k : list Z) (Q : string) :
  bcrypt.MinCost <= c <= bcrypt.MaxCost -> List.length salt = 16%nat ->
  Q <> "" ->
  BcryptPasswordHasher.Compare h (bcrypt.hash_string c salt k) Q = None <->
  bcrypt.hash_string c salt (bcrypt.key_stream (bytes_of_string Q))
  = bcrypt.hash_string c salt k.
Proof.
  intros Hc Hs HQ. unfold BcryptPasswordHasher.Compare, bcrypt.CompareHashAndPassword.
  replace (String.length Q =? 0)%nat with false
    by (symmetry; apply not_true_is_false; rewrite length_zero_iff; exact HQ).
  replace (String.length (bcrypt.hash_string c salt k) =? 0)%nat with false
    by (symmetry; apply not_true_is_false; rewrite length_zero_iff;
        apply bcrypt.hash_string_nonempty).
  simpl. rewrite bcrypt.parse_hash_string by assumption.
  destruct (String.eqb _ _) eqn:E.
  - apply String.eqb_eq in E. tauto.
  - apply String.eqb_neq in E. split; [discriminate | contradiction].
Qed.

End HasherFacts.

(** C7 (as stated, refuted).  With the reference digest, a 72-byte password
    hashes to a verifier that a different, 73-byte password with the same
    first 72 bytes compares equal to. *)
Lemma compare_accepts_longer_password :
  exists v : string,
    BcryptPasswordHasher.Hash ToyDigest.hasher ToyDigest.salt ToyDigest.long_password = Ok v
    /\ BcryptPasswordHasher.Compare ToyDigest.hasher v ToyDigest.longer_password = None
    /\ ToyDigest.long_password <> ToyDigest.longer_password.
Proof.
  eexists. split; [reflexivity|]. split.
  - apply Compare_hash_string;
      first [ vm_compute; reflexivity
            | vm_compute; discriminate
            | vm_compute; split; discriminate ].
  - discriminate.
Qed.

(** C7 (amended).  Whenever [Hash] returns a verifier for [P] (which needs
    [P] non-empty and of at most 72 bytes), [Compare] accepts [P]; it
    accepts a password [Q] exactly when [Q] is not empty and bcrypt gives,
    for the key material of [Q] under the cost and the salt of the verifier,
    that same verifier.  So it accepts every non-empty [Q] that shares the
    key material of [P], and a [Q] different from [P], both free of NUL bytes
    and [Q] of at most 72 bytes, only when bcrypt gives one verifier for two
    different key materials: the mismatch of different passwords holds as
    far as bcrypt is free of collisions, not unconditionally.  Hashing the
    empty password fails with an error, and so does hashing a password of
    more than 72 bytes. *)
Theorem hash_then_compare :
  forall (D : bcrypt.Digest) (L : bcrypt.DigestLaws D) (h h' : BcryptPasswordHasher.t)
         (salt : list Z) (P v : string),
    List.length salt = 16%nat ->
    BcryptPasswordHasher.Hash h salt P = Ok v ->
    BcryptPasswordHasher.Compare h' v P = None
    /\ (exists c, bcrypt.MinCost <= c <= bcrypt.MaxCost /\
          v = bcrypt.hash_string c salt (bcrypt.key_stream (bytes_of_string P)) /\
          forall Q, BcryptPasswordHasher.Compare h' v Q = None <->
                    Q <> "" /\
                    bcrypt.hash_string c salt (bcrypt.key_stream (bytes_of_string Q)) = v)
    /\ (forall Q, Q <> "" ->
                  bcrypt.key_stream (bytes_of_string Q)
                  = bcrypt.key_stream (bytes_of_string P) ->
                  BcryptPasswordHasher.Compare h' v Q = None)
    /\ (forall Q, Q <> P -> (String.length Q <= 72)%nat -> NUL_free P -> NUL_free Q ->
                  BcryptPasswordHasher.Compare h' v Q = None ->
                  exists c,
                    bcrypt.key_stream (bytes_of_string Q)
                    <> bcrypt.key_stream (bytes_of_string P) /\
                    bcrypt.hash_string c salt (bcrypt.key_stream (bytes_of_string Q))
                    = bcrypt.hash_string c salt (bcrypt.key_stream (bytes_of_string P)))
    /\ BcryptPasswordHasher.Hash h salt "" = Err "password cannot be empty"
    /\ (forall P', (72 < String.length P')%nat ->
          BcryptPasswordHasher.Hash h salt P'
          = Err ("failed to hash password: " +:+ bcrypt.ErrPasswordTooLong)).
Proof.
  intros D L h h' salt P v Hsalt HH.
  destruct (Hash_Ok _ _ _ _ HH) as (HP & Hlen & c & Hc & ->).
  set (kP := bcrypt.key_stream (bytes_of_string P)).
  assert (Hiff : forall Q, BcryptPasswordHasher.Compare h' (bcrypt.hash_string c salt kP) Q
                           = None <->
                 Q <> "" /\
                 bcrypt.hash_string c salt (bcrypt.key_stream (bytes_of_string Q))
                 = bcrypt.hash_string c salt kP).
  { intros Q. destruct (decide (Q = "")) as [-> | HQ].
    - split; [|tauto]. unfold BcryptPasswordHasher.Compare. simpl. discriminate.
    - rewrite (Compare_hash_string h' c salt kP Q Hc Hsalt HQ). tauto. }
  split; [apply Hiff; split; [exact HP | reflexivity]|].
  split; [exists c; split; [exact Hc|]; split; [reflexivity | exact Hiff]|].
  split; [|split; [|split]].
  - intros Q HQ Hk. apply Hiff. split; [exact HQ|]. rewrite Hk. reflexivity.
  - intros Q Hne HlQ ZP ZQ HC. apply Hiff in HC. destruct HC as [_ HC].
    exists c. split; [|exact HC].
    intros Hk. apply key_stream_inj in Hk;
      [| rewrite length_bytes_of_string; assumption
       | rewrite length_bytes_of_string; assumption | exact ZQ | exact ZP].
    apply bytes_of_string_inj in Hk. contradiction.
  - reflexivity.
  - intros P' HP'. unfold BcryptPasswordHasher.Hash, bcrypt.GenerateFromPassword.
    rewrite length_bytes_of_string.
    replace (String.length P' =? 0)%nat with false
      by (symmetry; apply Nat.eqb_neq; lia).
    replace (72 <? String.length P')%nat with true
      by (symmetry; apply Nat.ltb_lt; exact HP').
    reflexivity.
Qed.

Lemma hash_then_compare_witness :
  exists v : string,
    BcryptPasswordHasher.Hash ToyDigest.hasher ToyDigest.salt "Passw0rd!" = Ok v
    /\ BcryptPasswordHasher.Compare ToyDigest.hasher v "Passw0rd!" = None
    /\ BcryptPasswordHasher.Compare ToyDigest.hasher v "wrongPassword" <> None.
Proof.
  eexists. split; [reflexivity|].
  destruct (hash_then_compare ToyDigest.digest ToyDigest_laws ToyDigest.hasher
              ToyDigest.hasher ToyDigest.salt "Passw0rd!" _ eq_refl eq_refl)
    as (H1 & _ & _ & H4 & _).
  split; [exact H1|].
  intros HC. destruct (H4 "wrongPassword") as (c & Hne & Heq).
  - discriminate.
  - vm_compute. lia.
  - unfold NUL_free. vm_compute. repeat constructor; discriminate.
  - unfold NUL_free. vm_compute. repeat constructor; discriminate.
  - exact HC.
  - apply Hne. exact (ToyDigest_hash_string_inj _ _ _ _ Heq).
Defined.

(** When the run-time system leaves room behind the converted string, the
    short secret is accepted silently and the keys are padded with what the
    spare capacity holds. *)
Example short_secret_roomy :
  startup roomy {["JWE_SECRET" := "short"]}
  = Started (JWETokenService.mk
               (bytes_of_string "short_enc" ++ List.repeat 0 23)%list
               (bytes_of_string "short_sig" ++ List.repeat 0 23)%list
               "auth0-server" (Some ["auth0-server"])).
Proof. vm_compute. reflexivity. Qed.

(* ===================================================================== *)
(** * Part II, continued: further properties of the code                 *)
(* ===================================================================== *)

(** ** The in-memory repository: lookups, updates and deletions *)

Section RepositoryFacts.

Import InMemoryAccountRepository.

Lemma In_values (accounts : gmap string Account.t) (a : Account.t) :
  In a (snd <$> map_to_list accounts) <-> exists k, accounts !! k = Some a.
Proof.
  rewrite <- list_elem_of_In, list_elem_of_fmap. split.
  - intros ([k a'] & -> & Hin). exists k. apply elem_of_map_to_list. exact Hin.
  - intros [k Hk]. exists (k, a). split; [reflexivity|].
    apply elem_of_map_to_list. exact Hk.
Qed.

Lemma has_email_true (accounts : gmap string Account.t) (email : string) :
  has_email accounts email = true
  <-> exists k a, accounts !! k = Some a /\ Account.Email a = email.
Proof.
  unfold has_email. rewrite existsb_exists. split.
  - intros (a & Hin & He). apply In_values in Hin as [k Hk].
    exists k, a. split; [exact Hk|]. apply String.eqb_eq. exact He.
  - intros (k & a & Hk & He). exists a. split.
    + apply In_values. exists k. exact Hk.
    + apply String.eqb_eq. exact He.
Qed.

Lemma has_email_false (accounts : gmap string Account.t) (email : string) :
  has_email accounts email = false
  <-> forall k a, accounts !! k = Some a -> Account.Email a <> email.
Proof.
  split.
  - intros Hf k a Hk He.
    assert (has_email accounts email = true) by (apply has_email_true; eauto).
    congruence.
  - intros Hall. destruct (has_email accounts email) eqn:E; [|reflexivity].
    apply has_email_true in E as (k & a & Hk & He). destruct (Hall k a Hk He).
Qed.

Lemma In_visited (accounts : gmap string Account.t) (visited : list Account.t)
    (a : Account.t) :
  range_order accounts visited ->
  In a visited <-> exists k, accounts !! k = Some a.
Proof.
  intros Hp. rewrite <- In_values. split; apply Permutation_in;
    [exact Hp | symmetry; exact Hp].
Qed.

Lemma GetByEmail_visiting_found (accounts : gmap string Account.t)
    (visited : list Account.t) (email : string) (a : Account.t) :
  range_order accounts visited ->
  GetByEmail_visiting None visited email = Ok a ->
  exists k, accounts !! k = Some a /\ Account.Email a = email.
Proof.
  intros Hp. unfold GetByEmail_visiting.
  destruct (List.find _ _) as [a'|] eqn:Ef; [|discriminate].
  intros [= <-]. apply List.find_some in Ef as [Hin He].
  apply (In_visited accounts visited a' Hp) in Hin as [k Hk].
  exists k. split; [exact Hk|].
  apply String.eqb_eq. exact He.
Qed.

Lemma GetByEmail_visiting_missing (accounts : gmap string Account.t)
    (visited : list Account.t) (email : string) :
  range_order accounts visited ->
  has_email accounts email = false ->
  GetByEmail_visiting None visited email = Err "account not found".
Proof.
  intros Hp Hf. unfold GetByEmail_visiting.
  destruct (List.find _ _) as [a'|] eqn:Ef; [|reflexivity].
  apply List.find_some in Ef as [Hin He].
  apply (In_visited accounts visited a' Hp) in Hin as [k Hk].
  apply String.eqb_eq in He.
  destruct (proj1 (has_email_false accounts email) Hf k a' Hk He).
Qed.

Lemma GetByEmail_visiting_unique (accounts : gmap string Account.t)
    (visited : list Account.t) (k : string) (a : Account.t) :
  well_formed accounts -> range_order accounts visited ->
  accounts !! k = Some a ->
  GetByEmail_visiting None visited (Account.Email a) = Ok a.
Proof.
  intros [_ Huniq] Hp Hk. unfold GetByEmail_visiting.
  destruct (List.find _ _) as [a'|] eqn:Ef.
  - apply List.find_some in Ef as [Hin He].
    apply (In_visited accounts visited a' Hp) in Hin as [k' Hk'].
    apply String.eqb_eq in He.
    assert (k' = k) by (eapply Huniq; eauto). subst k'. congruence.
  - exfalso. eapply List.find_none in Ef.
    + rewrite String.eqb_refl in Ef. discriminate.
    + apply (In_visited accounts visited a Hp). exists k. exact Hk.
Qed.

Lemma range_order_refl (accounts : gmap string Account.t) :
  range_order accounts (snd <$> map_to_list accounts).
Proof. apply Permutation_refl. Qed.

Lemma GetByEmail_found (accounts : gmap string Account.t) (email : string) (a : Account.t) :
  GetByEmail None accounts email = Ok a ->
  exists k, accounts !! k = Some a /\ Account.Email a = email.
Proof. apply GetByEmail_visiting_found, range_order_refl. Qed.

Lemma GetByEmail_missing (accounts : gmap string Account.t) (email : string) :
  has_email accounts email = false ->
  GetByEmail None accounts email = Err "account not found".
Proof. apply GetByEmail_visiting_missing, range_order_refl. Qed.

Lemma GetByEmail_unique (accounts : gmap string Account.t) (k : string) (a : Account.t) :
  well_formed accounts -> accounts !! k = Some a ->
  GetByEmail None accounts (Account.Email a) = Ok a.
Proof.
  intros Hwf. apply GetByEmail_visiting_unique; [exact Hwf | apply range_order_refl].
Qed.

Lemma well_formed_empty : well_formed ∅.
Proof. split; intros *; rewrite lookup_empty; discriminate. Qed.

Lemma well_formed_insert (accounts : gmap string Account.t) (acc : Account.t) :
  well_formed accounts ->
  has_email (delete (Account.ID acc) accounts) (Account.Email acc) = false ->
  well_formed (<[Account.ID acc := acc]> accounts).
Proof.
  intros [Hid Huniq] Hfree.
  pose proof (proj1 (has_email_false _ _) Hfree) as Hno.
  split.
  - intros k a. destruct (decide (k = Account.ID acc)) as [->|Hne].
    + rewrite lookup_insert_eq. intros [= <-]. reflexivity.
    + rewrite lookup_insert_ne by congruence. apply Hid.
  - intros k1 k2 a1 a2.
    destruct (decide (k1 = Account.ID acc)) as [->|H1];
      destruct (decide (k2 = Account.ID acc)) as [->|H2];
      rewrite ?lookup_insert_eq, ?lookup_insert_ne by congruence.
    + reflexivity.
    + intros [= <-] Hk2 He. exfalso. apply (Hno k2 a2).
      * rewrite lookup_delete_ne by congruence. exact Hk2.
      * congruence.
    + intros Hk1 [= <-] He. exfalso. apply (Hno k1 a1).
      * rewrite lookup_delete_ne by congruence. exact Hk1.
      * congruence.
    + apply Huniq.
Qed.

Lemma well_formed_delete (accounts : gmap string Account.t) (id : string) :
  well_formed accounts -> well_formed (delete id accounts).
Proof.
  intros [Hid Huniq]. split.
  - intros k a Hk. apply lookup_delete_Some in Hk as [_ Hk]. eauto.
  - intros k1 k2 a1 a2 H1 H2.
    apply lookup_delete_Some in H1 as [_ H1]. apply lookup_delete_Some in H2 as [_ H2].
    eauto.
Qed.

Lemma Create_wf_step (accounts accounts' : gmap string Account.t) (acc : Account.t) :
  well_formed accounts -> Create None accounts acc = (None, accounts') ->
  well_formed accounts'.
Proof.
  intros Hwf. unfold Create.
  destruct (accounts !! Account.ID acc) eqn:Hid; [discriminate|].
  destruct (has_email accounts (Account.Email acc)) eqn:Hem; [discriminate|].
  intros [= <-]. apply well_formed_insert; [exact Hwf|].
  rewrite delete_id by exact Hid. exact Hem.
Qed.

End RepositoryFacts.

(** Once [Update] has stored two accounts with one email, the account that
    [GetByEmail] returns depends on the order in which the loop meets them. *)
Lemma GetByEmail_order_matters :
  exists accounts' : gmap string Account.t,
    InMemoryAccountRepository.Update None 7 alice_and_bob alice_as_bob = (None, accounts') /\
    InMemoryAccountRepository.range_order accounts' [alice_updated; bob] /\
    InMemoryAccountRepository.range_order accounts' [bob; alice_updated] /\
    InMemoryAccountRepository.GetByEmail_visiting None [alice_updated; bob] "b@x"
    = Ok alice_updated /\
    InMemoryAccountRepository.GetByEmail_visiting None [bob; alice_updated] "b@x"
    = Ok bob.
Proof.
  eexists. split; [reflexivity|].
  unfold InMemoryAccountRepository.range_order.
  match goal with
  | |- Permutation ?a (snd <$> map_to_list ?m) /\ _ =>
      assert (E : (snd <$> map_to_list m) = a \/ (snd <$> map_to_list m) = rev a)
        by (vm_compute; auto)
  end.
  split; [|split; [|split; reflexivity]]; destruct E as [-> | ->]; simpl;
    first [ apply Permutation_refl | apply perm_swap ].
Qed.

(** X1.  On a store in which every account sits under its own id and no
    two accounts share an email, [GetByEmail] gives one answer in every order
    [visited] in which its loop may meet the accounts: it returns an account
    exactly when the store holds it and it has that email, it reports
    "account not found" exactly when no stored account has the email, and
    its answer is the one at the order of the finite map. *)
Theorem GetByEmail_on_well_formed_store :
  forall (accounts : gmap string Account.t) (visited : list Account.t)
         (email : string),
    InMemoryAccountRepository.well_formed accounts ->
    InMemoryAccountRepository.range_order accounts visited ->
    (forall a,
       InMemoryAccountRepository.GetByEmail_visiting None visited email = Ok a
       <-> exists k, accounts !! k = Some a /\ Account.Email a = email)
    /\ (InMemoryAccountRepository.GetByEmail_visiting None visited email
        = Err "account not found"
        <-> forall k a, accounts !! k = Some a -> Account.Email a <> email)
    /\ (forall visited',
          InMemoryAccountRepository.range_order accounts visited' ->
          InMemoryAccountRepository.GetByEmail_visiting None visited' email
          = InMemoryAccountRepository.GetByEmail_visiting None visited email)
    /\ InMemoryAccountRepository.GetByEmail None accounts email
       = InMemoryAccountRepository.GetByEmail_visiting None visited email.
Proof.
  intros accounts visited email Hwf Hp.
  assert (Hsame : forall v v',
            InMemoryAccountRepository.range_order accounts v ->
            InMemoryAccountRepository.range_order accounts v' ->
            InMemoryAccountRepository.GetByEmail_visiting None v' email
            = InMemoryAccountRepository.GetByEmail_visiting None v email).
  { intros v v' Hv Hv'.
    destruct (InMemoryAccountRepository.has_email accounts email) eqn:Hh.
    - apply has_email_true in Hh as (k & a & Hk & <-).
      rewrite (GetByEmail_visiting_unique accounts v k a Hwf Hv Hk).
      apply (GetByEmail_visiting_unique accounts v' k a Hwf Hv' Hk).
    - rewrite (GetByEmail_visiting_missing accounts v email Hv Hh).
      apply (GetByEmail_visiting_missing accounts v' email Hv' Hh). }
  split; [|split; [|split]].
  - intros a. split.
    + apply GetByEmail_visiting_found. exact Hp.
    + intros (k & Hk & <-). eapply GetByEmail_visiting_unique; eauto.
  - split.
    + intros He k a Hk Hem. subst email.
      rewrite (GetByEmail_visiting_unique accounts visited k a Hwf Hp Hk) in He.
      discriminate.
    + intros Hno. apply (GetByEmail_visiting_missing accounts); [exact Hp|].
      apply has_email_false. exact Hno.
  - intros visited' Hp'. apply Hsame; assumption.
  - apply Hsame; [exact Hp | apply range_order_refl].
Qed.

Lemma GetByEmail_on_well_formed_store_witness :
  InMemoryAccountRepository.GetByEmail_visiting None [Scenario.alice] "a@x" = Ok Scenario.alice
  /\ InMemoryAccountRepository.GetByEmail None
       {[Account.ID Scenario.alice := Scenario.alice]} "a@x"
     = InMemoryAccountRepository.GetByEmail_visiting None [Scenario.alice] "a@x".
Proof.
  destruct (GetByEmail_on_well_formed_store
              {[Account.ID Scenario.alice := Scenario.alice]} [Scenario.alice] "a@x")
    as (H1 & _ & _ & H4).
  - apply (well_formed_insert ∅ Scenario.alice well_formed_empty). reflexivity.
  - unfold InMemoryAccountRepository.range_order. rewrite map_to_list_singleton.
    apply Permutation_refl.
  - split; [|exact H4]. apply H1. exists (Account.ID Scenario.alice).
    split; [apply lookup_singleton_eq | reflexivity].
Defined.

(** X2.  [Create] keeps the store well formed.  When it succeeds the new
    account is found under its id and under its email and every other id
    reads as before; when it fails the store is the one it was given. *)
Theorem Create_keeps_store_well_formed :
  forall (ctx_Err : option error) (accounts accounts' : gmap string Account.t)
         (acc : Account.t) (err : option error),
    InMemoryAccountRepository.well_formed accounts ->
    InMemoryAccountRepository.Create ctx_Err accounts acc = (err, accounts') ->
    InMemoryAccountRepository.well_formed accounts' /\
    match err with
    | Some _ => accounts' = accounts
    | None =>
        accounts !! Account.ID acc = None /\
        InMemoryAccountRepository.has_email accounts (Account.Email acc) = false /\
        InMemoryAccountRepository.GetByID None accounts' (Account.ID acc) = Ok acc /\
        InMemoryAccountRepository.GetByEmail None accounts' (Account.Email acc) = Ok acc /\
        forall id, id <> Account.ID acc ->
          InMemoryAccountRepository.GetByID None accounts' id
          = InMemoryAccountRepository.GetByID None accounts id
    end.
Proof.
  intros ctx_Err accounts accounts' acc err Hwf.
  unfold InMemoryAccountRepository.Create.
  destruct ctx_Err as [e|]; [intros [= <- <-]; auto|].
  destruct (accounts !! Account.ID acc) eqn:Hid; [intros [= <- <-]; auto|].
  destruct (InMemoryAccountRepository.has_email accounts (Account.Email acc)) eqn:Hem;
    intros [= <- <-]; [auto|].
  assert (Hwf' : InMemoryAccountRepository.well_formed (<[Account.ID acc := acc]> accounts)).
  { apply well_formed_insert; [exact Hwf|]. rewrite delete_id by exact Hid. exact Hem. }
  split; [exact Hwf'|].
  repeat split.
  - unfold InMemoryAccountRepository.GetByID. rewrite lookup_insert_eq. reflexivity.
  - eapply GetByEmail_unique; [exact Hwf'|]. apply lookup_insert_eq.
  - intros id Hne. unfold InMemoryAccountRepository.GetByID.
    rewrite lookup_insert_ne by congruence. reflexivity.
Qed.

Lemma Create_keeps_store_well_formed_witness :
  InMemoryAccountRepository.well_formed {[Account.ID Scenario.alice := Scenario.alice]} /\
  InMemoryAccountRepository.GetByEmail None {[Account.ID Scenario.alice := Scenario.alice]} "a@x"
    = Ok Scenario.alice.
Proof.
  destruct (Create_keeps_store_well_formed None ∅
              {[Account.ID Scenario.alice := Scenario.alice]} Scenario.alice None
              well_formed_empty eq_refl) as (Hwf & _ & _ & _ & Hget & _).
  split; [exact Hwf | exact Hget].
Defined.

(** X3.  [Update] of an id the store does not hold is refused and changes
    nothing.  Otherwise the stored record takes every field of the given
    one except the id and the creation time, which stay, and the update
    time, which is read from the clock of the store; every other id reads
    as before, and every account still sits under its own id. *)
Theorem Update_overwrites_in_place :
  forall (now : Time) (accounts accounts' : gmap string Account.t)
         (acc : Account.t) (err : option error),
    (forall k a, accounts !! k = Some a -> Account.ID a = k) ->
    InMemoryAccountRepository.Update None now accounts acc = (err, accounts') ->
    (forall k a, accounts' !! k = Some a -> Account.ID a = k) /\
    (forall id, id <> Account.ID acc -> accounts' !! id = accounts !! id) /\
    match accounts !! Account.ID acc with
    | None => err = Some "account not found" /\ accounts' = accounts
    | Some existing =>
        err = None /\
        exists stored,
          accounts' !! Account.ID acc = Some stored /\
          Account.ID stored = Account.ID acc /\
          Account.CreatedAt stored = Account.CreatedAt existing /\
          Account.UpdatedAt stored = now /\
          Account.Email stored = Account.Email acc /\
          Account.Password stored = Account.Password acc /\
          Account.Name stored = Account.Name acc /\
          Account.Nickname stored = Account.Nickname acc /\
          Account.Picture stored = Account.Picture acc /\
          Account.Verified stored = Account.Verified acc /\
          Account.Blocked stored = Account.Blocked acc
    end.
Proof.
  intros now accounts accounts' acc err Hid.
  unfold InMemoryAccountRepository.Update.
  destruct (accounts !! Account.ID acc) as [existing|] eqn:Hex; intros [= <- <-].
  - split; [|split].
    + intros k a. destruct (decide (k = Account.ID acc)) as [->|Hne].
      * rewrite lookup_insert_eq. intros [= <-]. simpl. eauto.
      * rewrite lookup_insert_ne by congruence. apply Hid.
    + intros id Hne. rewrite lookup_insert_ne by congruence. reflexivity.
    + split; [reflexivity|]. eexists. rewrite lookup_insert_eq.
      split; [reflexivity|]. simpl. repeat split. eauto.
  - split; [exact Hid|]. split; [reflexivity|]. split; reflexivity.
Qed.

Lemma Update_overwrites_in_place_witness :
  exists stored,
    snd (InMemoryAccountRepository.Update None 5
           {[Account.ID Scenario.alice := Scenario.alice]} Scenario.alice)
      !! Account.ID Scenario.alice = Some stored /\
    Account.UpdatedAt stored = 5 /\ Account.CreatedAt stored = 0.
Proof.
  destruct (Update_overwrites_in_place 5
              {[Account.ID Scenario.alice := Scenario.alice]}
              (snd (InMemoryAccountRepository.Update None 5
                      {[Account.ID Scenario.alice := Scenario.alice]} Scenario.alice))
              Scenario.alice None) as (_ & _ & H).
  - intros k a Hk. apply lookup_singleton_Some in Hk as [<- <-]. reflexivity.
  - reflexivity.
  - assert (Hl : ({[Account.ID Scenario.alice := Scenario.alice]} : gmap string Account.t)
                 !! Account.ID Scenario.alice = Some Scenario.alice) by reflexivity.
    rewrite Hl in H. destruct H as (_ & stored & Hs & _ & Hc & Hu & _).
    exists stored. split; [exact Hs|]. split; [exact Hu | exact Hc].
Defined.

(** X4.  [Update] does not look at the emails of the other accounts: given
    two accounts under different ids, updating the first with the email of
    the second succeeds and leaves a store in which two ids carry the same
    email, so the store is no longer well formed. *)
Theorem Update_can_duplicate_an_email :
  forall (now : Time) (accounts : gmap string Account.t) (k1 k2 : string)
         (a1 a2 : Account.t),
    accounts !! k1 = Some a1 -> accounts !! k2 = Some a2 -> k1 <> k2 ->
    Account.ID a1 = k1 ->
    let acc :=
      Account.mk k1 (Account.Email a2) (Account.Password a1) (Account.Name a1)
        (Account.Nickname a1) (Account.Picture a1) (Account.CreatedAt a1)
        (Account.UpdatedAt a1) (Account.Verified a1) (Account.Blocked a1) in
    exists accounts' b1,
      InMemoryAccountRepository.Update None now accounts acc = (None, accounts') /\
      accounts' !! k1 = Some b1 /\ accounts' !! k2 = Some a2 /\
      Account.Email b1 = Account.Email a2 /\
      ~ InMemoryAccountRepository.well_formed accounts'.
Proof.
  intros now accounts k1 k2 a1 a2 H1 H2 Hne Hid acc.
  unfold InMemoryAccountRepository.Update. simpl. rewrite H1.
  eexists. eexists. split; [reflexivity|].
  rewrite lookup_insert_eq, lookup_insert_ne by congruence.
  split; [reflexivity|]. split; [exact H2|]. split; [reflexivity|].
  intros [_ Huniq]. apply Hne.
  eapply (Huniq k1 k2).
  - apply lookup_insert_eq.
  - rewrite lookup_insert_ne by congruence. exact H2.
  - reflexivity.
Qed.

Lemma Update_can_duplicate_an_email_witness :
  exists accounts' b1,
    InMemoryAccountRepository.Update None 7 alice_and_bob
      (Account.mk (Account.ID Scenario.alice) "b@x" "$2a$10$hash" "A" "A" "" 0 0 true false)
    = (None, accounts') /\
    accounts' !! Account.ID Scenario.alice = Some b1 /\
    accounts' !! Account.ID bob = Some bob /\
    Account.Email b1 = "b@x" /\
    ~ InMemoryAccountRepository.well_formed accounts'.
Proof.
  apply (Update_can_duplicate_an_email 7 alice_and_bob (Account.ID Scenario.alice)
           (Account.ID bob) Scenario.alice bob).
  - reflexivity.
  - reflexivity.
  - discriminate.
  - reflexivity.
Defined.

(** X5.  [Delete] of an id the store holds removes that account and no
    other: the id is no longer found, the email of the removed account is
    free again, every other id reads as before, and the store stays well
    formed.  [Delete] of an unknown id is refused and changes nothing. *)
Theorem Delete_removes_one_account :
  forall (accounts accounts' : gmap string Account.t) (id : string) (err : option error),
    InMemoryAccountRepository.well_formed accounts ->
    InMemoryAccountRepository.Delete None accounts id = (err, accounts') ->
    InMemoryAccountRepository.well_formed accounts' /\
    InMemoryAccountRepository.GetByID None accounts' id = Err "account not found" /\
    (forall k, k <> id -> accounts' !! k = accounts !! k) /\
    match accounts !! id with
    | None => err = Some "account not found" /\ accounts' = accounts
    | Some a =>
        err = None /\
        InMemoryAccountRepository.has_email accounts' (Account.Email a) = false /\
        InMemoryAccountRepository.GetByEmail None accounts' (Account.Email a)
        = Err "account not found"
    end.
Proof.
  intros accounts accounts' id err Hwf.
  unfold InMemoryAccountRepository.Delete, InMemoryAccountRepository.GetByID.
  destruct (accounts !! id) as [a|] eqn:Hid; intros [= <- <-].
  - assert (Hfree : InMemoryAccountRepository.has_email (delete id accounts) (Account.Email a)
                    = false).
    { apply has_email_false. intros k a' Hk He.
      apply lookup_delete_Some in Hk as [Hne Hk].
      destruct Hwf as [_ Huniq]. apply Hne. symmetry. eapply Huniq; eauto. }
    split; [apply well_formed_delete; exact Hwf|].
    rewrite lookup_delete_eq. split; [reflexivity|].
    split; [intros k Hne; apply lookup_delete_ne; congruence|].
    split; [reflexivity|]. split; [exact Hfree|].
    apply GetByEmail_missing. exact Hfree.
  - split; [exact Hwf|]. rewrite Hid. repeat split.
Qed.

Lemma Delete_removes_one_account_witness :
  InMemoryAccountRepository.well_formed
    (snd (InMemoryAccountRepository.Delete None alice_and_bob (Account.ID bob))) /\
  InMemoryAccountRepository.GetByID None
    (snd (InMemoryAccountRepository.Delete None alice_and_bob (Account.ID bob)))
    (Account.ID bob) = Err "account not found".
Proof.
  destruct (Delete_removes_one_account alice_and_bob _ (Account.ID bob) _
              (well_formed_insert _ bob
                 (well_formed_insert ∅ Scenario.alice well_formed_empty eq_refl) eq_refl)
              eq_refl) as (Hwf & Hget & _).
  split; [exact Hwf | exact Hget].
Defined.

(** ** Account creation and credentials *)

Lemma CreateAccount_effect aw accounts (email password name : string) r accounts' :
  CreateAccount aw accounts email password name = (r, accounts') ->
  (is_Ok r = false /\ accounts' = accounts) \/
  (exists acc, r = Ok acc /\ as_created acc /\
     InMemoryAccountRepository.Create None accounts acc = (None, accounts')).
Proof.
  unfold CreateAccount, InMemoryAccountRepository.Create. intros H.
  destruct (String.eqb email "") eqn:Ee.
  - repeat case_match; simplify_eq/=; left; split; reflexivity.
  - apply String.eqb_neq in Ee.
    repeat case_match; simplify_eq/=;
      first [ left; split; reflexivity
            | right; eexists; split; [reflexivity|]; split;
              [ unfold as_created; simpl; repeat split; assumption
              | simpl; repeat case_match; simplify_eq/=; reflexivity ] ].
Qed.

(** X6.  Whatever creations are run against an empty store, in whatever
    worlds, the store stays well formed and every account in it is verified,
    not blocked, has its nickname equal to its name, no picture, and an
    email that is not empty. *)
Theorem created_accounts_invariant :
  forall (calls : list CreateCall),
    InMemoryAccountRepository.well_formed (run_creations ∅ calls) /\
    forall k a, run_creations ∅ calls !! k = Some a -> as_created a.
Proof.
  intros calls. unfold run_creations.
  assert (Hgen : forall (accounts : gmap string Account.t),
            InMemoryAccountRepository.well_formed accounts ->
            (forall k a, accounts !! k = Some a -> as_created a) ->
            let final :=
              List.fold_left
                (fun acc c =>
                   snd (CreateAccount (cc_world c) acc (cc_email c) (cc_password c) (cc_name c)))
                calls accounts in
            InMemoryAccountRepository.well_formed final /\
            forall k a, final !! k = Some a -> as_created a).
  { induction calls as [|c calls IH]; intros accounts Hwf Hall; simpl.
    - split; assumption.
    - destruct (CreateAccount (cc_world c) accounts (cc_email c) (cc_password c) (cc_name c))
        as [r accounts'] eqn:Hc.
      simpl. apply CreateAccount_effect in Hc as [[_ ->]|(acc & -> & Hacc & Hcreate)].
      + apply IH; assumption.
      + apply IH.
        * eapply Create_wf_step; eassumption.
        * intros k a. unfold InMemoryAccountRepository.Create in Hcreate.
          repeat case_match; simplify_eq/=.
          destruct (decide (k = Account.ID acc)) as [->|Hne].
          -- rewrite lookup_insert_eq. intros [= <-]. exact Hacc.
          -- rewrite lookup_insert_ne by congruence. apply Hall. }
  apply Hgen.
  - apply well_formed_empty.
  - intros k a. rewrite lookup_empty. discriminate.
Qed.

Section CredentialFacts.

Variable Compare : string -> string -> option error.

Lemma ValidateCredentials_Ok (accounts : gmap string Account.t) (email password : string)
    (acc : Account.t) :
  InMemoryAccountRepository.well_formed accounts ->
  (AccountUseCase.ValidateCredentials None None Compare accounts email password = Ok acc
   <-> email <> "" /\ password <> "" /\
       (exists k, accounts !! k = Some acc) /\
       Account.Email acc = email /\ Account.Blocked acc = false /\
       Compare (Account.Password acc) password = None).
Proof.
  intros Hwf.
  unfold AccountUseCase.ValidateCredentials. split.
  - destruct (InMemoryAccountRepository.GetByEmail None accounts email) as [a|e] eqn:Hg;
      destruct (String.eqb email "") eqn:Ee; destruct (String.eqb password "") eqn:Ep;
      try discriminate.
    cbn [orb].
    apply String.eqb_neq in Ee, Ep.
    apply GetByEmail_found in Hg as (k & Hk & He).
    destruct (Account.Blocked a) eqn:Hb; [discriminate|].
    destruct (Compare (Account.Password a) password) eqn:Hc; [discriminate|].
    intros [= <-]. repeat split; eauto.
  - intros (Ee & Ep & (k & Hk) & He & Hb & Hc).
    apply String.eqb_neq in Ee, Ep. rewrite Ee, Ep. cbn [orb]. subst email.
    rewrite (GetByEmail_unique accounts k acc Hwf Hk), Hb, Hc. reflexivity.
Qed.

(** X7.  On a well-formed store [ValidateCredentials] accepts exactly the
    stored account that has the email, is not blocked and whose stored
    verifier the hasher accepts for the password, both inputs being
    non-empty; and [Authenticate] returns a token pair exactly when such an
    account exists and the token service mints the pair for its id, email
    and name. *)
Theorem ValidateCredentials_accepts :
  forall (mint : string -> string -> string -> result TokenPair.t)
         (accounts : gmap string Account.t) (email password : string),
    InMemoryAccountRepository.well_formed accounts ->
    let accepted (acc : Account.t) :=
      email <> "" /\ password <> "" /\
      (exists k, accounts !! k = Some acc) /\
      Account.Email acc = email /\ Account.Blocked acc = false /\
      Compare (Account.Password acc) password = None in
    (forall acc,
       AccountUseCase.ValidateCredentials None None Compare accounts email password = Ok acc
       <-> accepted acc) /\
    (forall tokenPair,
       AuthUseCase.Authenticate None
         (AccountUseCase.ValidateCredentials None None Compare accounts) mint email password
       = Ok tokenPair
       <-> exists acc, accepted acc /\
            mint (Account.ID acc) (Account.Email acc) (Account.Name acc) = Ok tokenPair).
Proof.
  intros mint accounts email password Hwf accepted. subst accepted. cbv beta.
  split.
  - intros acc. apply ValidateCredentials_Ok. exact Hwf.
  - intros tokenPair. unfold AuthUseCase.Authenticate.
    destruct (AccountUseCase.ValidateCredentials None None Compare accounts email password)
      as [acc|e] eqn:Hv.
    + apply (ValidateCredentials_Ok accounts email password acc Hwf) in Hv as Hacc.
      split.
      * intros Hm. exists acc. split; assumption.
      * intros (acc' & Hacc' & Hm).
        apply (ValidateCredentials_Ok accounts email password acc' Hwf) in Hacc'.
        congruence.
    + split; [discriminate|].
      intros (acc' & Hacc' & _).
      apply (ValidateCredentials_Ok accounts email password acc' Hwf) in Hacc'.
      congruence.
Qed.

(** X8.  A blocked account is refused by [ValidateCredentials] whatever
    the password, with a message of its own; [CreateAuthorizationCode],
    which looks the account up and compares the password itself, never reads
    the flag and issues a code for it. *)
Theorem blocked_account_still_gets_a_code :
  forall (accounts : gmap string Account.t) (codes : gmap string AuthorizationCode.t)
         (k : string) (acc : Account.t) (password : string) (codeBytes : list Z)
         (now : Time) (clientID redirectURI scope codeChallenge codeChallengeMethod : string),
    InMemoryAccountRepository.well_formed accounts ->
    accounts !! k = Some acc -> Account.Blocked acc = true ->
    Account.Email acc <> "" -> password <> "" ->
    Compare (Account.Password acc) password = None ->
    (forall tried, tried <> "" ->
       AccountUseCase.ValidateCredentials None None Compare accounts (Account.Email acc) tried
       = Err "account is blocked") /\
    let code := Base64.URLEncoding_EncodeToString codeBytes in
    CreateAuthorizationCode
      (issue_world_of None None None Compare accounts (Ok codeBytes) now) codes
      (Account.Email acc) password clientID redirectURI scope codeChallenge codeChallengeMethod
    = (Ok code,
       <[code := AuthorizationCode.mk code clientID redirectURI scope (Account.ID acc)
                   codeChallenge codeChallengeMethod (Add now (10 * Minute)) false]> codes).
Proof.
  intros accounts codes k acc password codeBytes now clientID redirectURI scope
    codeChallenge codeChallengeMethod Hwf Hk Hb Hemail Hpw Hcmp.
  apply String.eqb_neq in Hemail.
  split.
  - intros tried Ht. apply String.eqb_neq in Ht.
    unfold AccountUseCase.ValidateCredentials. rewrite Hemail, Ht. cbn [orb].
    rewrite (GetByEmail_unique accounts k acc Hwf Hk), Hb. reflexivity.
  - unfold CreateAuthorizationCode, issue_world_of, AccountUseCase.GetAccountByEmail,
      AccountUseCase.VerifyPassword.
    cbn [iw_ctx_Err iw_GetAccountByEmail iw_VerifyPassword iw_rand_Read iw_Now].
    rewrite Hemail, (GetByEmail_unique accounts k acc Hwf Hk), Hcmp. reflexivity.
Qed.

End CredentialFacts.

Lemma ValidateCredentials_accepts_witness :
  AccountUseCase.ValidateCredentials None None (fun _ _ => None)
    {[Account.ID Scenario.alice := Scenario.alice]} "a@x" "Passw0rd!" = Ok Scenario.alice.
Proof.
  apply (proj1 (ValidateCredentials_accepts (fun _ _ => None)
                  (fun _ _ _ => Ok Scenario.tokens)
                  {[Account.ID Scenario.alice := Scenario.alice]} "a@x" "Passw0rd!"
                  (well_formed_insert ∅ Scenario.alice well_formed_empty eq_refl))).
  split; [discriminate|]. split; [discriminate|].
  split; [exists (Account.ID Scenario.alice); reflexivity|].
  repeat split.
Defined.

Lemma blocked_account_still_gets_a_code_witness :
  AccountUseCase.ValidateCredentials None None tagged_Compare
    {[Account.ID carol := carol]} "c@x" "Passw0rd!" = Err "account is blocked" /\
  is_Ok (fst (CreateAuthorizationCode
                (issue_world_of None None None tagged_Compare {[Account.ID carol := carol]}
                   (Ok (List.repeat 7 32)) 0)
                ∅ "c@x" "Passw0rd!" "c1" "https://x/cb" "openid" Scenario.challenge "S256"))
  = true.
Proof.
  destruct (blocked_account_still_gets_a_code tagged_Compare {[Account.ID carol := carol]} ∅
              (Account.ID carol) carol "Passw0rd!" (List.repeat 7 32) 0
              "c1" "https://x/cb" "openid" Scenario.challenge "S256") as [Hrefused Hissued].
  - apply (well_formed_insert ∅ carol well_formed_empty). reflexivity.
  - reflexivity.
  - reflexivity.
  - discriminate.
  - discriminate.
  - reflexivity.
  - split.
    + apply Hrefused. discriminate.
    + cbv zeta in Hissued. change (Account.Email carol) with "c@x" in Hissued.
      rewrite Hissued. reflexivity.
Defined.

(** ** From issuing a code to exchanging it *)

Section IssueThenExchange.

Variable Compare : string -> string -> option error.
Variable mint : string -> string -> string -> result TokenPair.t.

(** A code issued to a stored account for a client, a redirect URI
    and an S256 challenge is exchanged for the tokens of that account by a
    request that arrives within ten minutes with the same client and
    redirect URI and a verifier of the challenge; the exchange removes the
    code, and the same request repeated finds no code. *)
Lemma issued_code_is_exchanged :
  forall (accounts : gmap string Account.t) (codes : gmap string AuthorizationCode.t)
         (k : string) (acc : Account.t) (password : string) (codeBytes : list Z)
         (issued_at exchanged_at : Time)
         (clientID redirectURI scope codeVerifier : string) (tokenPair : TokenPair.t),
    InMemoryAccountRepository.well_formed accounts ->
    accounts !! k = Some acc -> k <> "" -> Account.Email acc <> "" ->
    Compare (Account.Password acc) password = None ->
    exchanged_at <= Add issued_at (10 * Minute) ->
    mint (Account.ID acc) (Account.Email acc) (Account.Name acc) = Ok tokenPair ->
    let code := Base64.URLEncoding_EncodeToString codeBytes in
    let issue :=
      CreateAuthorizationCode
        (issue_world_of None None None Compare accounts (Ok codeBytes) issued_at) codes
        (Account.Email acc) password clientID redirectURI scope
        (expectedChallenge codeVerifier) "S256" in
    let w := exchange_world_of None None None accounts mint exchanged_at in
    fst issue = Ok code /\
    ExchangeCodeForTokens w (snd issue) code clientID codeVerifier redirectURI
    = (Ok tokenPair, delete code (snd issue)) /\
    ExchangeCodeForTokens w (delete code (snd issue)) code clientID codeVerifier redirectURI
    = (Err "invalid authorization code", delete code (snd issue)).
Proof.
  intros accounts codes k acc password codeBytes issued_at exchanged_at
    clientID redirectURI scope codeVerifier tokenPair
    Hwf Hk Hkne Hemail Hcmp Htime Hmint code issue w.
  assert (Hid : Account.ID acc = k) by (destruct Hwf as [Hid _]; eauto).
  assert (Hissue : issue =
            (Ok code,
             <[code := AuthorizationCode.mk code clientID redirectURI scope (Account.ID acc)
                         (expectedChallenge codeVerifier) "S256"
                         (Add issued_at (10 * Minute)) false]> codes)).
  { subst issue.
    unfold CreateAuthorizationCode, issue_world_of, AccountUseCase.GetAccountByEmail,
      AccountUseCase.VerifyPassword.
    cbn [iw_ctx_Err iw_GetAccountByEmail iw_VerifyPassword iw_rand_Read iw_Now].
    apply String.eqb_neq in Hemail.
    rewrite Hemail, (GetByEmail_unique accounts k acc Hwf Hk), Hcmp. reflexivity. }
  rewrite Hissue. cbn [fst snd].
  split; [reflexivity|]. split.
  - rewrite (exchange_after_checks w _ code clientID codeVerifier redirectURI _ eq_refl
               (lookup_insert_eq _ _ _)).
    + cbv zeta. subst w. unfold exchange_world_of, AccountUseCase.GetAccount.
      cbn [accountUseCase_GetAccount tokenService_GenerateTokenPair AuthorizationCode.AccountID].
      rewrite Hid. apply String.eqb_neq in Hkne. rewrite Hkne.
      unfold InMemoryAccountRepository.GetByID. rewrite Hk.
      rewrite <- Hid at 1. rewrite Hmint.
      rewrite !delete_insert_eq. reflexivity.
    + apply passes_checks_true. cbn. unfold After.
      repeat split.
      * apply Z.ltb_ge. exact Htime.
      * apply String.eqb_refl.
      * apply String.eqb_refl.
      * apply String.eqb_refl.
  - unfold ExchangeCodeForTokens. subst w. cbn [Registry.ctx_Err exchange_world_of].
    rewrite lookup_delete_eq. reflexivity.
Qed.

End IssueThenExchange.

Lemma exchange_keeps_method (codes codes' : gmap string AuthorizationCode.t)
    (call : ExchangeCall) (code : string) (r : result TokenPair.t) (rec' : AuthorizationCode.t) :
  exchange codes call = (r, codes') -> codes' !! code = Some rec' ->
  exists rec, codes !! code = Some rec /\
    AuthorizationCode.CodeChallengeMethod rec' = AuthorizationCode.CodeChallengeMethod rec.
Proof.
  intros H Hl.
  destruct (decide (call_code call = code)) as [<-|Hne].
  - unfold exchange, ExchangeCodeForTokens in H.
    repeat case_match; injection H as <- <-;
      rewrite ?lookup_delete_eq, ?lookup_insert_eq in Hl; simplify_eq/=; eauto.
  - rewrite (exchange_other _ _ _ _ _ H Hne) in Hl. eauto.
Qed.

Lemma exchange_needs_S256 (codes codes' : gmap string AuthorizationCode.t)
    (call : ExchangeCall) (tp : TokenPair.t) :
  exchange codes call = (Ok tp, codes') ->
  exists rec, codes !! call_code call = Some rec /\
    AuthorizationCode.CodeChallengeMethod rec = "S256".
Proof.
  unfold exchange, ExchangeCodeForTokens. intros H.
  repeat case_match; simplify_eq/=.
  eexists. split; [reflexivity|].
  match goal with
  | Hv : negb (validatePKCE _ _ _) = false |- _ =>
      apply negb_false_iff, validatePKCE_true in Hv; exact (proj1 Hv)
  end.
Qed.

Lemma run_without_S256 (codes : gmap string AuthorizationCode.t) (calls : list ExchangeCall)
    (code : string) :
  (forall rec, codes !! code = Some rec ->
     AuthorizationCode.CodeChallengeMethod rec <> "S256") ->
  successes code (fst (run_exchanges codes calls)) = 0%nat.
Proof.
  revert codes. induction calls as [|c rest IH]; intros codes Hm; [reflexivity|].
  simpl. destruct (exchange codes c) as [r codes'] eqn:E.
  destruct (run_exchanges codes' rest) as [done final] eqn:R. simpl.
  assert (IH' : successes code done = 0%nat).
  { specialize (IH codes'). rewrite R in IH. apply IH.
    intros rec' Hl. destruct (exchange_keeps_method _ _ _ _ _ _ E Hl) as (rec & Hrec & ->).
    apply Hm. exact Hrec. }
  destruct r as [tp|e]; simpl; [|exact IH'].
  rewrite successes_cons, IH'.
  destruct (String.eqb code (call_code c)) eqn:Q; [|reflexivity].
  apply String.eqb_eq in Q. subst code.
  destruct (exchange_needs_S256 _ _ _ _ E) as (rec & Hrec & HS).
  destruct (Hm rec Hrec HS).
Qed.

(** X9.  [CreateAuthorizationCode] stores whatever challenge method it
    is given.  A code issued with a method other than ["S256"] is never
    exchanged: in every run of exchanges that follows, by any clients in any
    worlds, no exchange of that code succeeds. *)
Theorem code_without_S256_is_never_exchanged :
  forall (iw : IssueWorld) (codes codes' : gmap string AuthorizationCode.t)
         (email password clientID redirectURI scope codeChallenge codeChallengeMethod : string)
         (code : string) (calls : list ExchangeCall),
    codeChallengeMethod <> "S256" ->
    CreateAuthorizationCode iw codes email password clientID redirectURI scope
      codeChallenge codeChallengeMethod = (Ok code, codes') ->
    (exists rec, codes' !! code = Some rec /\
       AuthorizationCode.CodeChallengeMethod rec = codeChallengeMethod) /\
    successes code (fst (run_exchanges codes' calls)) = 0%nat.
Proof.
  intros iw codes codes' email password clientID redirectURI scope codeChallenge
    codeChallengeMethod code calls Hm Hissue.
  unfold CreateAuthorizationCode in Hissue.
  repeat case_match; simplify_eq/=.
  split.
  - eexists. rewrite lookup_insert_eq. split; reflexivity.
  - apply run_without_S256. intros rec. rewrite lookup_insert_eq. intros [= <-]. exact Hm.
Qed.

Lemma code_without_S256_is_never_exchanged_witness :
  successes (Base64.URLEncoding_EncodeToString (List.repeat 7 32))
    (fst (run_exchanges
            (snd (CreateAuthorizationCode Scenario.issue_world ∅ "a@x" "Passw0rd!" "c1"
                    "https://x/cb" "openid" Scenario.verifier "plain"))
            [ {| call_world := Scenario.world 1;
                 call_code := Base64.URLEncoding_EncodeToString (List.repeat 7 32);
                 call_clientID := "c1"; call_codeVerifier := Scenario.verifier;
                 call_redirectURI := "https://x/cb" |} ])) = 0%nat.
Proof.
  refine (proj2 (code_without_S256_is_never_exchanged Scenario.issue_world ∅ _
                   "a@x" "Passw0rd!" "c1" "https://x/cb" "openid" Scenario.verifier "plain"
                   _ _ _ eq_refl)).
  discriminate.
Defined.

(** ** The life of a minted token *)

Section TokenLifetime.

Context {J : GoJose} {L : GoJoseLaws J}.

(** X10.  The access token of a minted pair is accepted from the second
    it was issued in until 24 hours after that second and at no other time:
    a validation whose clock is past the expiry answers "token has expired",
    one whose clock is before the issue second "token not yet valid". *)
Theorem minted_access_token_lifetime :
  forall (s : JWETokenService.t) (mw : MintWorld) (sub email name : string),
    List.length (JWETokenService.encryptionKey s) = 32%nat ->
    mw_ctx_Err mw = None ->
    0 <= mw_Now mw -> Unix (mw_Now mw) + 7 * 24 * 3600 < 2 ^ 53 ->
    exists pair : TokenPair.t,
      GenerateTokenPair s mw sub email name = Ok pair /\
      forall vw, vw_ctx_Err vw = None ->
        let issued := time_Unix (Unix (mw_Now mw)) in
        (is_Ok (ValidateToken s vw (TokenPair.AccessToken pair)) = true
         <-> vw_Now_exp vw <= Add issued (24 * Hour) /\ issued <= vw_Now_nbf vw) /\
        (Add issued (24 * Hour) < vw_Now_exp vw ->
         ValidateToken s vw (TokenPair.AccessToken pair) = Err "token has expired") /\
        (vw_Now_exp vw <= Add issued (24 * Hour) -> vw_Now_nbf vw < issued ->
         ValidateToken s vw (TokenPair.AccessToken pair) = Err "token not yet valid").
Proof.
  intros s mw sub email name Hk Hctx Hnow Hb.
  destruct (minted_pair_validation s mw sub email name Hk Hctx Hnow Hb)
    as (pair & access & refresh & Hgen & _ & _ & _ & _ & _ & _ & _ & Hval).
  exists pair. split; [exact Hgen|].
  intros vw Hvw issued. destruct (Hval vw Hvw) as [-> _].
  assert (Hexp : time_Unix (Unix (mw_Now mw) + 24 * 3600) = Add issued (24 * Hour)).
  { subst issued. unfold Add, time_Unix, Hour, Minute, Second. lia. }
  rewrite Hexp. fold issued. unfold After, Before.
  destruct (Add issued (24 * Hour) <? vw_Now_exp vw) eqn:E1;
    [apply Z.ltb_lt in E1 | apply Z.ltb_ge in E1].
  - split; [|split].
    + simpl. split; [discriminate | lia].
    + reflexivity.
    + lia.
  - destruct (vw_Now_nbf vw <? issued) eqn:E2;
      [apply Z.ltb_lt in E2 | apply Z.ltb_ge in E2].
    + split; [|split].
      * simpl. split; [discriminate | lia].
      * lia.
      * reflexivity.
    + split; [|split].
      * simpl. split; [lia | reflexivity].
      * lia.
      * lia.
Qed.

(** X11.  [RefreshToken] does not tell the two tokens of a pair apart:
    given either of them while it is valid, it mints exactly the pair that
    [GenerateTokenPair] mints at that moment for the subject, email and name
    the token validates to, which are those of the first pair as JSON hands
    them back (the same strings when they are valid UTF-8).  The token
    handed in stays valid: nothing is revoked. *)
Theorem refresh_accepts_either_token :
  forall (s : JWETokenService.t) (mw mw' : MintWorld) (vw : ValidateWorld)
         (sub email name : string),
    List.length (JWETokenService.encryptionKey s) = 32%nat ->
    mw_ctx_Err mw = None ->
    0 <= mw_Now mw -> Unix (mw_Now mw) + 7 * 24 * 3600 < 2 ^ 53 ->
    vw_ctx_Err vw = None ->
    time_Unix (Unix (mw_Now mw)) <= vw_Now_nbf vw ->
    exists pair : TokenPair.t,
      GenerateTokenPair s mw sub email name = Ok pair /\
      let again :=
        GenerateTokenPair s mw' (json_text sub) (json_text email) (json_text name) in
      (vw_Now_exp vw <= time_Unix (Unix (mw_Now mw) + 7 * 24 * 3600) ->
       RefreshToken s vw mw' (TokenPair.RefreshToken pair) = again /\
       is_Ok (ValidateToken s vw (TokenPair.RefreshToken pair)) = true) /\
      (vw_Now_exp vw <= time_Unix (Unix (mw_Now mw) + 24 * 3600) ->
       RefreshToken s vw mw' (TokenPair.AccessToken pair) = again) /\
      (utf8_ValidString sub = true -> utf8_ValidString email = true ->
       utf8_ValidString name = true ->
       again = GenerateTokenPair s mw' sub email name).
Proof.
  intros s mw mw' vw sub email name Hk Hctx Hnow Hb Hvw Hnbf.
  destruct (minted_pair_validation s mw sub email name Hk Hctx Hnow Hb)
    as (pair & access & refresh & Hgen & Ha1 & Ha2 & Ha3 & Hr1 & Hr2 & Hr3 & _ & Hval).
  exists pair. split; [exact Hgen|]. cbv zeta.
  destruct (Hval vw Hvw) as [Hva Hvr].
  unfold RefreshToken. rewrite Hvw, Hva, Hvr. unfold After, Before.
  replace (vw_Now_nbf vw <? time_Unix (Unix (mw_Now mw))) with false
    by (symmetry; apply Z.ltb_ge; exact Hnbf).
  split; [|split].
  - intros He.
    replace (_ <? vw_Now_exp vw) with false by (symmetry; apply Z.ltb_ge; exact He).
    rewrite Hr1, Hr2, Hr3. split; reflexivity.
  - intros He.
    replace (time_Unix (Unix (mw_Now mw) + 24 * 3600) <? vw_Now_exp vw) with false
      by (symmetry; apply Z.ltb_ge; exact He).
    rewrite Ha1, Ha2, Ha3. reflexivity.
  - intros Hs He Hn. rewrite !json_text_valid by assumption. reflexivity.
Qed.

End TokenLifetime.

Lemma minted_access_token_lifetime_witness :
  exists pair : TokenPair.t,
    GenerateTokenPair ToyJose.service ToyJose.minting "acct-1" "a@x" "A" = Ok pair /\
    ValidateToken ToyJose.service (ToyJose.validating 86400) (TokenPair.AccessToken pair)
    = Err "token has expired".
Proof.
  destruct (minted_access_token_lifetime (J := ToyJose.jose) ToyJose.service ToyJose.minting
              "acct-1" "a@x" "A") as (pair & Hgen & Hval).
  - reflexivity.
  - reflexivity.
  - vm_compute. discriminate.
  - vm_compute. reflexivity.
  - exists pair. split; [exact Hgen|].
    destruct (Hval (ToyJose.validating 86400) eq_refl) as (_ & Hexp & _).
    apply Hexp. vm_compute. reflexivity.
Defined.

Lemma refresh_accepts_either_token_witness :
  exists pair : TokenPair.t,
    GenerateTokenPair ToyJose.service ToyJose.minting "acct-1" "a@x" "A" = Ok pair /\
    RefreshToken ToyJose.service (ToyJose.validating 60) ToyJose.minting
      (TokenPair.AccessToken pair)
    = GenerateTokenPair ToyJose.service ToyJose.minting "acct-1" "a@x" "A".
Proof.
  destruct (refresh_accepts_either_token (J := ToyJose.jose) ToyJose.service ToyJose.minting
              ToyJose.minting (ToyJose.validating 60) "acct-1" "a@x" "A")
    as (pair & Hgen & _ & Haccess & Hvalid).
  - reflexivity.
  - reflexivity.
  - vm_compute. discriminate.
  - vm_compute. reflexivity.
  - reflexivity.
  - vm_compute. discriminate.
  - exists pair. split; [exact Hgen|].
    rewrite <- (Hvalid eq_refl eq_refl eq_refl).
    apply Haccess. vm_compute. discriminate.
Defined.

(** ** Keys of long secrets, the hasher's cost, generated ids *)

(** X12.  Only the first 32 bytes of a secret reach the keys: two secrets
    of 32 bytes or more that agree on their first 32 bytes give the same
    service, and in it the encryption key and the signing key are the same
    32 bytes. *)
Theorem long_secrets_share_keys :
  forall (rt : Runtime) (secret secret' issuer : string) (audience : option (list string)),
    (32 <= String.length secret)%nat -> (32 <= String.length secret')%nat ->
    List.firstn 32 (bytes_of_string secret) = List.firstn 32 (bytes_of_string secret') ->
    exists svc : JWETokenService.t,
      NewJWETokenService rt secret issuer audience = Returned svc /\
      NewJWETokenService rt secret' issuer audience = Returned svc /\
      JWETokenService.encryptionKey svc = JWETokenService.signingKey svc /\
      List.length (JWETokenService.encryptionKey svc) = 32%nat.
Proof.
  intros rt secret secret' issuer audience H H' Hpre.
  rewrite (derived_keys_coincide rt secret issuer audience H).
  rewrite (derived_keys_coincide rt secret' issuer audience H').
  rewrite <- Hpre. eexists. split; [reflexivity|]. split; [reflexivity|].
  split; [reflexivity|]. simpl.
  rewrite List.length_firstn, length_bytes_of_string. lia.
Qed.

Lemma long_secrets_share_keys_witness :
  exists svc : JWETokenService.t,
    NewJWETokenService exact_fit "0123456789abcdef0123456789abcdef-one" "iss" None
      = Returned svc /\
    NewJWETokenService exact_fit "0123456789abcdef0123456789abcdef-two" "iss" None
      = Returned svc /\
    JWETokenService.encryptionKey svc = JWETokenService.signingKey svc /\
    List.length (JWETokenService.encryptionKey svc) = 32%nat.
Proof.
  apply (long_secrets_share_keys exact_fit "0123456789abcdef0123456789abcdef-one"
           "0123456789abcdef0123456789abcdef-two" "iss" None).
  - simpl. lia.
  - simpl. lia.
  - vm_compute. reflexivity.
Defined.

Section HasherCost.

Context {D : bcrypt.Digest}.

(** X13.  Whatever cost the hasher is constructed with, the cost it keeps
    lies between bcrypt's minimum and maximum (a cost in that range is kept,
    any other replaced by the default), so hashing a password of 1 to 72
    bytes never fails on the cost: it returns the verifier of the kept cost,
    the salt and the key material of the password. *)
Theorem constructed_hasher_hashes :
  forall (cost : Z) (salt : list Z) (password : string),
    password <> "" -> (String.length password <= 72)%nat ->
    let h := BcryptPasswordHasher.New cost in
    bcrypt.MinCost <= BcryptPasswordHasher.cost h <= bcrypt.MaxCost /\
    (bcrypt.MinCost <= cost <= bcrypt.MaxCost -> BcryptPasswordHasher.cost h = cost) /\
    (cost < bcrypt.MinCost \/ bcrypt.MaxCost < cost ->
     BcryptPasswordHasher.cost h = bcrypt.DefaultCost) /\
    BcryptPasswordHasher.Hash h salt password
    = Ok (bcrypt.hash_string (BcryptPasswordHasher.cost h) salt
            (bcrypt.key_stream (bytes_of_string password))).
Proof.
  intros cost salt password Hne Hlen h.
  assert (Hrange : bcrypt.MinCost <= BcryptPasswordHasher.cost h <= bcrypt.MaxCost /\
                   (bcrypt.MinCost <= cost <= bcrypt.MaxCost ->
                    BcryptPasswordHasher.cost h = cost) /\
                   (cost < bcrypt.MinCost \/ bcrypt.MaxCost < cost ->
                    BcryptPasswordHasher.cost h = bcrypt.DefaultCost)).
  { subst h. unfold BcryptPasswordHasher.New, bcrypt.MinCost, bcrypt.MaxCost,
      bcrypt.DefaultCost.
    destruct (cost <? 4) eqn:E1; destruct (31 <? cost) eqn:E2; simpl;
      try apply Z.ltb_lt in E1; try apply Z.ltb_ge in E1;
      try apply Z.ltb_lt in E2; try apply Z.ltb_ge in E2; lia. }
  destruct Hrange as (Hr & Hkeep & Hdef).
  split; [exact Hr|]. split; [exact Hkeep|]. split; [exact Hdef|].
  unfold BcryptPasswordHasher.Hash, bcrypt.GenerateFromPassword.
  rewrite length_bytes_of_string.
  replace (String.length password =? 0)%nat with false
    by (symmetry; apply Nat.eqb_neq; destruct password; [congruence | simpl; lia]).
  replace (72 <? String.length password)%nat with false
    by (symmetry; apply Nat.ltb_ge; exact Hlen).
  replace (BcryptPasswordHasher.cost h <? bcrypt.MinCost) with false
    by (symmetry; apply Z.ltb_ge; lia).
  replace (bcrypt.MaxCost <? BcryptPasswordHasher.cost h) with false
    by (symmetry; apply Z.ltb_ge; lia).
  reflexivity.
Qed.

End HasherCost.

Lemma constructed_hasher_hashes_witness :
  BcryptPasswordHasher.cost (BcryptPasswordHasher.New 99) = 10 /\
  is_Ok (BcryptPasswordHasher.Hash (D := ToyDigest.digest) (BcryptPasswordHasher.New 99)
           ToyDigest.salt "Passw0rd!") = true.
Proof.
  destruct (constructed_hasher_hashes (D := ToyDigest.digest) 99 ToyDigest.salt "Passw0rd!")
    as (_ & _ & Hdef & Hhash).
  - discriminate.
  - vm_compute. lia.
  - split.
    + apply Hdef. right. reflexivity.
    + rewrite Hhash. reflexivity.
Defined.

Section HexFacts.

Lemma hexdigit_is_hex (n : nat) : (n < 16)%nat -> is_hex_digit (hexdigit (Z.of_nat n)) = true.
Proof.
  intros Hn. do 16 (destruct n as [|n]; [reflexivity|]). lia.
Qed.

Lemma hexdigit_inj (n m : nat) :
  (n < 16)%nat -> (m < 16)%nat -> hexdigit (Z.of_nat n) = hexdigit (Z.of_nat m) -> n = m.
Proof.
  intros Hn Hm.
  do 16 (destruct n as [|n];
         [do 16 (destruct m as [|m]; [first [reflexivity | intros E; cbv in E; discriminate]|]);
          lia|]).
  lia.
Qed.

Lemma byte_nibbles (v : Z) :
  is_byte v ->
  exists hi lo : nat,
    (hi < 16)%nat /\ (lo < 16)%nat /\
    Z.shiftr v 4 = Z.of_nat hi /\ Z.land v 15 = Z.of_nat lo /\
    v = 16 * Z.of_nat hi + Z.of_nat lo.
Proof.
  intros [H0 H1].
  assert (Hs : Z.shiftr v 4 = v / 16) by (rewrite Z.shiftr_div_pow2 by lia; reflexivity).
  assert (Hl : Z.land v 15 = v mod 16) by (change 15 with (Z.ones 4); rewrite Z.land_ones by lia; reflexivity).
  pose proof (Z.div_mod v 16 ltac:(lia)) as Hdm.
  pose proof (Z.mod_pos_bound v 16 ltac:(lia)) as Hm.
  assert (0 <= v / 16 < 16) by (split; [apply Z.div_pos; lia | apply Z.div_lt_upper_bound; lia]).
  exists (Z.to_nat (v / 16)), (Z.to_nat (v mod 16)).
  rewrite !Z2Nat.id by lia. repeat split; try lia; assumption.
Qed.

Lemma hex_EncodeToString_length (src : list Z) :
  String.length (hex_EncodeToString src) = (2 * List.length src)%nat.
Proof. induction src as [|v src IH]; simpl; [reflexivity | rewrite IH; lia]. Qed.

Lemma hex_EncodeToString_digits (src : list Z) :
  List.Forall is_byte src ->
  List.forallb is_hex_digit (list_ascii_of_string (hex_EncodeToString src)) = true.
Proof.
  induction 1 as [|v src Hv _ IH]; [reflexivity|].
  destruct (byte_nibbles v Hv) as (hi & lo & Hhi & Hlo & Hs & Hl & _).
  cbn [hex_EncodeToString list_ascii_of_string List.forallb].
  rewrite Hs, Hl, !hexdigit_is_hex by assumption. exact IH.
Qed.

Lemma hex_EncodeToString_inj (a b : list Z) :
  List.Forall is_byte a -> List.Forall is_byte b ->
  hex_EncodeToString a = hex_EncodeToString b -> a = b.
Proof.
  intros Ha. revert b. induction Ha as [|v a Hv _ IH]; intros b Hb E.
  - destruct b; [reflexivity | discriminate].
  - destruct Hb as [|v' b Hv' Hb]; [discriminate|].
    cbn [hex_EncodeToString] in E. injection E as E1 E2 E3.
    destruct (byte_nibbles v Hv) as (hi & lo & Hhi & Hlo & Hs & Hl & Hv1).
    destruct (byte_nibbles v' Hv') as (hi' & lo' & Hhi' & Hlo' & Hs' & Hl' & Hv1').
    rewrite Hs, Hs' in E1. rewrite Hl, Hl' in E2.
    apply hexdigit_inj in E1; [|assumption..].
    apply hexdigit_inj in E2; [|assumption..].
    f_equal; [lia | apply IH; assumption].
Qed.

End HexFacts.

(** X14.  The id generator turns the 16 random bytes into 32 lower-case
    hexadecimal digits, so a generated id is never empty, and different
    byte strings give different ids. *)
Theorem generated_ids :
  forall (bytes bytes' : list Z) (id id' : string),
    List.length bytes = 16%nat -> List.Forall is_byte bytes ->
    List.Forall is_byte bytes' ->
    IDGenerator_Generate (Ok bytes) = Ok id ->
    IDGenerator_Generate (Ok bytes') = Ok id' ->
    String.length id = 32%nat /\ id <> "" /\
    List.forallb is_hex_digit (list_ascii_of_string id) = true /\
    (id = id' -> bytes = bytes').
Proof.
  intros bytes bytes' id id' Hlen Hb Hb' [= <-] [= <-].
  assert (Hl : String.length (hex_EncodeToString bytes) = 32%nat)
    by (rewrite hex_EncodeToString_length, Hlen; reflexivity).
  split; [exact Hl|]. split.
  - intros E. rewrite E in Hl. discriminate.
  - split; [apply hex_EncodeToString_digits; exact Hb|].
    apply hex_EncodeToString_inj; assumption.
Qed.

Lemma generated_ids_witness :
  String.length (hex_EncodeToString (List.repeat 171 16)) = 32%nat /\
  hex_EncodeToString (List.repeat 171 16) <> "".
Proof.
  assert (Hb : List.Forall is_byte (List.repeat 171 16))
    by (repeat constructor; unfold is_byte; lia).
  destruct (generated_ids (List.repeat 171 16) (List.repeat 171 16)
              (hex_EncodeToString (List.repeat 171 16))
              (hex_EncodeToString (List.repeat 171 16)) eq_refl Hb Hb eq_refl eq_refl)
    as (H1 & H2 & _).
  split; [exact H1 | exact H2].
Defined.

(** ** Bearer tokens: the userinfo endpoint and [RequireAuth] *)

Section SplitFacts.

Variable sep : ascii.

Lemma Split_not_nil (s : string) : Split s sep <> [].
Proof.
  destruct s as [|c s]; simpl; [discriminate|].
  destruct (Ascii.eqb c sep); [discriminate|].
  destruct (Split s sep); discriminate.
Qed.

Lemma Split_without_sep (s : string) : occurs sep s = false -> Split s sep = [s].
Proof.
  induction s as [|c s IH]; simpl; [reflexivity|].
  intros H. apply orb_false_iff in H as [Hc Hs]. rewrite Hc, (IH Hs). reflexivity.
Qed.

Lemma Split_at_sep (a b : string) :
  occurs sep a = false -> Split (a +:+ String sep b) sep = a :: Split b sep.
Proof.
  induction a as [|c a IH]; simpl.
  - intros _. rewrite Ascii.eqb_refl. reflexivity.
  - intros H. apply orb_false_iff in H as [Hc Ha]. rewrite Hc.
    change (a +:+ String sep b) with (a +:+ String sep b).
    rewrite (IH Ha). reflexivity.
Qed.

Lemma Split_cons (s a : string) (rest : list string) :
  Split s sep = a :: rest ->
  occurs sep a = false /\
  match rest with
  | [] => s = a
  | _ :: _ => exists b, s = a +:+ String sep b /\ Split b sep = rest
  end.
Proof.
  revert a rest. induction s as [|c s IH]; simpl; intros a rest H.
  - injection H as <- <-. split; reflexivity.
  - destruct (Ascii.eqb c sep) eqn:Hc.
    + injection H as <- <-. split; [reflexivity|].
      apply Ascii.eqb_eq in Hc. subst c.
      pose proof (Split_not_nil s) as Hn.
      destruct (Split s sep) eqn:E; [congruence|].
      exists s. split; [reflexivity | exact E].
    + destruct (Split s sep) as [|first others] eqn:E.
      * destruct (Split_not_nil s E).
      * injection H as <- <-.
        destruct (IH first others eq_refl) as [Hocc Hrest].
        split; [simpl; rewrite Hc; exact Hocc|].
        destruct others as [|o others].
        -- subst s. reflexivity.
        -- destruct Hrest as (b & -> & Hb). exists b. split; [reflexivity | exact Hb].
Qed.

End SplitFacts.

(** The header values from which the two readers take a token. *)
Lemma bearer_token_Some (authHeader token : string) :
  bearer_token authHeader = Some token
  <-> authHeader = "Bearer " +:+ token /\ occurs " " token = false.
Proof.
  unfold bearer_token. split.
  - destruct (Split authHeader " ") as [|scheme [|tok [|x rest]]] eqn:E; try discriminate.
    destruct (String.eqb scheme "Bearer") eqn:Es; [|discriminate].
    intros [= ->]. apply String.eqb_eq in Es. subst scheme.
    apply Split_cons in E as [_ (b & -> & Hb)].
    apply Split_cons in Hb as [Hocc ->]. split; [reflexivity | exact Hocc].
  - intros [-> Hocc].
    change ("Bearer " +:+ token) with ("Bearer" +:+ String " " token).
    rewrite Split_at_sep by reflexivity.
    rewrite Split_without_sep by exact Hocc. reflexivity.
Qed.

(** X15.  [RequireAuth] passes a request on exactly when its
    Authorization header is ["Bearer "] followed by a token that is not
    empty, holds no space and validates, the context being live; it then
    hands on the subject and the email of the claims.  Every other request
    is answered with status 401, whatever the reason. *)
Theorem RequireAuth_passes_bearer_tokens :
  forall (ctx_Err : option error) (tokenService_ValidateToken : string -> result Claims.t)
         (authHeader : string),
    match RequireAuth ctx_Err tokenService_ValidateToken Reply.fresh authHeader with
    | inr (userID, userEmail) =>
        ctx_Err = None /\
        exists token claims,
          authHeader = "Bearer " +:+ token /\ token <> "" /\ occurs " " token = false /\
          tokenService_ValidateToken token = Ok claims /\
          userID = Claims.Subject claims /\ userEmail = Claims.Email claims
    | inl w =>
        Reply.Status w = Some StatusUnauthorized /\
        forall token claims,
          authHeader = "Bearer " +:+ token -> token <> "" -> occurs " " token = false ->
          ctx_Err = None -> tokenService_ValidateToken token <> Ok claims
    end.
Proof.
  intros ctx_Err V authHeader. unfold RequireAuth.
  destruct (String.eqb authHeader "") eqn:Ee.
  - apply String.eqb_eq in Ee. subst authHeader. split; [reflexivity|].
    intros token claims E. discriminate.
  - destruct (bearer_token authHeader) as [token|] eqn:Eb.
    + apply bearer_token_Some in Eb as [-> Hocc].
      unfold AuthUseCase.ValidateToken.
      destruct ctx_Err as [e|].
      * split; [reflexivity|]. intros; discriminate.
      * destruct (String.eqb token "") eqn:Et.
        -- apply String.eqb_eq in Et. subst token. split; [reflexivity|].
           intros token claims E Hne. apply append_suffix_inj in E. congruence.
        -- apply String.eqb_neq in Et.
           destruct (V token) as [claims|e] eqn:Ev.
           ++ split; [reflexivity|]. exists token, claims. repeat split; assumption.
           ++ split; [reflexivity|]. intros token' claims E _ _ _.
              apply append_suffix_inj in E. subst token'. congruence.
    + split; [reflexivity|]. intros token claims -> _ Hocc _.
      assert (bearer_token ("Bearer " +:+ token) = Some token)
        by (apply bearer_token_Some; split; [reflexivity | exact Hocc]).
      congruence.
Qed.

(** X16.  The userinfo endpoint answers 200 exactly to a GET whose
    Authorization header is ["Bearer "] followed by a token without spaces
    that validates to claims whose subject is the id of a stored account;
    the body is then the profile of that account.  All live contexts. *)
Theorem UserInfoHandler_answers_200 :
  forall (V : string -> result Claims.t) (accounts : gmap string Account.t)
         (method authHeader : string),
    let pw := {| pw_ctx_Err := None; pw_ctx_Err_ValidateToken := None;
                 pw_ValidateToken := V; pw_ctx_Err_GetAccount := None;
                 pw_ctx_Err_GetByID := None |} in
    let w := UserInfoHandler pw accounts Reply.fresh method authHeader in
    (Reply.Status w = Some StatusOK
     <-> method = "GET" /\
         exists token claims acc,
           authHeader = "Bearer " +:+ token /\ token <> "" /\ occurs " " token = false /\
           V token = Ok claims /\ Claims.Subject claims <> "" /\
           accounts !! Claims.Subject claims = Some acc /\
           Reply.Body w =
           [EncProfile (AccountProfile.mk (Account.ID acc) (Account.Email acc)
                          (Account.Verified acc) (Account.Name acc) (Account.Nickname acc)
                          (Account.Picture acc))]) /\
    (Reply.Status w = Some StatusOK \/ Reply.Status w = Some StatusUnauthorized
     \/ Reply.Status w = Some StatusMethodNotAllowed).
Proof.
  intros V accounts method authHeader pw w. subst w. unfold UserInfoHandler.
  destruct (String.eqb method "GET") eqn:Em; cbn [negb].
  2:{ apply String.eqb_neq in Em. split; [|right; right; reflexivity].
      split; [discriminate | intros [E _]; congruence]. }
  apply String.eqb_eq in Em.
  destruct (String.eqb authHeader "") eqn:Ee.
  { apply String.eqb_eq in Ee. subst authHeader. split; [|right; left; reflexivity].
    split; [discriminate|]. intros (_ & token & claims & acc & E & _). discriminate. }
  destruct (bearer_token authHeader) as [token|] eqn:Eb.
  2:{ split; [|right; left; reflexivity]. split; [discriminate|].
      intros (_ & token & claims & acc & -> & _ & Hocc & _).
      assert (bearer_token ("Bearer " +:+ token) = Some token)
        by (apply bearer_token_Some; split; [reflexivity | exact Hocc]).
      congruence. }
  apply bearer_token_Some in Eb as [-> Hocc].
  unfold AuthUseCase.GetAccountProfile, AuthUseCase.ValidateToken, AccountUseCase.GetAccount,
    InMemoryAccountRepository.GetByID.
  subst pw. cbn [pw_ctx_Err pw_ctx_Err_ValidateToken pw_ValidateToken pw_ctx_Err_GetAccount
                   pw_ctx_Err_GetByID].
  destruct (String.eqb token "") eqn:Et.
  { apply String.eqb_eq in Et. subst token. split; [|right; left; reflexivity].
    split; [discriminate|].
    intros (_ & token & claims & acc & E & Hne & _).
    apply append_suffix_inj in E. congruence. }
  apply String.eqb_neq in Et.
  destruct (V token) as [claims|e] eqn:Ev.
  2:{ split; [|right; left; reflexivity]. split; [discriminate|].
      intros (_ & token' & claims & acc & E & _ & _ & Hv & _).
      apply append_suffix_inj in E. subst token'. congruence. }
  destruct (String.eqb (Claims.Subject claims) "") eqn:Es.
  { apply String.eqb_eq in Es. split; [|right; left; reflexivity]. split; [discriminate|].
    intros (_ & token' & claims' & acc & E & _ & _ & Hv & Hs & _).
    apply append_suffix_inj in E. subst token'. congruence. }
  apply String.eqb_neq in Es.
  destruct (accounts !! Claims.Subject claims) as [acc|] eqn:Ea.
  - split; [|left; reflexivity]. split; [|reflexivity].
    intros _. split; [exact Em|]. exists token, claims, acc.
    repeat split; try assumption.
  - split; [|right; left; reflexivity]. split; [discriminate|].
    intros (_ & token' & claims' & acc & E & _ & _ & Hv & _ & Hl & _).
    apply append_suffix_inj in E. subst token'. congruence.
Qed.

(** ** The token endpoint *)

(** X17.  What the token endpoint answers.  A token pair is written, with
    status 200, only when the exchange of the code or the refresh succeeded,
    and it is the pair that call returned; every other reply is one of five
    fixed error objects; the registry is touched by the exchange only; the
    handler panics only on a code shorter than 8 bytes, before the registry
    is reached.  Case by case: a method other than POST is answered 405
    [method_not_allowed]; a POST with another grant type 400
    [unsupported_grant_type]; a code grant that lacks the code, the client id
    or the verifier 400 [invalid_request]; a code grant with all three and a
    code of at least 8 bytes is answered 401 [invalid_grant] whenever the
    exchange fails, whatever check failed, and 200 with the pair when it
    succeeds, the registry being the one the exchange left; a refresh grant
    without a token 400 [invalid_request]; a refresh grant with a token 401
    [invalid_grant] whenever the refresh fails and 200 with the pair when it
    succeeds. *)
Theorem token_endpoint_replies :
  forall (xw : World) (RefreshAuthentication : string -> result TokenPair.t)
         (codes : gmap string AuthorizationCode.t) (r : Request.t),
    let code := Request.FormValue r "code" in
    let exchanged :=
      ExchangeCodeForTokens xw codes code (Request.FormValue r "client_id")
        (Request.FormValue r "code_verifier") (Request.FormValue r "redirect_uri") in
    let refreshed := RefreshAuthentication (Request.FormValue r "refresh_token") in
    let reply := TokenHandler xw RefreshAuthentication codes Reply.fresh r in
    match fst reply with
    | Panicked _ =>
        snd reply = codes /\ (String.length code < 8)%nat /\
        Request.Method r = "POST" /\
        Request.FormValue r "grant_type" = "authorization_code"
    | Returned w =>
        (snd reply = codes \/
         (snd reply = snd exchanged /\ (8 <= String.length code)%nat /\
          Request.FormValue r "grant_type" = "authorization_code")) /\
        ((exists tokenPair,
            w = Reply.sendJSON Reply.fresh (EncTokenPair tokenPair) StatusOK /\
            (fst exchanged = Ok tokenPair /\ snd reply = snd exchanged \/
             refreshed = Ok tokenPair)) \/
         (exists err status,
            w = Reply.sendError Reply.fresh err status /\
            In (err, status) token_endpoint_errors))
    end
    /\ (Request.Method r <> "POST" ->
        reply = (Returned (Reply.sendError Reply.fresh ErrMethodNotAllowed
                             StatusMethodNotAllowed), codes))
    /\ (Request.Method r = "POST" ->
        Request.FormValue r "grant_type" <> "authorization_code" ->
        Request.FormValue r "grant_type" <> "refresh_token" ->
        reply = (Returned (Reply.sendError Reply.fresh ErrUnsupportedGrantType
                             StatusBadRequest), codes))
    /\ (Request.Method r = "POST" ->
        Request.FormValue r "grant_type" = "authorization_code" ->
        (code = "" \/ Request.FormValue r "client_id" = ""
         \/ Request.FormValue r "code_verifier" = "" ->
         reply = (Returned (Reply.sendError Reply.fresh
                              (AppError.WithMessage ErrInvalidRequest
                                 "code, client_id, and code_verifier are required")
                              StatusBadRequest), codes))
        /\ (code <> "" -> Request.FormValue r "client_id" <> "" ->
            Request.FormValue r "code_verifier" <> "" ->
            (8 <= String.length code)%nat ->
            (forall e, fst exchanged = Err e ->
               reply = (Returned (Reply.sendError Reply.fresh ErrInvalidGrant
                                    StatusUnauthorized), snd exchanged))
            /\ (forall tokenPair, fst exchanged = Ok tokenPair ->
                  reply = (Returned (Reply.sendJSON Reply.fresh (EncTokenPair tokenPair)
                                       StatusOK), snd exchanged))))
    /\ (Request.Method r = "POST" ->
        Request.FormValue r "grant_type" = "refresh_token" ->
        (Request.FormValue r "refresh_token" = "" ->
         reply = (Returned (Reply.sendError Reply.fresh
                              (AppError.WithMessage ErrInvalidRequest
                                 "refresh_token is required") StatusBadRequest), codes))
        /\ (Request.FormValue r "refresh_token" <> "" ->
            (forall e, refreshed = Err e ->
               reply = (Returned (Reply.sendError Reply.fresh ErrInvalidGrant
                                    StatusUnauthorized), codes))
            /\ (forall tokenPair, refreshed = Ok tokenPair ->
                  reply = (Returned (Reply.sendJSON Reply.fresh (EncTokenPair tokenPair)
                                       StatusOK), codes)))).
Proof.
  intros xw refresh codes r code exchanged refreshed reply.
  split.
  { subst reply. unfold TokenHandler.
  destruct (String.eqb (Request.Method r) "POST") eqn:Em; cbn [negb fst snd].
  2:{ split; [left; reflexivity|]. right. do 2 eexists. split; [reflexivity|].
      simpl. auto. }
  apply String.eqb_eq in Em.
  destruct (String.eqb (Request.FormValue r "grant_type") "authorization_code") eqn:Eg.
  - apply String.eqb_eq in Eg. unfold handleAuthorizationCodeGrant. fold code.
    destruct (String.eqb code "" || String.eqb (Request.FormValue r "client_id") ""
              || String.eqb (Request.FormValue r "code_verifier") "") eqn:Ereq.
    { cbn [fst snd]. split; [left; reflexivity|]. right. do 2 eexists.
      split; [reflexivity|]. simpl. auto. }
    destruct (String.length code <? 8)%nat eqn:El.
    { cbn [fst snd]. apply Nat.ltb_lt in El. repeat split; assumption. }
    apply Nat.ltb_ge in El. fold exchanged.
    destruct exchanged as [[tokenPair|e] codes'] eqn:Ex; cbn [fst snd].
    + split; [right; repeat split; assumption|].
      left. exists tokenPair. split; [reflexivity|]. left. split; reflexivity.
    + split; [right; repeat split; assumption|].
      right. do 2 eexists. split; [reflexivity|]. simpl. auto 10.
  - destruct (String.eqb (Request.FormValue r "grant_type") "refresh_token") eqn:Er;
      cbn [fst snd].
    + split; [left; reflexivity|]. unfold handleRefreshToken. fold refreshed.
      destruct (String.eqb (Request.FormValue r "refresh_token") "").
      * right. do 2 eexists. split; [reflexivity|]. simpl. auto 10.
      * destruct refreshed as [tokenPair|e] eqn:Ef.
        -- left. exists tokenPair. split; [reflexivity|]. right. reflexivity.
        -- right. do 2 eexists. split; [reflexivity|]. simpl. auto 10.
    + split; [left; reflexivity|]. right. do 2 eexists. split; [reflexivity|].
      simpl. auto. }
  subst reply. unfold TokenHandler.
  split; [|split; [|split]].
  - intros Hm. apply String.eqb_neq in Hm. rewrite Hm. reflexivity.
  - intros Hm Hg1 Hg2. apply String.eqb_eq in Hm. apply String.eqb_neq in Hg1, Hg2.
    rewrite Hm, Hg1, Hg2. reflexivity.
  - intros Hm Hg. apply String.eqb_eq in Hm, Hg. rewrite Hm, Hg. cbn [negb].
    unfold handleAuthorizationCodeGrant. fold code. split.
    + intros Hmiss.
      replace (String.eqb code "" || String.eqb (Request.FormValue r "client_id") ""
               || String.eqb (Request.FormValue r "code_verifier") "") with true;
        [reflexivity|].
      symmetry. rewrite !orb_true_iff, !String.eqb_eq. tauto.
    + intros H1 H2 H3 Hl.
      apply String.eqb_neq in H1, H2, H3. rewrite H1, H2, H3. cbn [orb].
      replace (String.length code <? 8)%nat with false
        by (symmetry; apply Nat.ltb_ge; exact Hl).
      fold exchanged. destruct exchanged as [[tokenPair|e] codes']; cbn [fst snd].
      * split; [discriminate|]. intros tp [= <-]. reflexivity.
      * split; [reflexivity|]. discriminate.
  - intros Hm Hg. apply String.eqb_eq in Hm.
    assert (Hg' : String.eqb (Request.FormValue r "grant_type") "authorization_code" = false)
      by (rewrite Hg; reflexivity).
    apply String.eqb_eq in Hg. rewrite Hm, Hg', Hg. cbn [negb].
    unfold handleRefreshToken. fold refreshed. split.
    + intros ->. reflexivity.
    + intros Ht. apply String.eqb_neq in Ht. rewrite Ht.
      destruct refreshed as [tokenPair|e].
      * split; [discriminate|]. intros tp [= <-]. reflexivity.
      * split; [reflexivity|]. discriminate.
Qed.

(** X18.  A token request whose code is not empty but shorter than 8
    bytes, with a client id and a verifier, makes the handler panic: the
    log record slices the first 8 bytes of the code before the exchange is
    tried.  No reply is written and the registry is unchanged. *)
Theorem token_endpoint_short_code_panics :
  forall (xw : World) (RefreshAuthentication : string -> result TokenPair.t)
         (codes : gmap string AuthorizationCode.t) (w : Reply.t)
         (code clientID codeVerifier redirectURI : string),
    code <> "" -> clientID <> "" -> codeVerifier <> "" ->
    (String.length code < 8)%nat ->
    TokenHandler xw RefreshAuthentication codes w
      (token_post code clientID codeVerifier redirectURI)
    = (Panicked "runtime error: slice bounds out of range", codes).
Proof.
  intros xw refresh codes w code clientID codeVerifier redirectURI Hc Hi Hv Hl.
  unfold TokenHandler, handleAuthorizationCodeGrant, token_post, Request.FormValue.
  cbn [Request.Method Request.PostForm String.eqb Ascii.eqb Bool.eqb negb].
  simplify_map_eq. cbn [String.eqb Ascii.eqb Bool.eqb].
  apply String.eqb_neq in Hc, Hi, Hv. rewrite Hc, Hi, Hv. cbn [orb].
  replace (String.length code <? 8)%nat with true by (symmetry; apply Nat.ltb_lt; exact Hl).
  reflexivity.
Qed.

Lemma token_endpoint_short_code_panics_witness :
  TokenHandler (Scenario.world 0) (fun _ => Err "unused") Scenario.codes Reply.fresh
    (token_post "abc" "c1" Scenario.verifier "https://x/cb")
  = (Panicked "runtime error: slice bounds out of range", Scenario.codes).
Proof.
  apply (token_endpoint_short_code_panics (Scenario.world 0) (fun _ => Err "unused")
           Scenario.codes Reply.fresh "abc" "c1" Scenario.verifier "https://x/cb").
  - discriminate.
  - discriminate.
  - discriminate.
  - simpl. lia.
Defined.

(** ** The authorization-code flow, end to end *)

Lemma encode_padded_length (src : list Z) :
  src <> [] -> (4 <= String.length (Base64.encode true src))%nat.
Proof.
  destruct src as [|a [|b [|c rest]]]; simpl; intros H; try congruence; lia.
Qed.

Lemma issued_code_length (codeBytes : list Z) :
  List.length codeBytes = 32%nat ->
  (8 <= String.length (Base64.URLEncoding_EncodeToString codeBytes))%nat.
Proof.
  intros H. unfold Base64.URLEncoding_EncodeToString.
  destruct codeBytes as [|a [|b [|c [|d rest]]]]; try discriminate.
  pose proof (encode_padded_length (d :: rest) ltac:(discriminate)) as Hrest.
  change (Base64.encode true (a :: b :: c :: d :: rest))
    with (String (Base64.digit (Z.shiftr a 2))
            (String (Base64.digit (Z.lor (Z.shiftl (Z.land a 3) 4) (Z.shiftr b 4)))
               (String (Base64.digit (Z.lor (Z.shiftl (Z.land b 15) 2) (Z.shiftr c 6)))
                  (String (Base64.digit (Z.land c 63)) (Base64.encode true (d :: rest)))))).
  cbn [String.length]. lia.
Qed.

Section Flow.

Context {U : NetURL}.
Variable Compare : string -> string -> option error.
Variable mint : string -> string -> string -> result TokenPair.t.
Variable RefreshAuthentication : string -> result TokenPair.t.

(** X19.  The flow as the two handlers run it.  A login posted to the
    authorization endpoint with the email and password of a stored account,
    a client id, a redirect URI and an S256 challenge is answered 302 with
    the new code (and the state, when there is one) appended to the redirect
    URI.  A token request that arrives within ten minutes with that code,
    the same client id and redirect URI and a verifier of the challenge is
    answered 200 with the tokens of the account, and the code is gone: the
    same request again is answered 401 [invalid_grant]. *)
Theorem authorization_code_flow :
  forall (accounts : gmap string Account.t) (codes : gmap string AuthorizationCode.t)
         (k : string) (acc : Account.t) (password : string) (codeBytes : list Z)
         (issued_at exchanged_at : Time)
         (clientID redirectURI state scope codeVerifier : string) (tokenPair : TokenPair.t),
    InMemoryAccountRepository.well_formed accounts ->
    accounts !! k = Some acc -> k <> "" -> Account.Email acc <> "" -> password <> "" ->
    Compare (Account.Password acc) password = None ->
    List.length codeBytes = 32%nat ->
    clientID <> "" -> redirectURI <> "" -> codeVerifier <> "" ->
    expectedChallenge codeVerifier <> "" ->
    exchanged_at <= Add issued_at (10 * Minute) ->
    mint (Account.ID acc) (Account.Email acc) (Account.Name acc) = Ok tokenPair ->
    let code := Base64.URLEncoding_EncodeToString codeBytes in
    let iw := issue_world_of None None None Compare accounts (Ok codeBytes) issued_at in
    let xw := exchange_world_of None None None accounts mint exchanged_at in
    let login :=
      authorize_post clientID redirectURI state scope (expectedChallenge codeVerifier)
        (Account.Email acc) password in
    let request := token_post code clientID codeVerifier redirectURI in
    let redirectURL :=
      let redirectURL := redirectURI +:+ "?code=" +:+ code in
      if negb (String.eqb state "") then redirectURL +:+ "&state=" +:+ state
      else redirectURL in
    exists (w : ResponseWriter.t) (codes1 : gmap string AuthorizationCode.t),
      AuthorizeHandler iw codes ResponseWriter.fresh login = (Returned w, codes1) /\
      ResponseWriter.Status w = Some StatusFound /\
      ResponseWriter.Header w !! "Location" = Some (redirect_location "/authorize" redirectURL) /\
      TokenHandler xw RefreshAuthentication codes1 Reply.fresh request
      = (Returned (Reply.sendJSON Reply.fresh (EncTokenPair tokenPair) StatusOK),
         delete code codes1) /\
      TokenHandler xw RefreshAuthentication (delete code codes1) Reply.fresh request
      = (Returned (Reply.sendError Reply.fresh ErrInvalidGrant StatusUnauthorized),
         delete code codes1).
Proof.
  intros accounts codes k acc password codeBytes issued_at exchanged_at
    clientID redirectURI state scope codeVerifier tokenPair
    Hwf Hk Hkne Hemail Hpw Hcmp Hlen Hclient Huri Hver Hch Htime Hmint
    code iw xw login request redirectURL.
  destruct (issued_code_is_exchanged Compare mint accounts codes k acc password codeBytes
              issued_at exchanged_at clientID redirectURI scope codeVerifier tokenPair
              Hwf Hk Hkne Hemail Hcmp Htime Hmint) as (Hissue & Hx1 & Hx2).
  fold code iw xw in Hissue, Hx1, Hx2.
  set (issue := CreateAuthorizationCode iw codes (Account.Email acc) password clientID
                  redirectURI scope (expectedChallenge codeVerifier) "S256") in *.
  pose proof (issued_code_length codeBytes Hlen) as Hcode. fold code in Hcode.
  assert (Hcode_ne : code <> "") by (intros E; rewrite E in Hcode; simpl in Hcode; lia).
  apply String.eqb_neq in Hclient, Huri, Hver, Hch, Hemail, Hpw, Hcode_ne.
  exists (ResponseWriter.WriteHeader StatusFound
            (ResponseWriter.Header_Set "Location"
               (redirect_location "/authorize" redirectURL) ResponseWriter.fresh)),
         (snd issue).
  split; [|split; [reflexivity | split; [apply lookup_insert_eq | split]]].
  - unfold AuthorizeHandler, authorize_rejection, login, authorize_post,
      Request.FormValue, Request.Query_Get.
    cbn [Request.Method Request.Query Request.PostForm Request.Path].
    simplify_map_eq. cbn [default String.eqb Ascii.eqb Bool.eqb negb andb orb].
    rewrite Hclient, Huri, Hch, Hemail, Hpw. cbn [orb negb].
    fold issue. destruct issue as [r codes1] eqn:Ei. cbn [fst snd] in *. subst r.
    unfold http_Redirect. cbn [Request.Method Request.Path ResponseWriter.Header
      ResponseWriter.fresh String.eqb Ascii.eqb Bool.eqb orb andb negb].
    reflexivity.
  - unfold TokenHandler, handleAuthorizationCodeGrant, request, token_post, Request.FormValue.
    cbn [Request.Method Request.PostForm String.eqb Ascii.eqb Bool.eqb negb].
    simplify_map_eq. cbn [String.eqb Ascii.eqb Bool.eqb].
    rewrite Hcode_ne, Hclient, Hver. cbn [orb].
    replace (String.length code <? 8)%nat with false
      by (symmetry; apply Nat.ltb_ge; exact Hcode).
    rewrite Hx1. reflexivity.
  - unfold TokenHandler, handleAuthorizationCodeGrant, request, token_post, Request.FormValue.
    cbn [Request.Method Request.PostForm String.eqb Ascii.eqb Bool.eqb negb].
    simplify_map_eq. cbn [String.eqb Ascii.eqb Bool.eqb].
    rewrite Hcode_ne, Hclient, Hver. cbn [orb].
    replace (String.length code <? 8)%nat with false
      by (symmetry; apply Nat.ltb_ge; exact Hcode).
    rewrite Hx2. reflexivity.
Qed.

End Flow.

Lemma authorization_code_flow_witness :
  exists (w : ResponseWriter.t) (codes1 : gmap string AuthorizationCode.t),
    AuthorizeHandler (U := plain_urls)
      (issue_world_of None None None (fun _ _ => None)
         {[Account.ID Scenario.alice := Scenario.alice]} (Ok (List.repeat 7 32)) 0)
      ∅ ResponseWriter.fresh
      (authorize_post "c1" "https://x/cb" "s1" "openid" (expectedChallenge Scenario.verifier)
         "a@x" "Passw0rd!")
    = (Returned w, codes1) /\
    ResponseWriter.Status w = Some StatusFound /\
    fst (TokenHandler
           (exchange_world_of None None None {[Account.ID Scenario.alice := Scenario.alice]}
              (fun _ _ _ => Ok Scenario.tokens) (9 * Minute))
           (fun _ => Err "unused") codes1 Reply.fresh
           (token_post (Base64.URLEncoding_EncodeToString (List.repeat 7 32)) "c1"
              Scenario.verifier "https://x/cb"))
    = Returned (Reply.sendJSON Reply.fresh (EncTokenPair Scenario.tokens) StatusOK).
Proof.
  destruct (authorization_code_flow (U := plain_urls) (fun _ _ => None)
              (fun _ _ _ => Ok Scenario.tokens) (fun _ => Err "unused")
              {[Account.ID Scenario.alice := Scenario.alice]} ∅
              (Account.ID Scenario.alice) Scenario.alice "Passw0rd!" (List.repeat 7 32)
              0 (9 * Minute) "c1" "https://x/cb" "s1" "openid" Scenario.verifier
              Scenario.tokens)
    as (w & codes1 & H1 & H2 & _ & H4 & _).
  - apply (well_formed_insert ∅ Scenario.alice well_formed_empty). reflexivity.
  - reflexivity.
  - discriminate.
  - discriminate.
  - discriminate.
  - reflexivity.
  - reflexivity.
  - discriminate.
  - discriminate.
  - discriminate.
  - vm_compute. discriminate.
  - vm_compute. discriminate.
  - reflexivity.
  - exists w, codes1. split; [exact H1|]. split; [exact H2|]. rewrite H4. reflexivity.
Defined.

(** ** The users listing *)

(** X20.  A GET of the users listing never fails on its parameters,
    whatever [strconv.Atoi] makes of them: it answers 200 with the views of
    a page of the accounts in the order the store hands them over, the page
    holding at most [limit] accounts after the first [offset], where [limit]
    is between 1 and 100 and is 10 when the parameter is missing, does not
    parse or is not positive, and [offset] is 0 when the parameter is
    missing, does not parse or is negative. *)
Theorem users_listing_page :
  forall (Atoi : string -> result Z) (visited : list Account.t) (r : Request.t),
    Request.Method r = "GET" ->
    Z.of_nat (List.length visited) + 100 < 2 ^ 63 ->
    exists limit offset : Z,
      1 <= limit <= 100 /\ 0 <= offset /\
      (match Atoi (Request.Query_Get r "limit") with
       | Ok l => if (0 <? l) && negb (String.eqb (Request.Query_Get r "limit") "")
                 then limit = Z.min l 100 else limit = 10
       | Err _ => limit = 10
       end) /\
      (match Atoi (Request.Query_Get r "offset") with
       | Ok o => if (0 <=? o) && negb (String.eqb (Request.Query_Get r "offset") "")
                 then offset = o else offset = 0
       | Err _ => offset = 0
       end) /\
      let page := List.firstn (Z.to_nat limit) (List.skipn (Z.to_nat offset) visited) in
      (List.length page <= 100)%nat /\
      GetUsersHandler Atoi None None visited Reply.fresh r
      = Returned (Reply.sendJSON Reply.fresh (EncUsers (UserView.of_account <$> page)) StatusOK).
Proof.
  intros Atoi visited r Hm Hlen. unfold GetUsersHandler. rewrite Hm.
  cbn [String.eqb Ascii.eqb Bool.eqb negb].
  set (limit0 := if negb (String.eqb (Request.Query_Get r "limit") "") then _ else 10).
  set (offset0 := if negb (String.eqb (Request.Query_Get r "offset") "") then _ else 0).
  rewrite ListAccounts_page by exact Hlen.
  exists (effective_limit limit0), (effective_offset offset0).
  pose proof (effective_limit_range limit0) as Hl.
  split; [exact Hl|]. split.
  { unfold effective_offset. destruct (offset0 <? 0) eqn:E; [lia | apply Z.ltb_ge in E; lia]. }
  split.
  { subst limit0. unfold effective_limit.
    destruct (String.eqb (Request.Query_Get r "limit") ""); cbn [negb];
      destruct (Atoi (Request.Query_Get r "limit")) as [l|e]; rewrite ?andb_false_r;
      try reflexivity.
    rewrite andb_true_r. destruct (0 <? l) eqn:E0; [|reflexivity].
    apply Z.ltb_lt in E0.
    replace (l <=? 0) with false by (symmetry; apply Z.leb_gt; lia).
    destruct (100 <? l) eqn:E1; [apply Z.ltb_lt in E1 | apply Z.ltb_ge in E1]; lia. }
  split.
  { subst offset0. unfold effective_offset.
    destruct (String.eqb (Request.Query_Get r "offset") ""); cbn [negb];
      destruct (Atoi (Request.Query_Get r "offset")) as [o|e]; rewrite ?andb_false_r;
      try reflexivity.
    rewrite andb_true_r. destruct (0 <=? o) eqn:E0; [|reflexivity].
    apply Z.leb_le in E0.
    replace (o <? 0) with false by (symmetry; apply Z.ltb_ge; lia). reflexivity. }
  cbv zeta. split; [|reflexivity].
  rewrite List.length_firstn. lia.
Qed.

Lemma users_listing_page_witness :
  exists page : list Account.t,
    GetUsersHandler (fun _ => Ok 1000) None None [Scenario.alice; bob] Reply.fresh
      (Request.mk "GET" "/api/v2/users" {["limit" := "1000"]} ∅)
    = Returned (Reply.sendJSON Reply.fresh (EncUsers (UserView.of_account <$> page)) StatusOK)
    /\ (List.length page <= 100)%nat.
Proof.
  destruct (users_listing_page (fun _ => Ok 1000) [Scenario.alice; bob]
              (Request.mk "GET" "/api/v2/users" {["limit" := "1000"]} ∅))
    as (limit & offset & _ & _ & _ & _ & Hlen & Hreply).
  - reflexivity.
  - vm_compute. reflexivity.
  - eexists. split; [exact Hreply | exact Hlen].
Defined.

(** ** The rate limiter *)

(** X21.  Over any run of requests, the requests of one address that the
    limiter passes on lie at least [Second / requestsPerSecond] apart, the
    first of them as far after the last request recorded for the address: a
    refused request does not move the window.  The limiter never forgets an
    address.  With [requestsPerSecond] zero, a request from a known address
    panics on the division. *)
Theorem rate_limit_spacing :
  forall (requestsPerSecond : Z) (limiter : gmap string Time) (clientIP : string)
         (requests : list (string * Time)),
    spaced (Z.quot Second requestsPerSecond) (limiter !! clientIP)
      (rate_limited_run requestsPerSecond limiter clientIP requests) /\
    (forall now passed limiter',
       RateLimit requestsPerSecond limiter clientIP now = Returned (passed, limiter') ->
       forall ip, is_Some (limiter !! ip) -> is_Some (limiter' !! ip)) /\
    (forall now, is_Some (limiter !! clientIP) ->
       RateLimit 0 limiter clientIP now = Panicked "runtime error: integer divide by zero").
Proof.
  intros rps limiter clientIP requests. split; [|split].
  - revert limiter. induction requests as [|[ip now] rest IH]; intros limiter; [exact I|].
    cbn [rate_limited_run]. unfold RateLimit.
    destruct (limiter !! ip) as [lastRequest|] eqn:Hl.
    + destruct (rps =? 0); [apply IH|].
      destruct (now - lastRequest <? Z.quot Second rps) eqn:Hlt.
      * cbn [andb]. apply IH.
      * apply Z.ltb_ge in Hlt. cbn [andb].
        destruct (String.eqb ip clientIP) eqn:Hip.
        -- apply String.eqb_eq in Hip as ->. cbn [spaced]. split.
           ++ intros t0 Ht0. pose proof (eq_trans (eq_sym Hl) Ht0) as E.
              injection E as <-. exact Hlt.
           ++ specialize (IH (<[clientIP := now]> limiter)).
              rewrite lookup_insert_eq in IH. exact IH.
        -- apply String.eqb_neq in Hip.
           specialize (IH (<[ip := now]> limiter)).
           rewrite lookup_insert_ne in IH by exact Hip. exact IH.
    + cbn [andb]. destruct (String.eqb ip clientIP) eqn:Hip.
      * apply String.eqb_eq in Hip as ->. cbn [spaced]. split.
        -- intros t0 Ht0. pose proof (eq_trans (eq_sym Hl) Ht0) as E. discriminate.
        -- specialize (IH (<[clientIP := now]> limiter)).
           rewrite lookup_insert_eq in IH. exact IH.
      * apply String.eqb_neq in Hip.
        specialize (IH (<[ip := now]> limiter)).
        rewrite lookup_insert_ne in IH by exact Hip. exact IH.
  - intros now passed limiter'. unfold RateLimit.
    destruct (limiter !! clientIP) as [lastRequest|].
    + destruct (rps =? 0); [discriminate|].
      destruct (now - lastRequest <? Z.quot Second rps); intros [= <- <-] ip Hip;
        [exact Hip|].
      destruct (decide (ip = clientIP)) as [->|Hne];
        [rewrite lookup_insert_eq; eauto | rewrite lookup_insert_ne by congruence; exact Hip].
    + intros [= <- <-] ip Hip.
      destruct (decide (ip = clientIP)) as [->|Hne];
        [rewrite lookup_insert_eq; eauto | rewrite lookup_insert_ne by congruence; exact Hip].
  - intros now [lastRequest Hl]. unfold RateLimit.
    destruct (limiter !! clientIP) eqn:E; [reflexivity | discriminate].
Qed.

(** ** The cache *)

Section CacheFacts.

Context {V : Type}.

Implicit Types (entries : gmap string (InMemoryCache.CacheEntry V))
  (visited : list (string * InMemoryCache.CacheEntry V)).

Lemma oldest_fold (st : string * Time) visited :
  fst st <> "" -> (forall kv, In kv visited -> fst kv <> "") ->
  let st' := List.fold_left InMemoryCache.oldest_step visited st in
  fst st' <> "" /\
  snd st' <= snd st /\
  (forall kv, In kv visited -> snd st' <= InMemoryCache.ExpiresAt (snd kv)) /\
  (st' = st \/
   exists kv, In kv visited /\ st' = (fst kv, InMemoryCache.ExpiresAt (snd kv))).
Proof.
  revert st. induction visited as [|kv rest IH]; intros st Hst Hkeys; cbn [List.fold_left];
    cbv zeta.
  - split; [exact Hst|]. split; [apply Z.le_refl|]. split; [intros kv []|].
    left. reflexivity.
  - assert (Hkv : fst kv <> "") by (apply Hkeys; left; reflexivity).
    assert (Hrest : forall kv', In kv' rest -> fst kv' <> "")
      by (intros kv' Hin; apply Hkeys; right; exact Hin).
    apply String.eqb_neq in Hst as Hst'.
    assert (Hstep : InMemoryCache.oldest_step st kv
                    = if InMemoryCache.ExpiresAt (snd kv) <? snd st
                      then (fst kv, InMemoryCache.ExpiresAt (snd kv)) else st)
      by (unfold InMemoryCache.oldest_step, Before; rewrite Hst'; reflexivity).
    rewrite Hstep.
    destruct (InMemoryCache.ExpiresAt (snd kv) <? snd st) eqn:Hlt.
    + apply Z.ltb_lt in Hlt.
      destruct (IH (fst kv, InMemoryCache.ExpiresAt (snd kv)) Hkv Hrest)
        as (H1 & H2 & H3 & H4). cbv zeta in *. cbn [fst snd] in *.
      split; [exact H1|].
      split; [eapply Z.le_trans; [exact H2 | apply Z.lt_le_incl; exact Hlt]|]. split.
      * intros kv' [<-|Hin]; [exact H2 | apply H3; exact Hin].
      * right. destruct H4 as [-> | (kv' & Hin & ->)].
        -- exists kv. split; [left; reflexivity | reflexivity].
        -- exists kv'. split; [right; exact Hin | reflexivity].
    + apply Z.ltb_ge in Hlt.
      destruct (IH st Hst Hrest) as (H1 & H2 & H3 & H4). cbv zeta in *.
      split; [exact H1|]. split; [exact H2|]. split.
      * intros kv' [<-|Hin]; [eapply Z.le_trans; [exact H2 | exact Hlt] | apply H3; exact Hin].
      * destruct H4 as [-> | (kv' & Hin & ->)]; [left; reflexivity|].
        right. exists kv'. split; [right; exact Hin | reflexivity].
Qed.

Lemma oldest_is_earliest visited :
  visited <> [] -> (forall kv, In kv visited -> fst kv <> "") ->
  exists kv, In kv visited /\
    InMemoryCache.oldest visited = (fst kv, InMemoryCache.ExpiresAt (snd kv)) /\
    forall kv', In kv' visited ->
      InMemoryCache.ExpiresAt (snd kv) <= InMemoryCache.ExpiresAt (snd kv').
Proof.
  destruct visited as [|kv rest]; [congruence|]. intros _ Hkeys.
  unfold InMemoryCache.oldest. cbn [List.fold_left].
  change (InMemoryCache.oldest_step ("", zeroTime) kv)
    with (fst kv, InMemoryCache.ExpiresAt (snd kv)).
  assert (Hkv : fst kv <> "") by (apply Hkeys; left; reflexivity).
  destruct (oldest_fold (fst kv, InMemoryCache.ExpiresAt (snd kv)) rest Hkv
              (fun kv' Hin => Hkeys kv' (or_intror Hin))) as (_ & H2 & H3 & H4).
  cbn [fst snd] in *.
  destruct H4 as [E | (kv' & Hin & E)].
  - exists kv. split; [left; reflexivity|]. split; [exact E|].
    intros kv' [<-|Hin]; [lia|]. rewrite E in H3. apply H3. exact Hin.
  - exists kv'. split; [right; exact Hin|]. split; [exact E|].
    rewrite E in H2, H3. cbn [snd] in H2, H3.
    intros kv'' [<-|Hin'']; [exact H2 | apply H3; exact Hin''].
Qed.

Lemma visits_In entries visited (k : string) (e : InMemoryCache.CacheEntry V) :
  InMemoryCache.visits entries visited -> (In (k, e) visited <-> entries !! k = Some e).
Proof.
  intros Hv. rewrite <- list_elem_of_In.
  unfold InMemoryCache.visits in Hv. rewrite Hv. apply elem_of_map_to_list.
Qed.

(** X22.  In a cache without an entry under the empty key, [evictOldest]
    removes exactly one entry, one whose expiry is the earliest in the
    cache (not the one that was stored first); an empty cache is left as it
    is. *)
Theorem evictOldest_removes_the_earliest_expiry :
  forall entries visited,
    InMemoryCache.visits entries visited ->
    entries !! "" = None ->
    (entries = ∅ /\ InMemoryCache.evictOldest visited entries = entries) \/
    (exists k e,
       entries !! k = Some e /\
       (forall k' e', entries !! k' = Some e' ->
          InMemoryCache.ExpiresAt e <= InMemoryCache.ExpiresAt e') /\
       InMemoryCache.evictOldest visited entries = delete k entries /\
       size (InMemoryCache.evictOldest visited entries) = Nat.pred (size entries)).
Proof.
  intros entries visited Hv Hempty.
  assert (Hkeys : forall kv, In kv visited -> fst kv <> "").
  { intros [k e] Hin Hk. cbn [fst] in Hk. subst k.
    apply (visits_In _ _ _ _ Hv) in Hin. congruence. }
  destruct visited as [|kv0 rest] eqn:Evis.
  - left. assert (entries = ∅).
    { apply map_to_list_empty_iff. apply Permutation_nil. exact Hv. }
    split; [assumption | reflexivity].
  - right. rewrite <- Evis in *.
    destruct (oldest_is_earliest visited) as ([k e] & Hin & Hold & Hmin).
    { rewrite Evis. discriminate. }
    { exact Hkeys. }
    cbn [fst snd] in *.
    apply (visits_In _ _ _ _ Hv) in Hin as Hk.
    exists k, e. split; [exact Hk|]. split.
    + intros k' e' Hk'. apply (Hmin (k', e')). apply (visits_In _ _ _ _ Hv). exact Hk'.
    + assert (Hev : InMemoryCache.evictOldest visited entries = delete k entries).
      { unfold InMemoryCache.evictOldest. rewrite Hold. cbn [fst].
        specialize (Hkeys (k, e) Hin). cbn [fst] in Hkeys.
        apply String.eqb_neq in Hkeys. rewrite Hkeys. reflexivity. }
      split; [exact Hev|]. rewrite Hev. apply map_size_delete_Some. eauto.
Qed.

(** X23.  A cache that holds no entry under the empty key stays within
    its capacity: if it holds at most [maxSize] entries, [maxSize] at least
    1, then after [Set] of a non-empty key it still does, and the new entry
    is the one read back until its time to live has passed. *)
Theorem cache_stays_within_capacity :
  forall (maxSize : Z) entries visited (now later : Time) (key : string) (value : V) (ttl : Z),
    InMemoryCache.visits entries visited ->
    entries !! "" = None -> key <> "" ->
    1 <= maxSize -> Z.of_nat (size entries) <= maxSize ->
    - 2 ^ 63 <= ttl * Second < 2 ^ 63 ->
    let entries' := InMemoryCache.Set' maxSize visited now entries key value ttl in
    Z.of_nat (size entries') <= maxSize /\
    entries' !! "" = None /\
    InMemoryCache.Get later entries' key
    = (if later <=? now + ttl * Second then Ok value
       else Err InMemoryCache.ErrCacheKeyNotFound).
Proof.
  intros maxSize entries visited now later key value ttl Hv Hempty Hkey Hmax Hsize Httl
    entries'.
  subst entries'. unfold InMemoryCache.Set'.
  set (kept := if maxSize <=? Z.of_nat (size entries)
               then InMemoryCache.evictOldest visited entries else entries).
  assert (Hkept : Z.of_nat (size kept) < maxSize /\ kept !! "" = None).
  { subst kept. destruct (maxSize <=? Z.of_nat (size entries)) eqn:Hfull.
    - apply Z.leb_le in Hfull.
      destruct (evictOldest_removes_the_earliest_expiry entries visited Hv Hempty)
        as [[-> _] | (k & e & Hk & _ & Hev & Hsz)].
      + rewrite map_size_empty in Hfull. lia.
      + rewrite Hsz. split; [lia|]. rewrite Hev.
        destruct (decide (k = "")) as [->|Hne];
          [apply lookup_delete_eq | rewrite lookup_delete_ne by congruence; exact Hempty].
    - apply Z.leb_gt in Hfull. split; [lia | exact Hempty]. }
  destruct Hkept as [Hlt Hk0].
  split; [|split].
  - rewrite map_size_insert. destruct (kept !! key); simpl; lia.
  - rewrite lookup_insert_ne by congruence. exact Hk0.
  - unfold InMemoryCache.Get. rewrite lookup_insert_eq.
    unfold InMemoryCache.IsExpired, After, Add. cbn [InMemoryCache.ExpiresAt InMemoryCache.Value].
    rewrite wrap64_small by exact Httl.
    destruct (later <=? now + ttl * Second) eqn:E.
    + apply Z.leb_le in E.
      replace (now + ttl * Second <? later) with false by (symmetry; apply Z.ltb_ge; lia).
      reflexivity.
    + apply Z.leb_gt in E.
      replace (now + ttl * Second <? later) with true by (symmetry; apply Z.ltb_lt; lia).
      reflexivity.
Qed.

(** X24.  A tick of the background cleanup cannot be observed through
    [Get]: at any time not before the clock readings of the tick, every key
    reads the same from the cleaned cache as from the cache before. *)
Theorem cleanup_is_not_observable :
  forall (now : string -> Time) entries (later : Time) (key : string),
    now key <= later ->
    InMemoryCache.Get later (InMemoryCache.cleanup now entries) key
    = InMemoryCache.Get later entries key.
Proof.
  intros now entries later key Hlater. unfold InMemoryCache.Get, InMemoryCache.cleanup.
  destruct (entries !! key) as [e|] eqn:He.
  - destruct (InMemoryCache.IsExpired (now key) e) eqn:Hx.
    + rewrite (proj2 (map_lookup_filter_None _ _ _)).
      * unfold InMemoryCache.IsExpired, After in *. apply Z.ltb_lt in Hx.
        replace (InMemoryCache.ExpiresAt e <? later) with true
          by (symmetry; apply Z.ltb_lt; lia).
        reflexivity.
      * right. intros e' He'. cbn [fst snd]. congruence.
    + rewrite (proj2 (map_lookup_filter_Some _ _ _ e)); [reflexivity|].
      split; [exact He | exact Hx].
  - rewrite (proj2 (map_lookup_filter_None _ _ _)); [reflexivity|]. left. exact He.
Qed.

End CacheFacts.

Lemma one_entry_visits : InMemoryCache.visits one_entry (map_to_list one_entry).
Proof. unfold InMemoryCache.visits. reflexivity. Qed.

Lemma evictOldest_removes_the_earliest_expiry_witness :
  (one_entry = ∅ /\ InMemoryCache.evictOldest (map_to_list one_entry) one_entry = one_entry) \/
  (exists k e,
     one_entry !! k = Some e /\
     (forall k' e', one_entry !! k' = Some e' ->
        InMemoryCache.ExpiresAt e <= InMemoryCache.ExpiresAt e') /\
     InMemoryCache.evictOldest (map_to_list one_entry) one_entry = delete k one_entry /\
     size (InMemoryCache.evictOldest (map_to_list one_entry) one_entry)
     = Nat.pred (size one_entry)).
Proof.
  apply (evictOldest_removes_the_earliest_expiry one_entry (map_to_list one_entry)
           one_entry_visits).
  reflexivity.
Defined.

Lemma cache_stays_within_capacity_witness :
  Z.of_nat (size (InMemoryCache.Set' 1 (map_to_list one_entry) (50 * Second) one_entry
                    "k2" "v2" 300)) <= 1 /\
  InMemoryCache.Get (350 * Second)
    (InMemoryCache.Set' 1 (map_to_list one_entry) (50 * Second) one_entry "k2" "v2" 300) "k2"
  = Ok "v2".
Proof.
  destruct (cache_stays_within_capacity 1 one_entry (map_to_list one_entry) (50 * Second)
              (350 * Second) "k2" "v2" 300 one_entry_visits) as (Hsize & _ & Hget).
  - reflexivity.
  - discriminate.
  - lia.
  - apply Z.leb_le. vm_compute. reflexivity.
  - vm_compute. split; [discriminate | reflexivity].
  - split; [exact Hsize | exact Hget].
Defined.

Lemma cleanup_is_not_observable_witness :
  InMemoryCache.Get (200 * Second)
    (InMemoryCache.cleanup (fun _ => 150 * Second) one_entry) "k1"
  = InMemoryCache.Get (200 * Second) one_entry "k1".
Proof.
  apply (cleanup_is_not_observable (fun _ => 150 * Second) one_entry (200 * Second) "k1").
  vm_compute. discriminate.
Defined.

(** X25.  A validation that succeeded is served from the cache until its
    time to live has passed, without asking the token service again: the
    cached claims are returned whatever the service would answer by then, in
    particular after the token itself has expired.  The cache is not written
    on such a hit. *)
Theorem cached_validation_outlives_the_service :
  forall (ValidateToken ValidateToken' : string -> result Claims.t)
         (maxSize cacheTTL : Z)
         (visited visited' : list (string * InMemoryCache.CacheEntry Claims.t))
         (now_get now_set now_get' now_set' : Time)
         (entries : gmap string (InMemoryCache.CacheEntry Claims.t))
         (token : string) (claims : Claims.t),
    entries !! ("token:" +:+ token) = None ->
    ValidateToken token = Ok claims ->
    - 2 ^ 63 <= cacheTTL * Second < 2 ^ 63 ->
    now_get' <= now_set + cacheTTL * Second ->
    let first :=
      CachedTokenService_ValidateToken ValidateToken maxSize cacheTTL visited
        now_get now_set entries token in
    fst first = Ok claims /\
    CachedTokenService_ValidateToken ValidateToken' maxSize cacheTTL visited'
      now_get' now_set' (snd first) token
    = (Ok claims, snd first).
Proof.
  intros V V' maxSize cacheTTL visited visited' now_get now_set now_get' now_set'
    entries token claims Hmiss Hv Httl Hlater first.
  assert (Hfirst : first =
            (Ok claims,
             InMemoryCache.Set' maxSize visited now_set entries ("token:" +:+ token) claims
               cacheTTL)).
  { subst first. unfold CachedTokenService_ValidateToken, InMemoryCache.Get.
    rewrite Hmiss, Hv. reflexivity. }
  rewrite Hfirst. cbn [fst snd]. split; [reflexivity|].
  unfold CachedTokenService_ValidateToken.
  unfold InMemoryCache.Get, InMemoryCache.Set'. cbv zeta. rewrite lookup_insert_eq.
  unfold InMemoryCache.IsExpired, After, Add. cbn [InMemoryCache.ExpiresAt InMemoryCache.Value].
  rewrite wrap64_small by exact Httl.
  replace (now_set + cacheTTL * Second <? now_get') with false
    by (symmetry; apply Z.ltb_ge; exact Hlater).
  reflexivity.
Qed.

Lemma cached_validation_outlives_the_service_witness :
  CachedTokenService_ValidateToken (fun _ => Err "token has expired") 10 300 [] 200 201
    (snd (CachedTokenService_ValidateToken (fun _ => Ok Claims.zero) 10 300 [] 0 1 ∅ "t"))
    "t"
  = (Ok Claims.zero,
     snd (CachedTokenService_ValidateToken (fun _ => Ok Claims.zero) 10 300 [] 0 1 ∅ "t")).
Proof.
  refine (proj2 (cached_validation_outlives_the_service (fun _ => Ok Claims.zero)
                   (fun _ => Err "token has expired") 10 300 [] [] 0 1 200 201 ∅ "t"
                   Claims.zero _ _ _ _)).
  - reflexivity.
  - reflexivity.
  - vm_compute. split; [discriminate | reflexivity].
  - vm_compute. discriminate.
Defined.

(** ** Logins that fail *)

Lemma CreateAuthorizationCode_failure (iw : IssueWorld)
    (codes codes' : gmap string AuthorizationCode.t)
    (email password clientID redirectURI scope codeChallenge codeChallengeMethod : string)
    (e : error) :
  CreateAuthorizationCode iw codes email password clientID redirectURI scope codeChallenge
    codeChallengeMethod = (Err e, codes') ->
  codes' = codes.
Proof.
  unfold CreateAuthorizationCode. intros H. repeat case_match; simplify_eq/=; reflexivity.
Qed.

Section LoginFacts.

Context {U : NetURL}.

(** X26.  A login posted with a valid authorization request that does not
    end in a code is answered with the login form again, status 200, and
    leaves the registry as it was: the reply is the same whether the email
    or the password was missing, the account unknown, the password wrong,
    the context cancelled or the random source failed. *)
Theorem failed_logins_look_alike :
  forall (iw : IssueWorld) (codes : gmap string AuthorizationCode.t)
         (w : ResponseWriter.t) (r : Request.t),
    Request.Method r = "POST" -> authorize_rejection r = None ->
    let email := Request.FormValue r "email" in
    let password := Request.FormValue r "password" in
    let clientID := Request.Query_Get r "client_id" in
    let redirectURI := Request.Query_Get r "redirect_uri" in
    let state := Request.Query_Get r "state" in
    let scope := Request.Query_Get r "scope" in
    let codeChallenge := Request.Query_Get r "code_challenge" in
    let codeChallengeMethod := Request.Query_Get r "code_challenge_method" in
    email = "" \/ password = "" \/
    is_Ok (fst (CreateAuthorizationCode iw codes email password clientID redirectURI scope
                  codeChallenge codeChallengeMethod)) = false ->
    AuthorizeHandler iw codes w r
    = (Returned (renderLoginForm w clientID redirectURI state scope codeChallenge
                   codeChallengeMethod), codes) /\
    ResponseWriter.Status
      (renderLoginForm ResponseWriter.fresh clientID redirectURI state scope codeChallenge
         codeChallengeMethod) = Some StatusOK.
Proof.
  intros iw codes w r Hm Hrej email password clientID redirectURI state scope
    codeChallenge codeChallengeMethod Hfail.
  split; [|reflexivity].
  unfold AuthorizeHandler. rewrite Hm, Hrej.
  cbn [String.eqb Ascii.eqb Bool.eqb negb andb].
  fold email password clientID redirectURI state scope codeChallenge codeChallengeMethod.
  destruct (String.eqb email "") eqn:Ee; [reflexivity|].
  destruct (String.eqb password "") eqn:Ep; [reflexivity|]. cbn [orb].
  apply String.eqb_neq in Ee, Ep.
  destruct Hfail as [Hfail | [Hfail | Hfail]]; [congruence | congruence |].
  destruct (CreateAuthorizationCode iw codes email password clientID redirectURI scope
              codeChallenge codeChallengeMethod) as [[code|e] codes'] eqn:Hc;
    [discriminate|].
  apply CreateAuthorizationCode_failure in Hc. subst codes'. reflexivity.
Qed.

End LoginFacts.

Lemma failed_logins_look_alike_witness :
  AuthorizeHandler (U := plain_urls) Scenario.issue_world ∅ ResponseWriter.fresh
    (authorize_post "c1" "https://x/cb" "s1" "openid" Scenario.challenge "a@x" "wrong")
  = AuthorizeHandler (U := plain_urls) Scenario.issue_world ∅ ResponseWriter.fresh
      (authorize_post "c1" "https://x/cb" "s1" "openid" Scenario.challenge "nobody@x"
         "Passw0rd!").
Proof.
  rewrite (proj1 (failed_logins_look_alike (U := plain_urls) Scenario.issue_world ∅
                    ResponseWriter.fresh
                    (authorize_post "c1" "https://x/cb" "s1" "openid" Scenario.challenge
                       "a@x" "wrong")
                    eq_refl eq_refl (or_intror (or_intror eq_refl)))).
  rewrite (proj1 (failed_logins_look_alike (U := plain_urls) Scenario.issue_world ∅
                    ResponseWriter.fresh
                    (authorize_post "c1" "https://x/cb" "s1" "openid" Scenario.challenge
                       "nobody@x" "Passw0rd!")
                    eq_refl eq_refl (or_intror (or_intror eq_refl)))).
  reflexivity.
Defined.

(** ** What validation does not look at *)

Section ValidationGaps.

Context {J : GoJose} {L : GoJoseLaws J}.

(** X27.  For an environment whose secret has at least 28 bytes,
    [LoadConfig] succeeds and [NewJWETokenService], called as
    [initializeServices] calls it (the secret and the issuer of the
    configuration, the audience ["auth0-server"]), returns a service under
    the configured issuer (or the default one).  That service mints pairs
    whose access token it validates, while fresh, to the subject it was
    minted for and to its own issuer, both as JSON hands them back (the same
    strings when they are valid UTF-8).  The other steps of start-up are not
    part of the statement. *)
Theorem configured_service_serves_tokens :
  forall (rt : Runtime) (env : gmap string string) (mw : MintWorld) (vw : ValidateWorld)
         (sub email name : string),
    (28 <= String.length (Getenv env "JWE_SECRET"))%nat ->
    mw_ctx_Err mw = None ->
    0 <= mw_Now mw -> Unix (mw_Now mw) + 7 * 24 * 3600 < 2 ^ 53 ->
    vw_ctx_Err vw = None ->
    time_Unix (Unix (mw_Now mw)) <= vw_Now_nbf vw ->
    vw_Now_exp vw <= time_Unix (Unix (mw_Now mw) + 24 * 3600) ->
    exists (cfg : Config.t) (svc : JWETokenService.t) (pair : TokenPair.t)
           (claims : Claims.t),
      LoadConfig env = Ok cfg /\
      Config.Issuer cfg = orDefault (Getenv env "ISSUER") "auth0-server" /\
      NewJWETokenService rt (Config.JWESecret cfg) (Config.Issuer cfg)
        (Some ["auth0-server"]) = Returned svc /\
      JWETokenService.issuer svc = Config.Issuer cfg /\
      GenerateTokenPair svc mw sub email name = Ok pair /\
      ValidateToken svc vw (TokenPair.AccessToken pair) = Ok claims /\
      Claims.Subject claims = json_text sub /\
      Claims.Issuer claims = json_text (Config.Issuer cfg) /\
      (utf8_ValidString sub = true -> Claims.Subject claims = sub) /\
      (utf8_ValidString (Config.Issuer cfg) = true ->
       Claims.Issuer claims = Config.Issuer cfg).
Proof.
  intros rt env mw vw sub email name Hlen Hmw Hnow Hb Hvw Hnbf Hexp.
  assert (Hne : String.eqb (Getenv env "JWE_SECRET") "" = false).
  { apply String.eqb_neq. intros E. rewrite E in Hlen. simpl in Hlen. lia. }
  unfold LoadConfig. rewrite Hne. cbv zeta.
  exists (Config.mk (orDefault (Getenv env "SERVER_ADDRESS") ":8080")
            (Getenv env "JWE_SECRET")
            (orDefault (Getenv env "ISSUER") "auth0-server")
            (orDefault (Getenv env "DOMAIN") "localhost:8080")).
  cbn [Config.JWESecret Config.Issuer].
  rewrite NewJWETokenService_long by lia.
  set (svc := JWETokenService.mk _ _ _ _).
  assert (Hk : List.length (JWETokenService.encryptionKey svc) = 32%nat).
  { subst svc. cbn [JWETokenService.encryptionKey].
    rewrite List.length_firstn, length_bytes_of_string, length_append.
    change (String.length "_enc") with 4%nat. lia. }
  destruct (minted_pair_validation svc mw sub email name Hk Hmw Hnow Hb)
    as (pair & access & refresh & Hgen & Ha1 & _ & _ & _ & _ & _ & Hiss & Hval).
  exists svc, pair, access.
  split; [reflexivity|]. cbn [Config.JWESecret Config.Issuer].
  split; [reflexivity|]. split; [reflexivity|]. split; [reflexivity|].
  split; [exact Hgen|]. split.
  { destruct (Hval vw Hvw) as [-> _]. unfold After, Before.
    replace (_ <? vw_Now_exp vw) with false by (symmetry; apply Z.ltb_ge; exact Hexp).
    replace (vw_Now_nbf vw <? _) with false by (symmetry; apply Z.ltb_ge; exact Hnbf).
    reflexivity. }
  split; [exact Ha1|]. split; [exact Hiss|]. split.
  - intros Hv. rewrite Ha1. apply json_text_valid. exact Hv.
  - intros Hv. rewrite Hiss. apply json_text_valid. exact Hv.
Qed.

(** X28.  [ValidateToken] checks the two keys and the two times and
    nothing else: a service with the same keys under another issuer and
    another audience accepts the tokens of the first, and hands back claims
    that still name the first issuer (as JSON hands it back: the same string
    when it is valid UTF-8). *)
Theorem issuer_and_audience_are_not_checked :
  forall (s s' : JWETokenService.t) (mw : MintWorld) (vw : ValidateWorld)
         (sub email name : string),
    JWETokenService.encryptionKey s' = JWETokenService.encryptionKey s ->
    JWETokenService.signingKey s' = JWETokenService.signingKey s ->
    List.length (JWETokenService.encryptionKey s) = 32%nat ->
    mw_ctx_Err mw = None ->
    0 <= mw_Now mw -> Unix (mw_Now mw) + 7 * 24 * 3600 < 2 ^ 53 ->
    vw_ctx_Err vw = None ->
    time_Unix (Unix (mw_Now mw)) <= vw_Now_nbf vw ->
    vw_Now_exp vw <= time_Unix (Unix (mw_Now mw) + 24 * 3600) ->
    exists (pair : TokenPair.t) (claims : Claims.t),
      GenerateTokenPair s mw sub email name = Ok pair /\
      ValidateToken s' vw (TokenPair.AccessToken pair) = Ok claims /\
      ValidateToken s vw (TokenPair.AccessToken pair) = Ok claims /\
      Claims.Subject claims = json_text sub /\
      Claims.Issuer claims = json_text (JWETokenService.issuer s) /\
      (utf8_ValidString sub = true -> Claims.Subject claims = sub) /\
      (utf8_ValidString (JWETokenService.issuer s) = true ->
       Claims.Issuer claims = JWETokenService.issuer s).
Proof.
  intros s s' mw vw sub email name Hek Hsk Hk Hmw Hnow Hb Hvw Hnbf Hexp.
  destruct (minted_pair_validation s mw sub email name Hk Hmw Hnow Hb)
    as (pair & access & refresh & Hgen & Ha1 & _ & _ & _ & _ & _ & Hiss & Hval).
  exists pair, access. split; [exact Hgen|].
  assert (Hsame : ValidateToken s' vw (TokenPair.AccessToken pair)
                  = ValidateToken s vw (TokenPair.AccessToken pair))
    by (unfold ValidateToken; rewrite Hek, Hsk; reflexivity).
  assert (Hok : ValidateToken s vw (TokenPair.AccessToken pair) = Ok access).
  { destruct (Hval vw Hvw) as [-> _]. unfold After, Before.
    replace (_ <? vw_Now_exp vw) with false by (symmetry; apply Z.ltb_ge; exact Hexp).
    replace (vw_Now_nbf vw <? _) with false by (symmetry; apply Z.ltb_ge; exact Hnbf).
    reflexivity. }
  split; [rewrite Hsame; exact Hok|]. split; [exact Hok|].
  split; [exact Ha1|]. split; [exact Hiss|]. split.
  - intros Hv. rewrite Ha1. apply json_text_valid. exact Hv.
  - intros Hv. rewrite Hiss. apply json_text_valid. exact Hv.
Qed.

End ValidationGaps.

Section MissingExpiry.

Context {J : GoJose}.

(** X29.  A token that decrypts and verifies but whose claims hold no
    numeric [exp] is refused as expired at any time after the zero time: the
    missing expiry reads as the zero time.  A missing [nbf] holds nothing
    back. *)
Theorem token_without_expiry_is_refused :
  forall (s : JWETokenService.t) (vw : ValidateWorld) (tokenString decrypted : string)
         (object : JSONWebEncryption) (token : JSONWebToken)
         (rawClaims : gmap string value),
    vw_ctx_Err vw = None ->
    jose_ParseEncrypted tokenString [DIRECT] [A256GCM] = Ok object ->
    jwe_Decrypt object (JWETokenService.encryptionKey s) = Ok decrypted ->
    jwt_ParseSigned decrypted [HS256] = Ok token ->
    jwt_Claims token (JWETokenService.signingKey s) = Ok rawClaims ->
    (rawClaims !! "exp" = None ->
     zeroTime < vw_Now_exp vw ->
     ValidateToken s vw tokenString = Err "token has expired") /\
    (rawClaims !! "nbf" = None ->
     zeroTime <= vw_Now_nbf vw ->
     vw_Now_exp vw <= Claims.ExpiresAt (claims_of_raw rawClaims) ->
     ValidateToken s vw tokenString = Ok (claims_of_raw rawClaims)).
Proof.
  intros s vw tokenString decrypted object token rawClaims Hctx Hp Hd Hs Hc.
  unfold ValidateToken. rewrite Hctx, Hp, Hd, Hs, Hc. cbv zeta.
  unfold After, Before. split.
  - intros Hexp Hnow.
    assert (E : Claims.ExpiresAt (claims_of_raw rawClaims) = zeroTime)
      by (unfold claims_of_raw, raw_time; cbn [Claims.ExpiresAt]; rewrite Hexp; reflexivity).
    rewrite E.
    replace (zeroTime <? vw_Now_exp vw) with true by (symmetry; apply Z.ltb_lt; exact Hnow).
    reflexivity.
  - intros Hnbf Hnow Hexp.
    assert (E : Claims.NotBefore (claims_of_raw rawClaims) = zeroTime)
      by (unfold claims_of_raw, raw_time; cbn [Claims.NotBefore]; rewrite Hnbf; reflexivity).
    rewrite E.
    replace (_ <? vw_Now_exp vw) with false by (symmetry; apply Z.ltb_ge; exact Hexp).
    replace (vw_Now_nbf vw <? zeroTime) with false by (symmetry; apply Z.ltb_ge; exact Hnow).
    reflexivity.
Qed.

End MissingExpiry.

Lemma configured_service_serves_tokens_witness :
  exists (svc : JWETokenService.t) (pair : TokenPair.t) (claims : Claims.t),
    NewJWETokenService exact_fit "0123456789abcdef0123456789ab" "auth0-server"
      (Some ["auth0-server"]) = Returned svc /\
    GenerateTokenPair svc ToyJose.minting "acct-1" "a@x" "A" = Ok pair /\
    ValidateToken svc (ToyJose.validating 60) (TokenPair.AccessToken pair) = Ok claims /\
    Claims.Subject claims = "acct-1" /\ Claims.Issuer claims = "auth0-server".
Proof.
  destruct (configured_service_serves_tokens (J := ToyJose.jose) exact_fit
              {["JWE_SECRET" := "0123456789abcdef0123456789ab"]} ToyJose.minting
              (ToyJose.validating 60) "acct-1" "a@x" "A")
    as (cfg & svc & pair & claims & H1 & H2 & H3 & _ & H5 & H6 & _ & _ & H9 & H10).
  - apply Nat.leb_le. vm_compute. reflexivity.
  - reflexivity.
  - vm_compute. discriminate.
  - vm_compute. reflexivity.
  - reflexivity.
  - vm_compute. discriminate.
  - vm_compute. discriminate.
  - injection H1 as <-. cbn [Config.JWESecret Config.Issuer] in *.
    exists svc, pair, claims.
    split; [exact H3|]. split; [exact H5|]. split; [exact H6|].
    split; [apply H9; reflexivity | apply H10; reflexivity].
Defined.

Lemma issuer_and_audience_are_not_checked_witness :
  exists (pair : TokenPair.t) (claims : Claims.t),
    GenerateTokenPair ToyJose.service ToyJose.minting "acct-1" "a@x" "A" = Ok pair /\
    ValidateToken other_issuer (ToyJose.validating 60) (TokenPair.AccessToken pair)
    = Ok claims /\
    Claims.Issuer claims = "auth0-server".
Proof.
  destruct (issuer_and_audience_are_not_checked (J := ToyJose.jose) ToyJose.service
              other_issuer ToyJose.minting (ToyJose.validating 60) "acct-1" "a@x" "A")
    as (pair & claims & H1 & H2 & _ & _ & _ & _ & H7).
  - reflexivity.
  - reflexivity.
  - reflexivity.
  - reflexivity.
  - vm_compute. discriminate.
  - vm_compute. reflexivity.
  - reflexivity.
  - vm_compute. discriminate.
  - vm_compute. discriminate.
  - exists pair, claims. split; [exact H1|]. split; [exact H2|]. apply H7. reflexivity.
Defined.

Lemma token_without_expiry_is_refused_witness :
  ValidateToken ToyJose.service (ToyJose.validating 0) bare_token = Err "token has expired".
Proof.
  refine (proj1 (token_without_expiry_is_refused (J := ToyJose.jose) ToyJose.service
                   (ToyJose.validating 0) bare_token (ToyJose.pack bare_signed)
                   bare_encrypted bare_signed (json_view <$> ∅) eq_refl _ _ _ _) _ _).
  - cbn [jose_ParseEncrypted ToyJose.jose]. unfold ToyJose.parse_encrypted, bare_token.
    rewrite unpack_pack. reflexivity.
  - reflexivity.
  - cbn [jwt_ParseSigned ToyJose.jose]. unfold ToyJose.parse_signed.
    rewrite unpack_pack. reflexivity.
  - cbn [jwt_Claims ToyJose.jose]. unfold ToyJose.claims, bare_signed.
    rewrite bool_decide_eq_true_2 by reflexivity. rewrite unpack_pack. reflexivity.
  - reflexivity.
  - vm_compute. reflexivity.
Defined.
